(** * vampire: the TCR variational autoencoder of [vampire/tcr_vae.py]

    A shallow embedding of the probabilistic core of [tcr_vae.py]: the
    numpy post-processing ([logprob_of_obs_vect], the importance sampler and
    its log-sum-exp aggregation), the Keras graph built by
    [encoder_decoder_vae] (encoder, reparameterised sampler, decoder, loss)
    and the facade methods of [TCRVAE] ([get_data], [encode], [decode],
    [generate], [log_p_of_x_importance_sample]).

    Arithmetic is idealised: a float is a real number, or one of the IEEE
    special values [+inf], [-inf], [nan]; rounding and overflow are not
    modelled.  Underflow is modelled in one place, the [np.exp] of [encode],
    where a standard deviation of exactly zero changes what
    [stats.norm.rvs] and [stats.norm.logpdf] do.  The network layers, whose
    values stay finite in this reading, are written over [R]; the numpy
    code, where [log 0 = -inf] is a defined result, is written over the
    extended type [num]. *)

From Stdlib Require Import String Reals List ZArith Lia Lra Bool.
Import ListNotations.

Open Scope R_scope.

(** ** Exceptions and fallible results *)

Inductive exn : Type :=
| AssertionError
| ValueError
| ZeroDivisionError
| TypeError.

Inductive result (A : Type) : Type :=
| Ok (a : A)
| Raise (e : exn).

Arguments Ok {A} a.
Arguments Raise {A} e.

Definition bind {A B : Type} (m : result A) (k : A -> result B) : result B :=
  match m with
  | Ok a => k a
  | Raise e => Raise e
  end.

Notation "x <- m ;; k" := (bind m (fun x => k))
  (at level 61, m at next level, right associativity).
Notation "' pat <- m ;; k" := (bind m (fun x => match x with pat => k end))
  (at level 61, pat pattern, m at next level, right associativity).

(** ** Numbers of the numpy side *)

Module Num.

Inductive num : Type :=
| Fin (r : R)
| PInf
| NInf
| NaN.

Definition isfinite (a : num) : bool :=
  match a with Fin _ => true | _ => false end.

Definition add (a b : num) : num :=
  match a, b with
  | NaN, _ | _, NaN => NaN
  | Fin x, Fin y => Fin (x + y)
  | PInf, NInf | NInf, PInf => NaN
  | PInf, _ | _, PInf => PInf
  | NInf, _ | _, NInf => NInf
  end.

Definition opp (a : num) : num :=
  match a with
  | Fin x => Fin (- x)
  | PInf => NInf
  | NInf => PInf
  | NaN => NaN
  end.

Definition sub (a b : num) : num := add a (opp b).

(** [inf_times r pos] is [r * (+inf)] when [pos] and [r * (-inf)] otherwise. *)
Definition inf_times (r : R) (pos : bool) : num :=
  if Rlt_dec 0 r then (if pos then PInf else NInf)
  else if Rlt_dec r 0 then (if pos then NInf else PInf)
  else NaN.

Definition mul (a b : num) : num :=
  match a, b with
  | NaN, _ | _, NaN => NaN
  | Fin x, Fin y => Fin (x * y)
  | Fin x, PInf | PInf, Fin x => inf_times x true
  | Fin x, NInf | NInf, Fin x => inf_times x false
  | PInf, PInf | NInf, NInf => PInf
  | PInf, NInf | NInf, PInf => NInf
  end.

(** [np.log]: [log 0 = -inf] (a warning, not an exception), [nan] below 0. *)
Definition log (a : num) : num :=
  match a with
  | Fin x => if Rlt_dec 0 x then Fin (ln x)
             else if Rlt_dec x 0 then NaN else NInf
  | PInf => PInf
  | NInf => NaN
  | NaN => NaN
  end.

Definition exp (a : num) : num :=
  match a with
  | Fin x => Fin (Rtrigo_def.exp x)
  | PInf => PInf
  | NInf => Fin 0
  | NaN => NaN
  end.

(** The maximum of two values as [np.amax] takes it: [nan] wins. *)
Definition max (a b : num) : num :=
  match a, b with
  | NaN, _ | _, NaN => NaN
  | PInf, _ | _, PInf => PInf
  | NInf, c | c, NInf => c
  | Fin x, Fin y => Fin (Rmax x y)
  end.

End Num.

Import Num.

Declare Scope num_scope.
Delimit Scope num_scope with num.
Bind Scope num_scope with num.
Infix "+" := Num.add : num_scope.
Infix "-" := Num.sub : num_scope.
Infix "*" := Num.mul : num_scope.

(** ** numpy arrays *)

(** A one-dimensional array is a list.  A two-dimensional array carries its
    shape, as an [ndarray] does: an array of shape [(n, 0)] is not the same
    as one of shape [(0, n)]. *)
Record ndarray2 (A : Type) : Type := mk_ndarray2 {
  nrows : nat;
  ncols : nat;
  item : nat -> nat -> A
}.

Arguments mk_ndarray2 {A} nrows ncols item.
Arguments nrows {A} _.
Arguments ncols {A} _.
Arguments item {A} _ _ _.

Definition same_shape {A B : Type} (a : ndarray2 A) (b : ndarray2 B) : Prop :=
  nrows a = nrows b /\ ncols a = ncols b.

(** An array of real numbers whose rank, 0, 1 or 2, is decided at run time;
    a matrix is the list of its rows. *)
Inductive ndarray : Type :=
| Array0 (x : R)
| Array1 (v : list R)
| Array2 (m : list (list R)).

(** The arrays [a[i]] for [a] of rank 1 or 2, each as a one-dimensional
    array: the rows of a matrix, the entries of a vector. *)
Definition ndarray_rows (a : ndarray) : list (list R) :=
  match a with
  | Array0 _ => []
  | Array1 v => map (fun x => [x]) v
  | Array2 m => m
  end.

Module np.

(** [np.sum] of a one-dimensional array. *)
Definition sum (v : list num) : num := fold_right Num.add (Fin 0) v.

(** [np.log], elementwise. *)
Definition log (v : list num) : list num := map Num.log v.

(** [a * b] on two arrays of one shape (the shape is read off [a]). *)
Definition multiply (a b : ndarray2 num) : ndarray2 num :=
  mk_ndarray2 (nrows a) (ncols a) (fun i j => (item a i j * item b i j)%num).

(** Row [i] of a two-dimensional array. *)
Definition row {A : Type} (a : ndarray2 A) (i : nat) : list A :=
  map (item a i) (seq 0 (ncols a)).

(** [np.sum(a, axis=1)]: one sum per row. *)
Definition sum_axis1 (a : ndarray2 num) : list num :=
  map (fun i => sum (row a i)) (seq 0 (nrows a)).

(** [a.T] *)
Definition transpose {A : Type} (a : ndarray2 A) : ndarray2 A :=
  mk_ndarray2 (ncols a) (nrows a) (fun i j => item a j i).

(** [np.matmul(a, b)] for [a] of shape [(n, k)] and [b] of shape [(k, m)]. *)
Definition matmul (a b : ndarray2 num) : ndarray2 num :=
  mk_ndarray2 (nrows a) (ncols b)
    (fun i j => sum (map (fun k => (item a i k * item b k j)%num)
                         (seq 0 (ncols a)))).

(** [a.diagonal()] *)
Definition diagonal {A : Type} (a : ndarray2 A) : list A :=
  map (fun i => item a i i) (seq 0 (Nat.min (nrows a) (ncols a))).

End np.

(** ** [logprob_of_obs_vect] *)

(** [np.sum(np.log(np.sum(probs * obs, axis=1)))] *)
Definition logprob_of_obs_vect (probs obs : ndarray2 num) : num :=
  np.sum (np.log (np.sum_axis1 (np.multiply probs obs))).

(** The formulation named in the docstring:
    [np.sum(np.log(np.matmul(probs, obs.T).diagonal()))]. *)
Definition logprob_of_obs_vect_matmul (probs obs : ndarray2 num) : num :=
  np.sum (np.log (np.diagonal (np.matmul probs (np.transpose obs)))).

(** ** Random numbers *)

(** A generator is a tape of standard normal variates and a cursor; every
    draw reads the tape at the cursor and moves it on. *)
Record rng : Type := mk_rng {
  tape : nat -> R;
  pos : nat
}.

(** A [(rows, cols)] array of standard normal variates. *)
Definition standard_normal (rows cols : nat) (g : rng)
  : list (list R) * rng :=
  (map (fun i => map (fun j => tape g (pos g + i * cols + j)) (seq 0 cols))
       (seq 0 rows),
   mk_rng (tape g) (pos g + rows * cols)).

(** ** The Keras backend and layers *)

Definition Rsum (l : list R) : R := fold_right Rplus 0 l.

(** Elementwise combination of two tensors of one shape. *)
Definition map2 {A B C : Type} (f : A -> B -> C) (l1 : list A) (l2 : list B)
  : list C :=
  map (fun p => f (fst p) (snd p)) (combine l1 l2).

Module K.

(** Tensors of rank 2, shape [(batch, d)], are lists of rows. *)
Definition exp (t : list (list R)) : list (list R) :=
  map (map Rtrigo_def.exp) t.

Definition square (t : list (list R)) : list (list R) :=
  map (map (fun x => x * x)) t.

(** [K.sum(t, axis=-1)] *)
Definition sum_last (t : list (list R)) : list R := map Rsum t.

(** [K.mean] of a tensor, given by the list of all its elements. *)
Definition mean (elems : list R) : R := Rsum elems / INR (length elems).

(** [s + t], [t - u] and [s * t] with a scalar [s]. *)
Definition add_scalar (s : R) (t : list (list R)) : list (list R) :=
  map (map (Rplus s)) t.

Definition sub (t u : list (list R)) : list (list R) :=
  map2 (map2 Rminus) t u.

(** [K.random_normal(shape=(rows, cols), mean, stddev)] *)
Definition random_normal (rows cols : nat) (mean stddev : R) (g : rng)
  : list (list R) * rng :=
  let '(e, g') := standard_normal rows cols g in
  (map (map (fun x => mean + stddev * x)) e, g').

(** [K.epsilon()] *)
Definition epsilon : R := / 10 ^ 7.

(** [tf.clip_by_value(x, lo, hi)] *)
Definition clip (x lo hi : R) : R := Rmin (Rmax x lo) hi.

(** [K.categorical_crossentropy(target, output)] along the last axis, for
    one vector of that axis: the output is rescaled to sum to one, clipped
    to [[epsilon, 1 - epsilon]], and the result is
    [- sum(target * log(output))]. *)
Definition categorical_crossentropy (target output : list R) : R :=
  let s := Rsum output in
  let scaled := map (fun o => o / s) output in
  let clipped := map (fun o => clip o epsilon (1 - epsilon)) scaled in
  - Rsum (map2 (fun t o => t * ln o) target clipped).

End K.

Inductive activation : Type :=
| linear
| elu
| softmax.

Definition Relu_exp (x : R) : R :=
  if Rlt_dec 0 x then x else Rtrigo_def.exp x - 1.

(** [tf.nn.softmax] on a vector. *)
Definition tf_softmax (x : list R) : list R :=
  let s := Rsum (map Rtrigo_def.exp x) in
  map (fun xi => Rtrigo_def.exp xi / s) x.

Definition apply_activation (a : activation) (x : list R) : list R :=
  match a with
  | linear => x
  | elu => map Relu_exp x
  | softmax => tf_softmax x
  end.

(** The weights of a [Dense] layer: [kernel i j] for input [i] and unit
    [j], and [bias j]. *)
Record DenseW : Type := mk_DenseW {
  kernel : nat -> nat -> R;
  bias : nat -> R
}.

(** [Dense(units, activation)(x)]: [activation(dot(x, kernel) + bias)]. *)
Definition Dense (units : nat) (a : activation) (w : DenseW) (x : list R)
  : list R :=
  apply_activation a
    (map (fun j =>
            Rsum (map (fun i => nth i x 0 * kernel w i j) (seq 0 (length x)))
            + bias w j)
         (seq 0 units)).

(** [EmbedViaMatrix(embedding_dim).call(x)]: [K.dot(x, self.kernel)], for one
    record of the batch. *)
Definition EmbedViaMatrix (embedding_dim : nat) (kern : nat -> nat -> R)
  (x : ndarray2 R) : ndarray2 R :=
  mk_ndarray2 (nrows x) embedding_dim
    (fun i j => Rsum (map (fun k => item x i k * kern k j) (seq 0 (ncols x)))).

(** [Reshape([rows * cols])]: row-major flattening. *)
Definition Reshape_flat (x : ndarray2 R) : list R :=
  flat_map (np.row x) (seq 0 (nrows x)).

(** [Reshape((rows, cols))] of a flat vector. *)
Definition Reshape (rows cols : nat) (x : list R) : ndarray2 R :=
  mk_ndarray2 rows cols (fun i j => nth (i * cols + j) x 0).

Definition Rmaximum (l : list R) : R :=
  match l with
  | [] => 0
  | x :: t => fold_left Rmax t x
  end.

(** [keras.activations.softmax] on a tensor of rank above 2:
    [e = exp(x - max(x)); e / sum(e)] along the last axis. *)
Definition keras_softmax_nd (x : list R) : list R :=
  let m := Rmaximum x in
  let e := map (fun xi => Rtrigo_def.exp (xi - m)) x in
  let s := Rsum e in
  map (fun ei => ei / s) e.

(** [Activation('softmax')] on a record of shape [(positions, vocabulary)]. *)
Definition Activation_softmax (x : ndarray2 R) : ndarray2 R :=
  mk_ndarray2 (nrows x) (ncols x)
    (fun i j => nth j (keras_softmax_nd (np.row x i)) 0).

(** ** Hyperparameters, weights and data *)

Record Params : Type := mk_Params {
  latent_dim : nat;
  dense_nodes : nat;
  aa_embedding_dim : nat;
  v_gene_embedding_dim : nat;
  j_gene_embedding_dim : nat;
  max_cdr3_len : nat;
  n_aas : nat;
  n_v_genes : nat;
  n_j_genes : nat;
  batch_size : nat;
  epochs : nat;
  patience : nat
}.

(** One field per weighted layer of [encoder_decoder_vae], under the
    layer's name. *)
Record Weights : Type := mk_Weights {
  W_CDR3_embedding : nat -> nat -> R;
  W_Vgene_embedding : DenseW;
  W_Jgene_embedding : DenseW;
  W_encoder_dense_1 : DenseW;
  W_encoder_dense_2 : DenseW;
  W_z_mean : DenseW;
  W_z_log_var : DenseW;
  W_decoder_dense_1 : DenseW;
  W_decoder_dense_2 : DenseW;
  W_flat_CDR_out : DenseW;
  W_Vgene_prob_out : DenseW;
  W_Jgene_prob_out : DenseW
}.

(** One row of a one-hot encoded data frame. *)
Record onehot : Type := mk_onehot {
  onehot_CDR3 : ndarray2 R;
  onehot_Vgene : list R;
  onehot_Jgene : list R
}.

(** Two records whose arrays have the same shapes. *)
Definition same_record_shape (x y : onehot) : bool :=
  (nrows (onehot_CDR3 x) =? nrows (onehot_CDR3 y))%nat
  && (ncols (onehot_CDR3 x) =? ncols (onehot_CDR3 y))%nat
  && (length (onehot_Vgene x) =? length (onehot_Vgene y))%nat
  && (length (onehot_Jgene x) =? length (onehot_Jgene y))%nat.

(** [cols_of_df]: the three columns of a one-hot data frame, each stacked
    into one array.  [np.stack] raises on an empty column and on arrays of
    different shapes. *)
Definition cols_of_df (df : list onehot)
  : result (list (ndarray2 R) * list (list R) * list (list R)) :=
  match df with
  | [] => Raise ValueError
  | x :: _ =>
      if forallb (same_record_shape x) df
      then Ok (map onehot_CDR3 df, map onehot_Vgene df, map onehot_Jgene df)
      else Raise ValueError
  end.

(** The records that three stacked columns hold. *)
Definition records_of_cols (aa : list (ndarray2 R)) (v j : list (list R))
  : list onehot :=
  map (fun t => mk_onehot (fst (fst t)) (snd (fst t)) (snd t))
      (combine (combine aa v) j).

(** An arithmetic operation on two rank-2 tensors whose last axes agree,
    broadcast along the first axis as TensorFlow and numpy do. *)
Definition broadcast2 (f : R -> R -> R) (t u : list (list R))
  : result (list (list R)) :=
  if (length t =? length u)%nat then Ok (map2 (map2 f) t u)
  else if (length t =? 1)%nat then Ok (map (fun r => map2 f (hd [] t) r) u)
  else if (length u =? 1)%nat then Ok (map (fun r => map2 f r (hd [] u)) t)
  else Raise ValueError.

(** ** [encoder_decoder_vae] *)

Section Graph.

Variable params : Params.
Variable weights : Weights.

(** [sampling]: [epsilon] has the fixed shape [(batch_size, latent_dim)]. *)
Definition sampling (z_mean z_log_var : list (list R)) (g : rng)
  : result (list (list R) * rng) :=
  let '(epsilon, g') :=
    K.random_normal (batch_size params) (latent_dim params) 0 1 g in
  scaled <- broadcast2 Rmult (K.exp (map (map (fun x => x / 2)) z_log_var))
                       epsilon ;;
  z <- broadcast2 Rplus z_mean scaled ;;
  Ok (z, g').

(** [io_decoder.shape.num_elements()]: the product of the dimensions of
    the tensor.  A loss function receives the tensors of the whole batch
    (the cross-entropy of [io_encoder] and [io_decoder] has one entry per
    record, which is why the source averages it with [K.mean]), so the
    shape is [(batch, rows, cols)] and the batch axis is counted; the
    graph knows the batch dimension because the noise of [sampling] has the
    fixed shape [(batch_size, latent_dim)]. *)
Definition num_elements (t : list (ndarray2 R)) : nat :=
  match t with
  | [] => 0
  | x :: _ => length t * (nrows x * ncols x)
  end.

(** [objectives.categorical_crossentropy(io_encoder, io_decoder)] on rank-3
    tensors: one value per record and position, listed record by record. *)
Definition categorical_crossentropy (io_encoder io_decoder : list (ndarray2 R))
  : list R :=
  flat_map
    (fun p =>
       map (fun l => K.categorical_crossentropy (np.row (fst p) l)
                                                (np.row (snd p) l))
           (seq 0 (nrows (snd p))))
    (combine io_encoder io_decoder).

(** [xent_loss]:
    [io_decoder.shape.num_elements() * K.mean(categorical_crossentropy(...))] *)
Definition xent_loss (io_encoder io_decoder : list (ndarray2 R)) : R :=
  INR (num_elements io_decoder)
  * K.mean (categorical_crossentropy io_encoder io_decoder).

(** [kl_loss], after the in-place scaling [kl_loss *= 1 / 3 * batch_size]. *)
Definition kl_loss (z_mean z_log_var : list (list R)) : list R :=
  let kl :=
    map (fun s => -0.5 * s)
        (K.sum_last
           (K.sub (K.sub (K.add_scalar 1 z_log_var) (K.square z_mean))
                  (K.exp z_log_var))) in
  map (fun k => k * (1 / 3 * INR (batch_size params))) kl.

(** [vae_loss] for the CDR3 output; [z_mean] and [z_log_var] are the
    encoder's tensors, which the Python closure captures. *)
Definition vae_loss (z_mean z_log_var : list (list R))
  (io_encoder io_decoder : list (ndarray2 R)) : list R :=
  map (Rplus (xent_loss io_encoder io_decoder)) (kl_loss z_mean z_log_var).

(** *** The encoder *)

Definition encoder_row (x : onehot) : list R * list R :=
  let embedding_CDR3 :=
    EmbedViaMatrix (aa_embedding_dim params) (W_CDR3_embedding weights)
                   (onehot_CDR3 x) in
  let embedding_CDR3_flat := Reshape_flat embedding_CDR3 in
  let embedding_Vgene :=
    Dense (v_gene_embedding_dim params) linear (W_Vgene_embedding weights)
          (onehot_Vgene x) in
  let embedding_Jgene :=
    Dense (j_gene_embedding_dim params) linear (W_Jgene_embedding weights)
          (onehot_Jgene x) in
  let merged_input :=
    embedding_CDR3_flat ++ embedding_Vgene ++ embedding_Jgene in
  let dense_encoder1 :=
    Dense (dense_nodes params) elu (W_encoder_dense_1 weights) merged_input in
  let dense_encoder2 :=
    Dense (dense_nodes params) elu (W_encoder_dense_2 weights)
          dense_encoder1 in
  (Dense (latent_dim params) linear (W_z_mean weights) dense_encoder2,
   Dense (latent_dim params) linear (W_z_log_var weights) dense_encoder2).

(** The shape the three [Input] layers declare for one record. *)
Definition input_shape_ok (x : onehot) : bool :=
  (nrows (onehot_CDR3 x) =? max_cdr3_len params)%nat
  && (ncols (onehot_CDR3 x) =? n_aas params)%nat
  && (length (onehot_Vgene x) =? n_v_genes params)%nat
  && (length (onehot_Jgene x) =? n_j_genes params)%nat.

(** [encoder.predict]: Keras refuses input of another shape. *)
Definition encoder (x : list onehot)
  : result (list (list R) * list (list R)) :=
  if forallb input_shape_ok x
  then Ok (map (fun r => fst (encoder_row r)) x,
           map (fun r => snd (encoder_row r)) x)
  else Raise ValueError.

(** *** The decoding layers *)

Definition dense_decoder1 : list R -> list R :=
  Dense (dense_nodes params) elu (W_decoder_dense_1 weights).

Definition dense_decoder2 : list R -> list R :=
  Dense (dense_nodes params) elu (W_decoder_dense_2 weights).

Definition decoder_out_CDR3 : list R -> list R :=
  Dense (max_cdr3_len params * n_aas params) linear (W_flat_CDR_out weights).

Definition reshape_CDR3 : list R -> ndarray2 R :=
  Reshape (max_cdr3_len params) (n_aas params).

Definition position_wise_softmax_CDR3 : ndarray2 R -> ndarray2 R :=
  Activation_softmax.

Definition decoder_out_Vgene : list R -> list R :=
  Dense (n_v_genes params) softmax (W_Vgene_prob_out weights).

Definition decoder_out_Jgene : list R -> list R :=
  Dense (n_j_genes params) softmax (W_Jgene_prob_out weights).

(** The three heads on one latent vector, as both graphs apply them. *)
Definition decoder_generator_CDR3 (z : list R) : ndarray2 R :=
  position_wise_softmax_CDR3
    (reshape_CDR3 (decoder_out_CDR3 (dense_decoder2 (dense_decoder1 z)))).

Definition decoder_generator_Vgene (z : list R) : list R :=
  decoder_out_Vgene (dense_decoder2 (dense_decoder1 z)).

Definition decoder_generator_Jgene (z : list R) : list R :=
  decoder_out_Jgene (dense_decoder2 (dense_decoder1 z)).

(** How [Model.predict] standardises an input array: a vector gets a
    second axis of length one, and the rank must then be that of the input
    layer. *)
Definition standardize_input_data (x : ndarray) : result (list (list R)) :=
  match x with
  | Array0 _ => Raise ValueError
  | Array1 v => Ok (map (fun a => [a]) v)
  | Array2 m => Ok m
  end.

(** [decoder.predict] on an array of latent vectors: Keras refuses rows of
    another length than [latent_dim], and a batch without rows gives no
    outputs to return. *)
Definition decoder (z : ndarray)
  : result (list (ndarray2 R) * list (list R) * list (list R)) :=
  z <- standardize_input_data z ;;
  if forallb (fun r => (length r =? latent_dim params)%nat) z
  then
    match z with
    | [] => Raise ValueError
    | _ => Ok (map decoder_generator_CDR3 z,
               map decoder_generator_Vgene z,
               map decoder_generator_Jgene z)
    end
  else Raise ValueError.

(** *** The training graph *)

(** One forward pass of [vae].  The layer [z] is called once for each of
    the three outputs, [z([z_mean, z_log_var])]; every call runs [sampling]
    and so takes noise of its own.  The graph exists only for
    [batch_size >= 2]: TensorFlow infers the batch axis of the outputs from
    the noise of [sampling], and leaves it unknown when the noise has fewer
    than two rows; [io_decoder.shape.num_elements()] is then [None], the
    product in [vae_loss] is a [TypeError] and [vae.compile] fails. *)
Definition vae (x : list onehot) (g : rng)
  : result (list (ndarray2 R) * list (list R) * list (list R) * rng) :=
  if (batch_size params <? 2)%nat then Raise TypeError else
  '(z_mean, z_log_var) <- encoder x ;;
  '(z_CDR3, g1) <- sampling z_mean z_log_var g ;;
  '(z_Vgene, g2) <- sampling z_mean z_log_var g1 ;;
  '(z_Jgene, g3) <- sampling z_mean z_log_var g2 ;;
  Ok (map decoder_generator_CDR3 z_CDR3,
      map decoder_generator_Vgene z_Vgene,
      map decoder_generator_Jgene z_Jgene,
      g3).

End Graph.


(** ** Python and numpy helpers of the facade *)

(** [l[:k]] *)
Definition py_slice_to {A : Type} (l : list A) (k : Z) : list A :=
  if (k <? 0)%Z then firstn (Z.to_nat (Z.of_nat (length l) + k)) l
  else firstn (Z.to_nat k) l.

(** [l[i] = v] for [i] in range. *)
Fixpoint update {A : Type} (l : list A) (i : nat) (v : A) : list A :=
  match l, i with
  | [], _ => []
  | _ :: t, O => v :: t
  | x :: t, S i' => x :: update t i' v
  end.

(** [math.ceil(n / b)] for a positive [b], on the exact quotient. *)
Definition ceil_div (n b : Z) : Z := (- ((- n) / b))%Z.

(** [np.random.normal(loc, scale, size=(rows, cols))] *)
Definition np_random_normal (loc scale : R) (rows cols : nat) (g : rng)
  : list (list R) * rng :=
  let '(e, g') := standard_normal rows cols g in
  (map (map (fun x => loc + scale * x)) e, g').

Definition fin_array (a : ndarray2 R) : ndarray2 num :=
  mk_ndarray2 (nrows a) (ncols a) (fun i j => Fin (item a i j)).

(** [a * b] on one-dimensional arrays of one length. *)
Definition np_multiply1 (a b : list num) : list num := map2 Num.mul a b.

(** [np.exp] on the [float32] array that [encoder.predict] returns: a
    result at or below [2^-150], half the least positive [float32], is
    rounded to zero. *)
Definition np_exp_float32 (x : R) : R :=
  if Rle_dec (Rtrigo_def.exp x) (/ 2 ^ 150) then 0 else Rtrigo_def.exp x.

(** [np.amax] of a non-empty one-dimensional array. *)
Definition np_amax (a : list num) : num :=
  match a with
  | [] => NaN
  | x :: t => fold_left Num.max t x
  end.

(** ** scipy *)

Module stats_norm.

(** [stats.norm.logpdf(x, loc, scale)]:
    [-y**2 / 2 - log(sqrt(2 pi)) - log(scale)] at [y = (x - loc) / scale],
    and [nan] unless [scale > 0]. *)
Definition logpdf (x loc scale : R) : num :=
  if Rlt_dec 0 scale
  then Fin (- ((x - loc) / scale) ^ 2 / 2 - ln (sqrt (2 * PI)) - ln scale)
  else NaN.

(** [squeeze_left] of [rv_generic._argcheck_rvs]: the leading axes of
    length one are dropped, [a = a[0]] while [a.shape[0] == 1]. *)
Definition squeeze_left (a : list (list R)) : ndarray :=
  match a with
  | [r] => match r with
           | [x] => Array0 x
           | _ => Array1 r
           end
  | _ => Array2 a
  end.

(** [stats.norm.rvs(loc, scale)] on two matrices of one shape.  A negative
    scale is a domain error.  scipy squeezes [loc] and [scale] on the left
    and returns an array of the squeezed shape: [loc] itself when every
    scale is zero, and otherwise standard normal variates, one for every
    entry, times [scale], plus [loc]. *)
Definition rvs (loc scale : list (list R)) (g : rng)
  : result (ndarray * rng) :=
  if forallb (forallb (fun s => if Rle_dec 0 s then true else false)) scale
  then
    if forallb (forallb (fun s => if Req_dec_T s 0 then true else false))
               scale
    then Ok (squeeze_left loc, g)
    else
      let '(vals, g') :=
        standard_normal (length loc) (length (hd [] loc)) g in
      Ok (squeeze_left (map2 (map2 Rplus) (map2 (map2 Rmult) vals scale) loc),
          g')
  else Raise ValueError.

End stats_norm.

(** [special.logsumexp] along one axis, for one vector of that axis: the
    maximum is taken out when it is finite. *)
Definition logsumexp (a : list num) : num :=
  let a_max := np_amax a in
  let a_max := if Num.isfinite a_max then a_max else Fin 0 in
  let tmp := map (fun x => Num.exp (x - a_max)%num) a in
  let s := np.sum tmp in
  (Num.log s + a_max)%num.

(** [special.logsumexp(m, axis=0)] for [m] of shape [(len m, n)]; the
    reduction of an empty axis has no maximum and raises. *)
Definition logsumexp_axis0 (m : list (list num)) (n : nat)
  : result (list num) :=
  match m with
  | [] => Raise ValueError
  | _ => Ok (map (fun j => logsumexp (map (fun r => nth j r NaN) m)) (seq 0 n))
  end.


(** ** [class TCRVAE] *)

(** One row of a data frame of sequences. *)
Record tcrb : Type := mk_tcrb {
  amino_acid : string;
  v_gene : string;
  j_gene : string
}.

Section TCRVAE.

(** [self.params] and the weights of [self.encoder], [self.decoder] and
    [self.vae], which share their layers. *)
Variable params : Params.
Variable weights : Weights.

(** [conversion.unpadded_tcrbs_to_onehot] of
    [vampire/xcr_vector_conversion.py]. *)
Variable unpadded_tcrbs_to_onehot : list tcrb -> nat -> result (list onehot).

(** The decoders of one CDR3 matrix and of one gene vector used by
    [conversion.onehot_to_tcrbs]. *)
Variable onehot_to_padded_seq : ndarray2 R -> string.
Variable onehot_to_vgene : list R -> string.
Variable onehot_to_jgene : list R -> string.

(** Modelled from the spec: [conversion.onehot_to_tcrbs], which lives in
    [vampire/xcr_vector_conversion.py]; it turns the three arrays, row by
    row, into the records of a data frame. *)
Definition onehot_to_tcrbs (amino_acid_arr : list (ndarray2 R))
  (v_gene_arr j_gene_arr : list (list R)) : list tcrb :=
  map (fun r => mk_tcrb (onehot_to_padded_seq (fst (fst r)))
                        (onehot_to_vgene (snd (fst r)))
                        (onehot_to_jgene (snd r)))
      (combine (combine amino_acid_arr v_gene_arr) j_gene_arr).

(** [get_data]; [df] is the frame [pd.read_csv] returns. *)
Definition get_data (df : list tcrb) (data_chunk_size : Z)
  : result (list onehot) :=
  if (data_chunk_size =? 0)%Z
  then unpadded_tcrbs_to_onehot df (max_cdr3_len params)
  else
    if (Z.of_nat (length df) >=? data_chunk_size)%Z
    then
      let n_to_take :=
        (Z.of_nat (length df) - Z.of_nat (length df) mod data_chunk_size)%Z in
      unpadded_tcrbs_to_onehot (py_slice_to df n_to_take)
                               (max_cdr3_len params)
    else Raise AssertionError.

Definition encode (x_df : list onehot)
  : result (list (list R) * list (list R)) :=
  '(aa, v, j) <- cols_of_df x_df ;;
  '(z_mean, z_log_var) <- encoder params weights (records_of_cols aa v j) ;;
  let z_sd := map (map (fun lv => sqrt (np_exp_float32 lv))) z_log_var in
  Ok (z_mean, z_sd).

Definition decode (z : ndarray)
  : result (list (ndarray2 R) * list (list R) * list (list R)) :=
  decoder params weights z.

Definition generate (n_seqs : Z) (g : rng) : result (list tcrb * rng) :=
  let batch_size := Z.of_nat (batch_size params) in
  if (batch_size =? 0)%Z then Raise ZeroDivisionError
  else
    let n_actual := (batch_size * ceil_div n_seqs batch_size)%Z in
    if (n_actual <? 0)%Z then Raise ValueError
    else
      let '(z_sample, g') :=
        np_random_normal 0 1 (Z.to_nat n_actual) (latent_dim params) g in
      '(amino_acid_arr, v_gene_arr, j_gene_arr) <- decode (Array2 z_sample) ;;
      Ok (onehot_to_tcrbs (py_slice_to amino_acid_arr n_seqs)
                          (py_slice_to v_gene_arr n_seqs)
                          (py_slice_to j_gene_arr n_seqs),
          g').

Definition empty_array : ndarray2 R := mk_ndarray2 0 0 (fun _ _ => 0).

(** The body of the loop of [log_p_of_x_importance_sample] at index [i]:
    the value stored in [out_ps[i]]. *)
Definition importance_sample_at
  (z_mean z_sd z_sample : list (list R))
  (aa_probs : list (ndarray2 R)) (v_gene_probs j_gene_probs : list (list R))
  (aa_obs : list (ndarray2 R)) (v_gene_obs j_gene_obs : list (list R))
  (i : nat) : num :=
  let log_p_x_given_z :=
    (logprob_of_obs_vect (fin_array (nth i aa_probs empty_array))
                         (fin_array (nth i aa_obs empty_array))
     + Num.log (np.sum (np_multiply1 (map Fin (nth i v_gene_probs []))
                                     (map Fin (nth i v_gene_obs []))))
     + Num.log (np.sum (np_multiply1 (map Fin (nth i j_gene_probs []))
                                     (map Fin (nth i j_gene_obs [])))))%num in
  let log_p_z :=
    np.sum (map (fun z => stats_norm.logpdf z 0 1) (nth i z_sample [])) in
  let log_q_z_given_x :=
    np.sum (map (fun t => stats_norm.logpdf (fst (fst t)) (snd (fst t)) (snd t))
                (combine (combine (nth i z_sample []) (nth i z_mean []))
                         (nth i z_sd []))) in
  let log_imp_weight := (log_p_z - log_q_z_given_x)%num in
  (log_p_x_given_z + log_imp_weight)%num.

(** [log_p_of_x_importance_sample]; the array [out_ps] is returned as the
    loop leaves it.  The loop is reached with a matrix [z_sample] only:
    what [stats.norm.rvs] returns for a batch of one record has lost the
    batch axis, and [decode] refuses it. *)
Definition log_p_of_x_importance_sample (x_df : list onehot)
  (out_ps : list num) (g : rng) : result (list num * rng) :=
  if (length x_df =? length out_ps)%nat
  then
    '(z_mean, z_sd) <- encode x_df ;;
    '(z_sample, g') <- stats_norm.rvs z_mean z_sd g ;;
    '(aa_probs, v_gene_probs, j_gene_probs) <- decode z_sample ;;
    '(aa_obs, v_gene_obs, j_gene_obs) <- cols_of_df x_df ;;
    Ok (fold_left
          (fun out i =>
             update out i
               (importance_sample_at z_mean z_sd (ndarray_rows z_sample)
                  aa_probs v_gene_probs j_gene_probs
                  aa_obs v_gene_obs j_gene_obs i))
          (seq 0 (length x_df)) out_ps,
        g')
  else Raise AssertionError.

(** ** The [importance] command *)

(** The loop over [range(nsamples)]: sample [i] is written into row [i] of
    [log_p_x]. *)
Definition importance_samples (df_x : list onehot) (nsamples : nat)
  (g : rng) : result (list (list num) * rng) :=
  fold_left
    (fun acc i =>
       '(log_p_x, g1) <- acc ;;
       '(out, g2) <- log_p_of_x_importance_sample df_x (nth i log_p_x []) g1 ;;
       Ok (update log_p_x i out, g2))
    (seq 0 nsamples)
    (Ok (repeat (repeat (Fin 0) (length df_x)) nsamples, g)).

(** [special.logsumexp(log_p_x, axis=0) - np.log(nsamples)] *)
Definition log_mean_exp (log_p_x : list (list num)) (n nsamples : nat)
  : result (list num) :=
  lse <- logsumexp_axis0 log_p_x n ;;
  Ok (map (fun a => (a - Num.log (Fin (INR nsamples)))%num) lse).

(** [importance], from the data frame read from [test_csv] to the column
    [log_p_x] written to [out_csv]. *)
Definition importance (limit_input_to : option Z) (nsamples : nat)
  (test_csv : list tcrb) (g : rng) : result (list num * rng) :=
  df_x <- get_data test_csv 0 ;;
  let df_x := match limit_input_to with
              | Some k => py_slice_to df_x k
              | None => df_x
              end in
  '(log_p_x, g') <- importance_samples df_x nsamples g ;;
  avg <- log_mean_exp log_p_x (length df_x) nsamples ;;
  Ok (avg, g').

End TCRVAE.

(** * Specifications and worked inputs *)

(** A probability vector: positive entries that sum to one. *)
Definition is_distribution (v : list R) : Prop :=
  Forall (fun p => 0 < p) v /\ Rsum v = 1.

(** What one record of a decoded batch must be: a CDR3 matrix of shape
    [(max_cdr3_len, n_aas)] whose rows are probability vectors, and two
    probability vectors of lengths [n_v_genes] and [n_j_genes]. *)
Definition decoded_record_ok (params : Params) (cdr3 : ndarray2 R)
  (v j : list R) : Prop :=
  nrows cdr3 = max_cdr3_len params /\ ncols cdr3 = n_aas params
  /\ (forall l, (l < max_cdr3_len params)%nat ->
        is_distribution (np.row cdr3 l))
  /\ length v = n_v_genes params /\ is_distribution v
  /\ length j = n_j_genes params /\ is_distribution j.

(** A valid probability distribution: no entry is negative and the
    entries sum to one. *)
Definition is_probability_vector (v : list R) : Prop :=
  Forall (fun p => 0 <= p) v /\ Rsum v = 1.

(** One record of a decoded batch, read as the claim on [decode] words it:
    a CDR3 matrix of shape [(max_cdr3_len, n_aas)] whose values sum to one
    at every position, a V-gene vector of length [n_v_genes] and a J-gene
    vector of length [n_j_genes], each a valid probability distribution. *)
Definition decoded_record_valid (params : Params) (cdr3 : ndarray2 R)
  (v j : list R) : Prop :=
  nrows cdr3 = max_cdr3_len params /\ ncols cdr3 = n_aas params
  /\ (forall l, (l < max_cdr3_len params)%nat ->
        is_probability_vector (np.row cdr3 l))
  /\ length v = n_v_genes params /\ is_probability_vector v
  /\ length j = n_j_genes params /\ is_probability_vector j.

(** The tensor [t] has shape [(rows, cols)]. *)
Definition has_shape (rows cols : nat) (t : list (list R)) : bool :=
  (length t =? rows)%nat && forallb (fun r => (length r =? cols)%nat) t.

(** The KL term as the specification words it, for one record: the closed
    form [-0.5 * sum_j (1 + z_log_var_j - z_mean_j^2 - exp(z_log_var_j))]
    over the latent dimensions, scaled by [(1/3) * batch_size]. *)
Definition spec_kl_term (params : Params) (z_mean z_log_var : list R) : R :=
  (1 / 3 * INR (batch_size params))
  * (-0.5
     * Rsum (map (fun j => 1 + nth j z_log_var 0 - (nth j z_mean 0) ^ 2
                           - Rtrigo_def.exp (nth j z_log_var 0))
                 (seq 0 (latent_dim params)))).

(** Every record of the batch tensor [t] has shape [(rows, cols)]. *)
Definition has_shape3 (rows cols : nat) (t : list (ndarray2 R)) : bool :=
  forallb (fun x => (nrows x =? rows)%nat && (ncols x =? cols)%nat) t.

(** The reconstruction term as the specification words it:
    [(max_cdr3_len * n_aas)] times the mean of the categorical cross-entropy
    of the batch (the mean runs over records and positions, as [K.mean]
    takes it). *)
Definition spec_reconstruction_term (params : Params)
  (io_encoder io_decoder : list (ndarray2 R)) : R :=
  INR (max_cdr3_len params * n_aas params)
  * K.mean (categorical_crossentropy io_encoder io_decoder).

(** A batch of two records with one position and two amino acids: the
    target is the first amino acid, the decoded distribution is uniform. *)
Definition params_xent : Params :=
  mk_Params 1 1 1 1 1 1 2 1 1 2 1 1.

Definition target_xent : ndarray2 R :=
  mk_ndarray2 1 2 (fun _ j => if (j =? 0)%nat then 1 else 0).

Definition uniform_xent : ndarray2 R := mk_ndarray2 1 2 (fun _ _ => 1 / 2).

(** A frame of five sequences and a conversion that keeps one row per
    sequence. *)
Definition tcrb_example : tcrb := mk_tcrb "CASSF" "TCRBV01" "TCRBJ01".

Definition df_five : list tcrb := repeat tcrb_example 5.

Definition onehot_example : onehot :=
  mk_onehot (mk_ndarray2 1 1 (fun _ _ => 1)) [1] [1].

Definition convert_rowwise (df : list tcrb) (max_len : nat)
  : result (list onehot) :=
  Ok (map (fun _ => onehot_example) df).

(** The density of [Normal(mu, sd)] at [x]. *)
Definition Normal_pdf (x mu sd : R) : R :=
  / (sd * sqrt (2 * PI)) * Rtrigo_def.exp (- (x - mu) ^ 2 / (2 * sd ^ 2)).

(** [v] is the one-hot code of category [k]. *)
Definition onehot_at (k : nat) (v : list R) : Prop :=
  (k < length v)%nat
  /\ forall a, (a < length v)%nat -> nth a v 0 = if (a =? k)%nat then 1 else 0.

(** The record [x] encodes the amino acids [aa l] at the positions [l] of
    its CDR3, the V gene [vg] and the J gene [jg]. *)
Definition encodes (x : onehot) (aa : nat -> nat) (vg jg : nat) : Prop :=
  (forall l, (l < nrows (onehot_CDR3 x))%nat ->
     onehot_at (aa l) (np.row (onehot_CDR3 x) l))
  /\ onehot_at vg (onehot_Vgene x)
  /\ onehot_at jg (onehot_Jgene x).

(** The terms of the estimate as the specification words them. *)
Definition spec_log_p_x_given_z (aa_probs : ndarray2 R)
  (v_gene_probs j_gene_probs : list R) (aa : nat -> nat) (vg jg : nat) : R :=
  Rsum (map (fun l => ln (item aa_probs l (aa l))) (seq 0 (nrows aa_probs)))
  + ln (nth vg v_gene_probs 0)
  + ln (nth jg j_gene_probs 0).

Definition spec_log_p_z (z : list R) : R :=
  Rsum (map (fun k => ln (Normal_pdf (nth k z 0) 0 1)) (seq 0 (length z))).

Definition spec_log_q_z_given_x (z z_mean z_sd : list R) : R :=
  Rsum (map (fun k => ln (Normal_pdf (nth k z 0) (nth k z_mean 0)
                                     (nth k z_sd 0)))
            (seq 0 (length z))).

Definition spec_estimate (aa_probs : ndarray2 R)
  (v_gene_probs j_gene_probs : list R) (aa : nat -> nat) (vg jg : nat)
  (z z_mean z_sd : list R) : R :=
  spec_log_p_x_given_z aa_probs v_gene_probs j_gene_probs aa vg jg
  + spec_log_p_z z
  - spec_log_q_z_given_x z z_mean z_sd.

(** Every entry of the record is non-negative. *)
Definition nonneg_record (x : onehot) : Prop :=
  (forall l a, (l < nrows (onehot_CDR3 x))%nat ->
     (a < ncols (onehot_CDR3 x))%nat -> 0 <= item (onehot_CDR3 x) l a)
  /\ Forall (fun v => 0 <= v) (onehot_Vgene x)
  /\ Forall (fun v => 0 <= v) (onehot_Jgene x).

(** One of the vectors of the record (a position of its CDR3, its V gene
    or its J gene) is all zeros. *)
Definition has_zero_vector (x : onehot) : Prop :=
  (exists l, (l < nrows (onehot_CDR3 x))%nat
     /\ forall a, (a < ncols (onehot_CDR3 x))%nat ->
          item (onehot_CDR3 x) l a = 0)
  \/ Forall (fun v => v = 0) (onehot_Vgene x)
  \/ Forall (fun v => v = 0) (onehot_Jgene x).

(** A value that is a real number or [-inf]. *)
Definition below_inf (a : num) : Prop := a = NInf \/ exists r, a = Fin r.

(** The values of the local variables of [log_p_of_x_importance_sample]
    on the batch [x_df]: the encoder's [z_mean] and [z_sd], the standard
    normal variates [stats.norm.rvs] draws, its result [z_sample] and the
    generator it leaves. *)
Definition posterior_mean (params : Params) (weights : Weights)
  (x_df : list onehot) : list (list R) :=
  map (fun r => fst (encoder_row params weights r)) x_df.

Definition posterior_sd (params : Params) (weights : Weights)
  (x_df : list onehot) : list (list R) :=
  map (fun r => map (fun lv => sqrt (np_exp_float32 lv))
                    (snd (encoder_row params weights r))) x_df.

(** No standard deviation of the posterior has underflowed to zero. *)
Definition positive_sd (params : Params) (weights : Weights)
  (x_df : list onehot) : Prop :=
  Forall (Forall (fun s => 0 < s)) (posterior_sd params weights x_df).

Definition posterior_noise (params : Params) (x_df : list onehot) (g : rng)
  : list (list R) :=
  fst (standard_normal (length x_df) (latent_dim params) g).

Definition posterior_sample (params : Params) (weights : Weights)
  (x_df : list onehot) (g : rng) : list (list R) :=
  map2 (map2 Rplus)
       (map2 (map2 Rmult) (posterior_noise params x_df g)
             (posterior_sd params weights x_df))
       (posterior_mean params weights x_df).

Definition rng_after_sample (params : Params) (x_df : list onehot) (g : rng)
  : rng :=
  snd (standard_normal (length x_df) (latent_dim params) g).

(** [z_mean + exp(z_log_var / 2) * epsilon] on tensors of one shape. *)
Definition reparameterize (z_mean z_log_var epsilon : list (list R))
  : list (list R) :=
  map2 (map2 Rplus) z_mean
       (map2 (map2 Rmult) (K.exp (map (map (fun x => x / 2)) z_log_var))
             epsilon).

(** The encoder's [z_log_var] on the batch [x]. *)
Definition posterior_log_var (params : Params) (weights : Weights)
  (x : list onehot) : list (list R) :=
  map (fun r => snd (encoder_row params weights r)) x.

(** The generator after [k] values have been drawn. *)
Definition advance (g : rng) (k : nat) : rng := mk_rng (tape g) (pos g + k).

(** The noise one call of [sampling] draws from [g]. *)
Definition noise_at (params : Params) (g : rng) : list (list R) :=
  fst (K.random_normal (batch_size params) (latent_dim params) 0 1 g).

(** A network with one latent dimension, two V genes and batches of two
    records.  The encoder's weights are zero, so the posterior is
    [Normal(0, 1)] and a latent sample is the noise itself; the V-gene head
    has the logits [(z + 1, 0)]. *)
Definition params_graph : Params := mk_Params 1 1 1 1 1 1 1 2 1 2 1 1.

Definition zeroW : DenseW := mk_DenseW (fun _ _ => 0) (fun _ => 0).

Definition weights_graph : Weights :=
  mk_Weights (fun _ _ => 0) zeroW zeroW zeroW zeroW zeroW zeroW
    (mk_DenseW (fun _ _ => 1) (fun _ => 1))
    (mk_DenseW (fun _ _ => 1) (fun _ => 0))
    zeroW
    (mk_DenseW (fun _ j => if (j =? 0)%nat then 1 else 0) (fun _ => 0))
    zeroW.

Definition record_graph : onehot :=
  mk_onehot (mk_ndarray2 1 1 (fun _ _ => 1)) [1; 0] [1].

Definition x_graph : list onehot := [record_graph; record_graph].

(** The tape [0, 1, 2, ...]. *)
Definition g_graph : rng := mk_rng INR 0.

(** A record whose V-gene vector is all zeros. *)
Definition x_zero_Vgene : list onehot :=
  [mk_onehot (mk_ndarray2 1 1 (fun _ _ => 1)) [0; 0] [1]].

(** A decoder of names that knows no name. *)
Definition no_name (A : Type) (_ : A) : string := EmptyString.

(** The frame [importance] works on: [df_x], cut by [--limit-input-to]
    when the option is given. *)
Definition limited (limit_input_to : option Z) (df_x : list onehot)
  : list onehot :=
  match limit_input_to with
  | Some k => py_slice_to df_x k
  | None => df_x
  end.

(** A conversion that yields the batch [x_graph]. *)
Definition convert_graph (df : list tcrb) (max_len : nat)
  : result (list onehot) :=
  Ok x_graph.

(** A conversion that yields the record of [x_zero_Vgene] twice. *)
Definition convert_zero_Vgene (df : list tcrb) (max_len : nat)
  : result (list onehot) :=
  Ok (x_zero_Vgene ++ x_zero_Vgene).

(** The network of [weights_graph] with a [z_log_var] layer of bias
    [-200]: the variance [exp(-200)] is below the least [float32]. *)
Definition weights_underflow : Weights :=
  mk_Weights (fun _ _ => 0) zeroW zeroW zeroW zeroW zeroW
    (mk_DenseW (fun _ _ => 0) (fun _ => -200))
    (mk_DenseW (fun _ _ => 1) (fun _ => 1))
    (mk_DenseW (fun _ _ => 1) (fun _ => 0))
    zeroW
    (mk_DenseW (fun _ j => if (j =? 0)%nat then 1 else 0) (fun _ => 0))
    zeroW.

(** [EmbedViaMatrix.compute_output_shape] *)
Definition EmbedViaMatrix_compute_output_shape (embedding_dim : nat)
  (input_shape : nat * nat * nat) : nat * nat * nat :=
  (fst (fst input_shape), snd (fst input_shape), embedding_dim).

(** A [Dense] layer whose kernel and bias are zero. *)
Definition zero_weights (w : DenseW) : Prop :=
  (forall i j, kernel w i j = 0) /\ (forall j, bias w j = 0).

(** The array one call of [log_p_of_x_importance_sample] on [x_df] leaves
    in [out_ps] when the generator is [g]. *)
Definition importance_sample_row (params : Params) (weights : Weights)
  (x_df : list onehot) (g : rng) : list num :=
  let z_sample := posterior_sample params weights x_df g in
  map (importance_sample_at
         (posterior_mean params weights x_df)
         (posterior_sd params weights x_df) z_sample
         (map (decoder_generator_CDR3 params weights) z_sample)
         (map (decoder_generator_Vgene params weights) z_sample)
         (map (decoder_generator_Jgene params weights) z_sample)
         (map onehot_CDR3 x_df) (map onehot_Vgene x_df)
         (map onehot_Jgene x_df))
      (seq 0 (length x_df)).

(** [k] such arrays, each from the generator the one before left. *)
Fixpoint importance_sample_rows (params : Params) (weights : Weights)
  (x_df : list onehot) (k : nat) (g : rng) : list (list num) :=
  match k with
  | O => []
  | S k' =>
      importance_sample_row params weights x_df g
      :: importance_sample_rows params weights x_df k'
           (advance g (length x_df * latent_dim params))
  end.

(** * Properties *)

(** C10: on two matrices of one shape, the row-wise form of
    [logprob_of_obs_vect] is equal to the matmul-diagonal form it replaced. *)
Theorem logprob_of_obs_vect_matmul_equiv (probs obs : ndarray2 num) :
  same_shape probs obs ->
  logprob_of_obs_vect probs obs = logprob_of_obs_vect_matmul probs obs.
Proof.
  intros [Hr Hc].
  unfold logprob_of_obs_vect, logprob_of_obs_vect_matmul.
  unfold np.sum_axis1, np.diagonal, np.matmul, np.transpose, np.multiply,
    np.row.
  cbn [nrows ncols item].
  rewrite <- Hr, Nat.min_id.
  reflexivity.
Qed.

(** ** Lists and sums *)

Lemma map_nth_seq {A : Type} (d : A) (l : list A) :
  map (fun j => nth j l d) (seq 0 (length l)) = l.
Proof.
  apply nth_ext with (d := d) (d' := d).
  - now rewrite length_map, length_seq.
  - intros n Hn. rewrite length_map, length_seq in Hn.
    rewrite nth_indep with (d' := nth 0 l d)
      by now rewrite length_map, length_seq.
    rewrite map_nth with (f := fun j => nth j l d) (d := 0%nat).
    now rewrite seq_nth.
Qed.

Lemma nth_map_seq {A : Type} (f : nat -> A) (n i : nat) (d : A) :
  (i < n)%nat -> nth i (map f (seq 0 n)) d = f i.
Proof.
  intros Hi.
  rewrite nth_indep with (d' := f 0%nat) by now rewrite length_map, length_seq.
  rewrite map_nth with (f := f) (d := 0%nat).
  now rewrite seq_nth.
Qed.

Lemma nth_map_in {A B : Type} (f : A -> B) (l : list A) (i : nat) (d : A)
  (e : B) :
  (i < length l)%nat -> nth i (map f l) e = f (nth i l d).
Proof.
  intros Hi.
  rewrite nth_indep with (d' := f d) by now rewrite length_map.
  apply map_nth.
Qed.

Lemma Rsum_map_scale (c : R) (l : list R) :
  Rsum (map (fun x => x / c) l) = Rsum l / c.
Proof.
  induction l as [|x l IH]; simpl.
  - unfold Rdiv. ring.
  - rewrite IH. unfold Rdiv. ring.
Qed.

Lemma Rsum_exp_pos {A : Type} (f : A -> R) (l : list A) :
  l <> [] -> 0 < Rsum (map (fun x => Rtrigo_def.exp (f x)) l).
Proof.
  destruct l as [|x l]; [congruence|]. intros _.
  revert x. induction l as [|y l IH]; intros x; simpl.
  - pose proof (exp_pos (f x)). lra.
  - pose proof (exp_pos (f x)). specialize (IH y). simpl in IH. lra.
Qed.

(** ** The softmax layers give probability vectors *)

Lemma tf_softmax_length (x : list R) : length (tf_softmax x) = length x.
Proof. unfold tf_softmax. now rewrite length_map. Qed.

Lemma tf_softmax_sum (x : list R) : x <> [] -> Rsum (tf_softmax x) = 1.
Proof.
  intros Hx. unfold tf_softmax.
  assert (Hpos : 0 < Rsum (map Rtrigo_def.exp x))
    by exact (Rsum_exp_pos (fun t => t) x Hx).
  set (s := Rsum (map Rtrigo_def.exp x)) in *.
  rewrite <- (map_map Rtrigo_def.exp (fun e => e / s)).
  rewrite Rsum_map_scale. fold s. field. lra.
Qed.

Lemma keras_softmax_nd_length (x : list R) :
  length (keras_softmax_nd x) = length x.
Proof. unfold keras_softmax_nd. now rewrite !length_map. Qed.

Lemma keras_softmax_nd_sum (x : list R) :
  x <> [] -> Rsum (keras_softmax_nd x) = 1.
Proof.
  intros Hx. unfold keras_softmax_nd.
  pose proof (Rsum_exp_pos (fun t => t - Rmaximum x) x Hx) as Hpos.
  set (s := Rsum (map (fun xi => Rtrigo_def.exp (xi - Rmaximum x)) x)) in *.
  rewrite Rsum_map_scale. fold s. field. lra.
Qed.

Lemma Dense_length (units : nat) (a : activation) (w : DenseW) (x : list R) :
  length (Dense units a w x) = units.
Proof.
  unfold Dense.
  destruct a; simpl; rewrite ?tf_softmax_length, ?length_map, length_seq;
    reflexivity.
Qed.

Lemma Dense_softmax_sum (units : nat) (w : DenseW) (x : list R) :
  (1 <= units)%nat -> Rsum (Dense units softmax w x) = 1.
Proof.
  intros Hu. unfold Dense. simpl. apply tf_softmax_sum.
  intros H. apply (f_equal (@length R)) in H.
  rewrite length_map, length_seq in H. simpl in H. lia.
Qed.

Lemma Activation_softmax_row_sum (x : ndarray2 R) (l : nat) :
  (1 <= ncols x)%nat -> Rsum (np.row (Activation_softmax x) l) = 1.
Proof.
  intros Hc. unfold np.row, Activation_softmax. cbn [nrows ncols item].
  assert (Hlen : length (keras_softmax_nd (np.row x l)) = ncols x).
  { rewrite keras_softmax_nd_length. unfold np.row.
    now rewrite length_map, length_seq. }
  rewrite <- Hlen at 1. rewrite map_nth_seq.
  apply keras_softmax_nd_sum.
  intros H. rewrite H in Hlen. simpl in Hlen. lia.
Qed.

Lemma softmax_quotients_pos {A : Type} (f : A -> R) (l : list A) :
  Forall (fun p => 0 < p)
    (map (fun x => Rtrigo_def.exp (f x)
                   / Rsum (map (fun y => Rtrigo_def.exp (f y)) l)) l).
Proof.
  destruct l as [|a l]; [constructor|].
  assert (Hpos : 0 < Rsum (map (fun y => Rtrigo_def.exp (f y)) (a :: l)))
    by (apply Rsum_exp_pos; congruence).
  apply Forall_forall. intros p Hp. apply in_map_iff in Hp.
  destruct Hp as [x [<- _]].
  apply Rdiv_lt_0_compat; [apply exp_pos | exact Hpos].
Qed.

Lemma tf_softmax_pos (x : list R) : Forall (fun p => 0 < p) (tf_softmax x).
Proof. exact (softmax_quotients_pos (fun t => t) x). Qed.

Lemma keras_softmax_nd_pos (x : list R) :
  Forall (fun p => 0 < p) (keras_softmax_nd x).
Proof.
  unfold keras_softmax_nd. rewrite map_map.
  exact (softmax_quotients_pos (fun t => t - Rmaximum x) x).
Qed.

Lemma Forall_nth_in {A : Type} (P : A -> Prop) (l : list A) (i : nat) (d : A) :
  Forall P l -> (i < length l)%nat -> P (nth i l d).
Proof. intros H Hi. rewrite Forall_forall in H. apply H, nth_In, Hi. Qed.

Lemma Activation_softmax_pos (x : ndarray2 R) (l a : nat) :
  (a < ncols x)%nat -> 0 < item (Activation_softmax x) l a.
Proof.
  intros Ha. unfold Activation_softmax. cbn [item].
  apply Forall_nth_in; [apply keras_softmax_nd_pos|].
  rewrite keras_softmax_nd_length. unfold np.row.
  now rewrite length_map, length_seq.
Qed.

Lemma Dense_softmax_pos (units : nat) (w : DenseW) (x : list R) :
  Forall (fun p => 0 < p) (Dense units softmax w x).
Proof. unfold Dense. simpl. apply tf_softmax_pos. Qed.

(** ** [decode] *)

Lemma decoder_generator_ok (params : Params) (weights : Weights) (z : list R) :
  (1 <= n_aas params)%nat -> (1 <= n_v_genes params)%nat ->
  (1 <= n_j_genes params)%nat ->
  decoded_record_ok params
    (decoder_generator_CDR3 params weights z)
    (decoder_generator_Vgene params weights z)
    (decoder_generator_Jgene params weights z).
Proof.
  intros Ha Hv Hj. unfold decoded_record_ok.
  unfold decoder_generator_CDR3, decoder_generator_Vgene,
    decoder_generator_Jgene, position_wise_softmax_CDR3, reshape_CDR3,
    decoder_out_Vgene, decoder_out_Jgene.
  repeat split.
  - apply Forall_forall. intros p Hp. unfold np.row in Hp.
    apply in_map_iff in Hp. destruct Hp as [a [<- Hin]].
    apply in_seq in Hin. apply Activation_softmax_pos. simpl in *. lia.
  - apply Activation_softmax_row_sum. simpl. exact Ha.
  - apply Dense_length.
  - apply Dense_softmax_pos.
  - now apply Dense_softmax_sum.
  - apply Dense_length.
  - apply Dense_softmax_pos.
  - now apply Dense_softmax_sum.
Qed.

Lemma decoder_batch (params : Params) (weights : Weights)
  (z : list (list R)) :
  z <> [] ->
  forallb (fun r => (length r =? latent_dim params)%nat) z = true ->
  decoder params weights (Array2 z)
  = Ok (map (decoder_generator_CDR3 params weights) z,
        map (decoder_generator_Vgene params weights) z,
        map (decoder_generator_Jgene params weights) z).
Proof.
  intros Hne Hz. unfold decoder. cbn [standardize_input_data bind].
  rewrite Hz. destruct z; [contradiction | reflexivity].
Qed.

Lemma is_distribution_valid (v : list R) :
  is_distribution v -> is_probability_vector v.
Proof.
  intros [Hp Hs]. split; [|exact Hs].
  eapply Forall_impl; [|exact Hp]. intros a Ha. lra.
Qed.

(** C9: on a batch of latent vectors, [decode] returns for every vector a
    CDR3 matrix of shape [(max_cdr3_len, n_aas)], a V-gene vector of length
    [n_v_genes] and a J-gene vector of length [n_j_genes]; along the
    vocabulary axis the values are not negative and sum to one. *)
Theorem decode_gives_distributions (params : Params) (weights : Weights)
  (z : list (list R)) :
  (1 <= n_aas params)%nat -> (1 <= n_v_genes params)%nat ->
  (1 <= n_j_genes params)%nat ->
  z <> [] ->
  forallb (fun r => (length r =? latent_dim params)%nat) z = true ->
  exists cdr3 v j,
    decode params weights (Array2 z) = Ok (cdr3, v, j)
    /\ length cdr3 = length z /\ length v = length z /\ length j = length z
    /\ forall i, (i < length z)%nat ->
         decoded_record_valid params (nth i cdr3 empty_array)
                              (nth i v []) (nth i j []).
Proof.
  intros Ha Hv Hj Hne Hz.
  unfold decode. rewrite decoder_batch by assumption.
  eexists _, _, _. split; [reflexivity|].
  rewrite !length_map. do 3 (split; [reflexivity|]).
  intros i Hi.
  rewrite (nth_map_in _ z i [] empty_array Hi).
  rewrite (nth_map_in _ z i [] [] Hi).
  rewrite (nth_map_in _ z i [] [] Hi).
  destruct (decoder_generator_ok params weights (nth i z []) Ha Hv Hj)
    as [H1 [H2 [H3 [H4 [H5 [H6 H7]]]]]].
  unfold decoded_record_valid.
  repeat split; try assumption;
    try (apply is_distribution_valid; assumption).
  - apply (is_distribution_valid _ (H3 l H)).
  - apply (is_distribution_valid _ (H3 l H)).
Qed.

(** ** The KL term of [vae_loss] *)

Lemma nth_map2 {A B C : Type} (f : A -> B -> C) (l1 : list A) (l2 : list B)
  (i : nat) (d1 : A) (d2 : B) (d : C) :
  (i < length l1)%nat -> (i < length l2)%nat ->
  nth i (map2 f l1 l2) d = f (nth i l1 d1) (nth i l2 d2).
Proof.
  unfold map2. revert l2 i.
  induction l1 as [|a l1 IH]; intros [|b l2] i H1 H2; simpl in *; try lia.
  destruct i as [|i]; [reflexivity|].
  apply IH; lia.
Qed.

Lemma length_map2 {A B C : Type} (f : A -> B -> C) (l1 : list A)
  (l2 : list B) :
  length (map2 f l1 l2) = Nat.min (length l1) (length l2).
Proof. unfold map2. now rewrite length_map, length_combine. Qed.

Lemma has_shape_length (rows cols : nat) (t : list (list R)) :
  has_shape rows cols t = true -> length t = rows.
Proof.
  unfold has_shape. intros H. apply andb_prop in H.
  now apply Nat.eqb_eq.
Qed.

Lemma has_shape_row (rows cols : nat) (t : list (list R)) (i : nat) :
  has_shape rows cols t = true -> (i < rows)%nat -> length (nth i t []) = cols.
Proof.
  unfold has_shape. intros H Hi. apply andb_prop in H. destruct H as [Hl Hr].
  apply Nat.eqb_eq in Hl. rewrite forallb_forall in Hr.
  apply Nat.eqb_eq, Hr, nth_In. lia.
Qed.

Lemma kl_row (m lv : list R) (d : nat) :
  length m = d -> length lv = d ->
  map2 Rminus (map2 Rminus (map (Rplus 1) lv) (map (fun x => x * x) m))
       (map Rtrigo_def.exp lv)
  = map (fun j => 1 + nth j lv 0 - (nth j m 0) ^ 2
                  - Rtrigo_def.exp (nth j lv 0))
        (seq 0 d).
Proof.
  intros Hm Hlv.
  apply nth_ext with (d := 0) (d' := 0).
  - rewrite !length_map2, !length_map, length_seq. lia.
  - intros i Hi.
    rewrite !length_map2, !length_map in Hi.
    assert (Hid : (i < d)%nat) by lia.
    rewrite nth_map_seq by exact Hid.
    rewrite (nth_map2 _ _ _ i 0 0)
      by (rewrite ?length_map2, ?length_map; lia).
    rewrite (nth_map2 _ _ _ i 0 0) by (rewrite ?length_map; lia).
    rewrite (nth_map_in _ lv i 0 0) by lia.
    rewrite (nth_map_in _ m i 0 0) by lia.
    rewrite (nth_map_in _ lv i 0 0) by lia.
    ring.
Qed.

(** C3: for posterior parameters [z_mean] and [z_log_var] of one shape
    [(n, latent_dim)], the KL term of the loss is, for every record of the
    batch, [-0.5 * sum_j (1 + z_log_var_j - z_mean_j^2 - exp(z_log_var_j))]
    scaled by [(1/3) * batch_size]. *)
Theorem kl_loss_closed_form (params : Params) (z_mean z_log_var : list (list R))
  (n i : nat) :
  has_shape n (latent_dim params) z_mean = true ->
  has_shape n (latent_dim params) z_log_var = true ->
  (i < n)%nat ->
  length (kl_loss params z_mean z_log_var) = n
  /\ nth i (kl_loss params z_mean z_log_var) 0
     = spec_kl_term params (nth i z_mean []) (nth i z_log_var []).
Proof.
  intros Hm Hlv Hi.
  pose proof (has_shape_length _ _ _ Hm) as Lm.
  pose proof (has_shape_length _ _ _ Hlv) as Llv.
  pose proof (has_shape_row _ _ _ i Hm Hi) as Rm.
  pose proof (has_shape_row _ _ _ i Hlv Hi) as Rlv.
  unfold kl_loss, K.sum_last, K.sub, K.add_scalar, K.square, K.exp.
  split.
  - rewrite !length_map, !length_map2, !length_map. lia.
  - rewrite (nth_map_in _ _ i 0 0)
      by (rewrite !length_map, !length_map2, !length_map; lia).
    rewrite (nth_map_in _ _ i 0 0)
      by (rewrite !length_map, !length_map2, !length_map; lia).
    rewrite (nth_map_in _ _ i [] 0)
      by (rewrite !length_map2, !length_map; lia).
    rewrite (nth_map2 _ _ _ i [] [])
      by (rewrite ?length_map2, ?length_map; lia).
    rewrite (nth_map2 _ _ _ i [] []) by (rewrite ?length_map; lia).
    rewrite (nth_map_in _ z_log_var i [] []) by lia.
    rewrite (nth_map_in _ z_mean i [] []) by lia.
    rewrite (nth_map_in _ z_log_var i [] []) by lia.
    rewrite (kl_row _ _ (latent_dim params) Rm Rlv).
    unfold spec_kl_term. ring.
Qed.

(** ** The reconstruction term of [vae_loss] *)

Lemma num_elements_shape (rows cols : nat) (t : list (ndarray2 R)) :
  has_shape3 rows cols t = true ->
  num_elements t = (length t * (rows * cols))%nat.
Proof.
  destruct t as [|x t]; [reflexivity|].
  unfold has_shape3. cbn [forallb num_elements]. intros H.
  apply andb_prop in H. destruct H as [H _]. apply andb_prop in H.
  destruct H as [Hr Hc]. apply Nat.eqb_eq in Hr, Hc. now rewrite Hr, Hc.
Qed.

Lemma length_categorical_crossentropy (rows cols : nat)
  (io_encoder io_decoder : list (ndarray2 R)) :
  has_shape3 rows cols io_decoder = true ->
  length io_encoder = length io_decoder ->
  length (categorical_crossentropy io_encoder io_decoder)
  = (length io_decoder * rows)%nat.
Proof.
  unfold categorical_crossentropy, has_shape3.
  revert io_encoder.
  induction io_decoder as [|o dec IH]; intros [|t enc] Hs Hl;
    simpl in *; try lia.
  apply andb_prop in Hs. destruct Hs as [Ho Hs].
  apply andb_prop in Ho. destruct Ho as [Hr _]. apply Nat.eqb_eq in Hr.
  rewrite length_app, length_map, length_seq, Hr.
  rewrite (IH enc Hs) by lia. reflexivity.
Qed.

(** C4, as the code has it: on a batch whose decoded records have shape
    [(max_cdr3_len, n_aas)], the reconstruction term is the element count of
    the whole decoded tensor, [batch * max_cdr3_len * n_aas], times the mean
    over all records and positions of the categorical cross-entropy; that
    is the specification's term times the number of records of the batch. *)
Theorem xent_loss_counts_batch (params : Params)
  (io_encoder io_decoder : list (ndarray2 R)) :
  has_shape3 (max_cdr3_len params) (n_aas params) io_decoder = true ->
  length io_encoder = length io_decoder ->
  xent_loss io_encoder io_decoder
  = INR (length io_decoder * max_cdr3_len params * n_aas params)
    * K.mean (categorical_crossentropy io_encoder io_decoder)
  /\ length (categorical_crossentropy io_encoder io_decoder)
     = (length io_decoder * max_cdr3_len params)%nat
  /\ xent_loss io_encoder io_decoder
     = INR (length io_decoder)
       * spec_reconstruction_term params io_encoder io_decoder.
Proof.
  intros Hs Hl. unfold xent_loss, spec_reconstruction_term.
  rewrite (num_elements_shape _ _ _ Hs).
  split; [|split].
  - now rewrite Nat.mul_assoc.
  - now apply length_categorical_crossentropy with (cols := n_aas params).
  - rewrite mult_INR. ring.
Qed.

Lemma crossentropy_uniform_pos :
  0 < K.categorical_crossentropy [1; 0] [1 / 2; 1 / 2].
Proof.
  unfold K.categorical_crossentropy, map2. simpl.
  replace (1 / 2 / (1 / 2 + (1 / 2 + 0))) with (/ 2) by field.
  assert (Hclip : K.clip (/ 2) K.epsilon (1 - K.epsilon) = / 2).
  { unfold K.clip, K.epsilon. simpl.
    rewrite Rmax_left by lra. rewrite Rmin_left by lra. reflexivity. }
  rewrite Hclip.
  assert (Hln : ln (/ 2) < 0).
  { rewrite <- ln_1. apply ln_increasing; lra. }
  lra.
Qed.

(** C4, counterexample: on a batch of two records the reconstruction term
    of the code is twice [(max_cdr3_len * n_aas)] times the mean
    cross-entropy, not equal to it. *)
Lemma xent_loss_not_spec :
  xent_loss [target_xent; target_xent] [uniform_xent; uniform_xent]
  <> spec_reconstruction_term params_xent
       [target_xent; target_xent] [uniform_xent; uniform_xent].
Proof.
  unfold xent_loss, spec_reconstruction_term, categorical_crossentropy,
    K.mean.
  cbn [combine flat_map fst snd nrows ncols seq map app length np.row
       target_xent uniform_xent item Nat.eqb num_elements params_xent
       max_cdr3_len n_aas Nat.mul Nat.add].
  pose proof crossentropy_uniform_pos as Hc.
  set (c := K.categorical_crossentropy [1; 0] [1 / 2; 1 / 2]) in *.
  simpl. lra.
Qed.

(** ** [generate] *)

Example ceil_div_7_2 : ceil_div 7 2 = 4%Z.
Proof. reflexivity. Qed.

Example ceil_div_8_2 : ceil_div 8 2 = 4%Z.
Proof. reflexivity. Qed.

Example py_slice_to_negative : py_slice_to [1; 2; 3]%nat (-1) = [1; 2]%nat.
Proof. reflexivity. Qed.

Lemma ceil_div_spec (n b : Z) :
  (0 < b)%Z ->
  (n <= b * ceil_div n b < n + b)%Z /\ ((b * ceil_div n b) mod b = 0)%Z.
Proof.
  intros Hb. unfold ceil_div.
  pose proof (Z.div_mod (- n) b ltac:(lia)) as Hdm.
  pose proof (Z.mod_pos_bound (- n) b Hb) as Hr.
  split; [nia|].
  rewrite Z.mul_comm. apply Z.mod_mul. lia.
Qed.

Lemma standard_normal_shape (rows cols : nat) (g : rng) :
  length (fst (standard_normal rows cols g)) = rows
  /\ forallb (fun r => (length r =? cols)%nat)
             (fst (standard_normal rows cols g)) = true
  /\ pos (snd (standard_normal rows cols g)) = (pos g + rows * cols)%nat.
Proof.
  unfold standard_normal. cbn [fst snd pos].
  rewrite length_map, length_seq. split; [reflexivity|]. split; [|reflexivity].
  apply forallb_forall. intros r Hr. apply in_map_iff in Hr.
  destruct Hr as [i [<- _]]. rewrite length_map, length_seq.
  apply Nat.eqb_refl.
Qed.

Lemma np_random_normal_shape (loc scale : R) (rows cols : nat) (g : rng) :
  length (fst (np_random_normal loc scale rows cols g)) = rows
  /\ forallb (fun r => (length r =? cols)%nat)
             (fst (np_random_normal loc scale rows cols g)) = true
  /\ pos (snd (np_random_normal loc scale rows cols g))
     = (pos g + rows * cols)%nat.
Proof.
  unfold np_random_normal.
  destruct (standard_normal_shape rows cols g) as [Hl [Hr Hp]].
  destruct (standard_normal rows cols g) as [e g'] eqn:E.
  cbn [fst snd] in *.
  rewrite length_map. split; [exact Hl|]. split; [|exact Hp].
  rewrite forallb_forall in *. intros r Hin. apply in_map_iff in Hin.
  destruct Hin as [r0 [<- Hin]]. rewrite length_map. now apply Hr.
Qed.

Lemma onehot_to_tcrbs_length (f : ndarray2 R -> string)
  (fv fj : list R -> string) (a : list (ndarray2 R)) (v j : list (list R)) :
  length (onehot_to_tcrbs f fv fj a v j)
  = Nat.min (Nat.min (length a) (length v)) (length j).
Proof.
  unfold onehot_to_tcrbs. now rewrite length_map, !length_combine.
Qed.

Lemma py_slice_to_nonneg {A : Type} (l : list A) (k : Z) :
  (0 <= k)%Z -> py_slice_to l k = firstn (Z.to_nat k) l.
Proof.
  intros Hk. unfold py_slice_to.
  destruct (Z.ltb_spec k 0); [lia | reflexivity].
Qed.

(** C5: for [n >= 1] (and a batch size of at least one), [generate(n)]
    draws [n_actual] latent vectors from the standard normal prior, where
    [n_actual] is [n] rounded up to the next multiple of the batch size,
    decodes them, and returns the conversion of the first [n] decoded
    records: exactly [n] records. *)
Theorem generate_returns_n_records (params : Params) (weights : Weights)
  (onehot_to_padded_seq : ndarray2 R -> string)
  (onehot_to_vgene onehot_to_jgene : list R -> string) (n : Z) (g : rng) :
  (1 <= n)%Z -> (1 <= batch_size params)%nat ->
  exists (n_actual : nat) (records : list tcrb) (g' : rng),
    generate params weights onehot_to_padded_seq onehot_to_vgene
             onehot_to_jgene n g = Ok (records, g')
    /\ length records = Z.to_nat n
    /\ (Z.of_nat n_actual mod Z.of_nat (batch_size params) = 0)%Z
    /\ (n <= Z.of_nat n_actual < n + Z.of_nat (batch_size params))%Z
    /\ pos g' = (pos g + n_actual * latent_dim params)%nat
    /\ let z_sample :=
         fst (np_random_normal 0 1 n_actual (latent_dim params) g) in
       length z_sample = n_actual
       /\ records
          = onehot_to_tcrbs onehot_to_padded_seq onehot_to_vgene
              onehot_to_jgene
              (firstn (Z.to_nat n)
                 (map (decoder_generator_CDR3 params weights) z_sample))
              (firstn (Z.to_nat n)
                 (map (decoder_generator_Vgene params weights) z_sample))
              (firstn (Z.to_nat n)
                 (map (decoder_generator_Jgene params weights) z_sample)).
Proof.
  intros Hn Hb.
  set (b := Z.of_nat (batch_size params)).
  assert (Hbpos : (0 < b)%Z) by (unfold b; lia).
  destruct (ceil_div_spec n b Hbpos) as [Hrange Hmod].
  set (k := (b * ceil_div n b)%Z) in *.
  exists (Z.to_nat k).
  unfold generate. fold b.
  destruct (Z.eqb_spec b 0) as [E|_]; [lia|].
  fold k. destruct (Z.ltb_spec k 0) as [E|_]; [lia|].
  destruct (np_random_normal_shape 0 1 (Z.to_nat k) (latent_dim params) g)
    as [Hlen [Hshape Hpos]].
  destruct (np_random_normal 0 1 (Z.to_nat k) (latent_dim params) g)
    as [z_sample g'] eqn:E.
  cbn [fst snd] in *.
  unfold decode. rewrite decoder_batch;
    [| intros ->; simpl in Hlen; lia | exact Hshape].
  cbn [bind].
  rewrite !py_slice_to_nonneg by lia.
  eexists _, _. split; [reflexivity|].
  split.
  { rewrite onehot_to_tcrbs_length, !length_firstn, !length_map, Hlen. lia. }
  rewrite Z2Nat.id by lia.
  split; [exact Hmod|]. split; [exact Hrange|]. split; [exact Hpos|].
  split; [exact Hlen | reflexivity].
Qed.

(** ** [get_data] *)

Lemma get_data_whole (params : Params)
  (unpadded_tcrbs_to_onehot : list tcrb -> nat -> result (list onehot))
  (df : list tcrb) :
  get_data params unpadded_tcrbs_to_onehot df 0
  = unpadded_tcrbs_to_onehot df (max_cdr3_len params).
Proof. reflexivity. Qed.

(** C7, as the code has it: with a positive [data_chunk_size], [get_data]
    fails its assertion only on a frame shorter than one chunk; any longer
    frame is trimmed to its first [len - len mod data_chunk_size] rows, a
    multiple of the chunk size, and converted. *)
Theorem get_data_trims (params : Params)
  (unpadded_tcrbs_to_onehot : list tcrb -> nat -> result (list onehot))
  (df : list tcrb) (data_chunk_size : Z) :
  (0 < data_chunk_size)%Z ->
  let len := Z.of_nat (length df) in
  let n_to_take := (len - len mod data_chunk_size)%Z in
  ((len < data_chunk_size)%Z ->
   get_data params unpadded_tcrbs_to_onehot df data_chunk_size
   = Raise AssertionError)
  /\ ((data_chunk_size <= len)%Z ->
      get_data params unpadded_tcrbs_to_onehot df data_chunk_size
      = unpadded_tcrbs_to_onehot (firstn (Z.to_nat n_to_take) df)
                                 (max_cdr3_len params)
      /\ length (firstn (Z.to_nat n_to_take) df) = Z.to_nat n_to_take
      /\ (n_to_take mod data_chunk_size = 0)%Z
      /\ (len - data_chunk_size < n_to_take <= len)%Z).
Proof.
  intros Hc len n_to_take.
  pose proof (Z.mod_pos_bound len data_chunk_size Hc) as Hr.
  unfold get_data. fold len.
  destruct (Z.eqb_spec data_chunk_size 0) as [E|_]; [lia|].
  split; intros Hlen.
  - destruct (Z.geb_spec len data_chunk_size); [lia | reflexivity].
  - destruct (Z.geb_spec len data_chunk_size); [|lia].
    fold n_to_take.
    assert (Hn : (0 <= n_to_take <= len)%Z) by (unfold n_to_take; lia).
    rewrite py_slice_to_nonneg by lia.
    split; [reflexivity|]. split.
    { rewrite length_firstn. unfold len in Hn. lia. }
    split; [|unfold n_to_take; lia].
    unfold n_to_take. rewrite Zminus_mod, Z.mod_mod by lia.
    rewrite Z.sub_diag. apply Z.mod_0_l. lia.
Qed.

(** C7, counterexample: a frame of five rows, read with a chunk size of
    two, raises nothing; it comes back trimmed to four rows. *)
Lemma get_data_truncates_silently :
  (Z.of_nat (length df_five) mod 2 <> 0)%Z
  /\ get_data params_xent convert_rowwise df_five 2 <> Raise AssertionError
  /\ get_data params_xent convert_rowwise df_five 2
     = Ok (repeat onehot_example 4).
Proof.
  split; [vm_compute; discriminate|].
  split; [vm_compute; discriminate | reflexivity].
Qed.

(** ** The log-mean-exp aggregation of [importance] *)

Lemma np_sum_repeat_Fin (c : R) (n : nat) :
  np.sum (repeat (Fin c) n) = Fin (INR n * c).
Proof.
  induction n as [|n IH].
  - simpl. f_equal. ring.
  - rewrite S_INR. cbn [repeat np.sum fold_right].
    fold (np.sum (repeat (Fin c) n)).
    rewrite IH. simpl. f_equal. ring.
Qed.

Lemma np_sum_repeat_absorbing (a : num) (n : nat) :
  a = PInf \/ a = NaN -> (1 <= n)%nat -> np.sum (repeat a n) = a.
Proof.
  intros Ha Hn. destruct n as [|n]; [lia|]. clear Hn.
  induction n as [|n IH].
  - destruct Ha as [-> | ->]; reflexivity.
  - change (np.sum (repeat a (S (S n))))
      with (a + np.sum (repeat a (S n)))%num.
    rewrite IH. destruct Ha as [-> | ->]; reflexivity.
Qed.

Lemma Num_max_idem (a : num) : Num.max a a = a.
Proof.
  destruct a; simpl; try reflexivity.
  f_equal. apply Rmax_left. lra.
Qed.

Lemma np_amax_repeat (a : num) (n : nat) :
  (1 <= n)%nat -> np_amax (repeat a n) = a.
Proof.
  destruct n as [|n]; [lia|]. intros _. simpl.
  induction n as [|n IH]; simpl; [reflexivity|].
  now rewrite Num_max_idem.
Qed.

Lemma Num_log_INR (n : nat) :
  (1 <= n)%nat -> Num.log (Fin (INR n)) = Fin (ln (INR n)).
Proof.
  intros Hn. simpl.
  destruct (Rlt_dec 0 (INR n)) as [_|H]; [reflexivity|].
  exfalso. apply H. apply lt_0_INR. lia.
Qed.

Lemma logsumexp_repeat (L : num) (n : nat) :
  (1 <= n)%nat ->
  (logsumexp (repeat L n) - Num.log (Fin (INR n)))%num = L.
Proof.
  intros Hn.
  assert (Hpos : 0 < INR n) by (apply lt_0_INR; lia).
  unfold logsumexp. rewrite np_amax_repeat by exact Hn.
  rewrite map_repeat, Num_log_INR by exact Hn.
  destruct L as [l| | |]; cbn [Num.isfinite].
  - replace (Num.exp (Fin l - Fin l)%num) with (Fin 1)
      by (simpl; f_equal; rewrite Rplus_opp_r; symmetry; apply exp_0).
    rewrite np_sum_repeat_Fin. rewrite Rmult_1_r. simpl.
    destruct (Rlt_dec 0 (INR n)) as [_|H]; [|contradiction].
    simpl. f_equal. ring.
  - replace (Num.exp (PInf - Fin 0)%num) with PInf by reflexivity.
    rewrite np_sum_repeat_absorbing by (auto; lia). reflexivity.
  - replace (Num.exp (NInf - Fin 0)%num) with (Fin 0) by reflexivity.
    rewrite np_sum_repeat_Fin, Rmult_0_r. simpl.
    destruct (Rlt_dec 0 0) as [H|_]; [lra|]. reflexivity.
  - replace (Num.exp (NaN - Fin 0)%num) with NaN by reflexivity.
    rewrite np_sum_repeat_absorbing by (auto; lia). reflexivity.
Qed.

Lemma column_of_equal_samples (log_p_x : list (list num)) (j : nat) (L : num) :
  (forall i, (i < length log_p_x)%nat -> nth j (nth i log_p_x []) NaN = L) ->
  map (fun r => nth j r NaN) log_p_x = repeat L (length log_p_x).
Proof.
  induction log_p_x as [|r m IH]; intros H; [reflexivity|].
  simpl. f_equal.
  - apply (H 0%nat). simpl. lia.
  - apply IH. intros i Hi. apply (H (S i)). simpl. lia.
Qed.


(** ** The loop of [log_p_of_x_importance_sample] *)

Lemma update_app_head {A : Type} (l1 : list A) (x : A) (l2 : list A) (v : A) :
  update (l1 ++ x :: l2) (length l1) v = l1 ++ v :: l2.
Proof. induction l1 as [|a l1 IH]; simpl; [reflexivity | now rewrite IH]. Qed.

Lemma fold_update_from {A : Type} (f : nat -> A) (m : nat) :
  forall (done todo : list A),
    length todo = m ->
    fold_left (fun out i => update out i (f i)) (seq (length done) m)
              (done ++ todo)
    = done ++ map f (seq (length done) m).
Proof.
  induction m as [|m IH]; intros done todo Hlen.
  - destruct todo; [reflexivity | discriminate].
  - destruct todo as [|x todo]; [discriminate|].
    cbn [seq fold_left map]. rewrite update_app_head.
    change (done ++ f (length done) :: todo)
      with (done ++ [f (length done)] ++ todo).
    rewrite app_assoc.
    replace (S (length done)) with (length (done ++ [f (length done)]))
      by (rewrite length_app; simpl; lia).
    rewrite IH by (simpl in Hlen; lia).
    now rewrite <- app_assoc.
Qed.

(** The loop writes every slot of [out_ps] once, in order. *)
Lemma fold_update_all {A : Type} (f : nat -> A) (out_ps : list A) :
  fold_left (fun out i => update out i (f i)) (seq 0 (length out_ps)) out_ps
  = map f (seq 0 (length out_ps)).
Proof. exact (fold_update_from f (length out_ps) [] out_ps eq_refl). Qed.

(** ** Sums of finite numbers *)

Lemma np_sum_Fin {A : Type} (f : A -> R) (l : list A) :
  np.sum (map (fun x => Fin (f x)) l) = Fin (Rsum (map f l)).
Proof.
  induction l as [|x l IH]; [reflexivity|].
  cbn [map np.sum fold_right]. fold (np.sum (map (fun x => Fin (f x)) l)).
  now rewrite IH.
Qed.

Lemma np_multiply1_Fin (p o : list R) :
  np_multiply1 (map Fin p) (map Fin o) = map Fin (map2 Rmult p o).
Proof.
  unfold np_multiply1, map2. revert o.
  induction p as [|a p IH]; intros [|b o]; simpl; try reflexivity.
  now rewrite IH.
Qed.

Lemma Num_log_pos (p : R) : 0 < p -> Num.log (Fin p) = Fin (ln p).
Proof.
  intros Hp. simpl. destruct (Rlt_dec 0 p); [reflexivity | contradiction].
Qed.

Lemma Num_log_zero : Num.log (Fin 0) = NInf.
Proof.
  simpl. destruct (Rlt_dec 0 0) as [H|_]; [lra | reflexivity].
Qed.

Lemma Rsum_map_ext_seq (f h : nat -> R) (n : nat) :
  (forall a, (a < n)%nat -> f a = h a) ->
  Rsum (map f (seq 0 n)) = Rsum (map h (seq 0 n)).
Proof.
  intros H. f_equal. apply map_ext_in. intros a Ha.
  apply in_seq in Ha. apply H. lia.
Qed.

Lemma Rsum_indicator (c : R) (k n : nat) :
  Rsum (map (fun a => if (a =? k)%nat then c else 0) (seq 0 n))
  = if (k <? n)%nat then c else 0.
Proof.
  induction n as [|n IH]; [reflexivity|].
  rewrite seq_S, map_app. cbn [map Nat.add].
  assert (Happ : forall l1 l2, Rsum (l1 ++ l2) = Rsum l1 + Rsum l2).
  { induction l1 as [|x l1 IHl]; intros l2; simpl; [ring|].
    rewrite IHl. ring. }
  rewrite Happ, IH. simpl.
  destruct (Nat.eqb_spec n k) as [->|Hne].
  - rewrite Nat.ltb_irrefl.
    destruct (Nat.ltb_spec k (S k)); [ring | lia].
  - destruct (Nat.ltb_spec k n), (Nat.ltb_spec k (S n)); try lia; ring.
Qed.

(** The dot product with a one-hot vector selects one entry. *)
Lemma dot_onehot (p o : nat -> R) (k n : nat) :
  (k < n)%nat ->
  (forall a, (a < n)%nat -> o a = if (a =? k)%nat then 1 else 0) ->
  Rsum (map (fun a => p a * o a) (seq 0 n)) = p k.
Proof.
  intros Hk Ho.
  rewrite Rsum_map_ext_seq
    with (h := fun a => if (a =? k)%nat then p k else 0).
  - rewrite Rsum_indicator.
    destruct (Nat.ltb_spec k n); [reflexivity | lia].
  - intros a Ha. rewrite (Ho a Ha).
    destruct (Nat.eqb_spec a k) as [->|_]; ring.
Qed.

Lemma map2_as_seq (f : R -> R -> R) (p o : list R) (n : nat) :
  length p = n -> length o = n ->
  map2 f p o = map (fun a => f (nth a p 0) (nth a o 0)) (seq 0 n).
Proof.
  intros Hp Ho.
  apply nth_ext with (d := 0) (d' := 0).
  - rewrite length_map2, length_map, length_seq. lia.
  - intros i Hi. rewrite length_map2 in Hi.
    rewrite nth_map_seq by lia.
    apply nth_map2; lia.
Qed.

(** ** The normal density *)

Lemma logpdf_is_log_density (x mu sd : R) :
  0 < sd -> stats_norm.logpdf x mu sd = Fin (ln (Normal_pdf x mu sd)).
Proof.
  intros Hsd. unfold stats_norm.logpdf, Normal_pdf.
  destruct (Rlt_dec 0 sd) as [_|H]; [|contradiction].
  f_equal.
  assert (Hpi : 0 < sqrt (2 * PI)).
  { apply sqrt_lt_R0. pose proof PI_RGT_0. lra. }
  assert (Hden : 0 < sd * sqrt (2 * PI)) by (apply Rmult_lt_0_compat; lra).
  rewrite ln_mult;
    [| apply Rinv_0_lt_compat; exact Hden | apply exp_pos].
  rewrite ln_exp, ln_Rinv by exact Hden.
  rewrite ln_mult by lra.
  field. lra.
Qed.

(** ** [log_p_of_x_importance_sample] runs on a well-shaped batch *)

Lemma forallb_rows_nth (c : nat) (t : list (list R)) :
  (forall i, (i < length t)%nat -> length (nth i t []) = c) ->
  forallb (fun r => (length r =? c)%nat) t = true.
Proof.
  intros H. apply forallb_forall. intros r Hr.
  destruct (In_nth t r [] Hr) as [i [Hi <-]].
  apply Nat.eqb_eq, H, Hi.
Qed.

Lemma encoder_row_lengths (params : Params) (weights : Weights) (x : onehot) :
  length (fst (encoder_row params weights x)) = latent_dim params
  /\ length (snd (encoder_row params weights x)) = latent_dim params.
Proof. unfold encoder_row. cbn [fst snd]. split; apply Dense_length. Qed.

(** ** One-hot observations *)

Lemma logprob_of_obs_vect_Fin (P O : ndarray2 R) :
  logprob_of_obs_vect (fin_array P) (fin_array O)
  = np.sum (map (fun l =>
                   Num.log (Fin (Rsum (map (fun a => item P l a * item O l a)
                                           (seq 0 (ncols P))))))
                (seq 0 (nrows P))).
Proof.
  unfold logprob_of_obs_vect, np.log, np.sum_axis1, np.multiply, np.row,
    fin_array.
  cbn [nrows ncols item]. rewrite map_map. f_equal.
  apply map_ext. intros l. f_equal.
  cbn [Num.mul]. apply np_sum_Fin.
Qed.

Lemma row_dot_onehot (P O : ndarray2 R) (l k : nat) :
  ncols P = ncols O ->
  onehot_at k (np.row O l) ->
  Rsum (map (fun a => item P l a * item O l a) (seq 0 (ncols P)))
  = item P l k.
Proof.
  intros Hc [Hk Ho]. unfold np.row in Hk, Ho.
  rewrite length_map, length_seq in Hk, Ho.
  apply dot_onehot with (p := item P l) (o := item O l); [lia|].
  intros a Ha. rewrite <- (Ho a) by lia.
  now rewrite nth_map_seq by lia.
Qed.

Lemma logprob_of_obs_vect_onehot (P O : ndarray2 R) (aa : nat -> nat) :
  same_shape P O ->
  (forall l a, (l < nrows P)%nat -> (a < ncols P)%nat -> 0 < item P l a) ->
  (forall l, (l < nrows O)%nat -> onehot_at (aa l) (np.row O l)) ->
  logprob_of_obs_vect (fin_array P) (fin_array O)
  = Fin (Rsum (map (fun l => ln (item P l (aa l))) (seq 0 (nrows P)))).
Proof.
  intros [Hr Hc] Hpos Hhot.
  rewrite logprob_of_obs_vect_Fin, <- np_sum_Fin. f_equal.
  apply map_ext_in. intros l Hl. apply in_seq in Hl.
  assert (Hrow : onehot_at (aa l) (np.row O l)) by (apply Hhot; lia).
  rewrite (row_dot_onehot P O l (aa l) Hc Hrow).
  apply Num_log_pos, Hpos; [lia|].
  destruct Hrow as [Hk _]. unfold np.row in Hk.
  rewrite length_map, length_seq in Hk. lia.
Qed.

Lemma gene_dot_Fin (p o : list R) :
  np.sum (np_multiply1 (map Fin p) (map Fin o)) = Fin (Rsum (map2 Rmult p o)).
Proof.
  rewrite np_multiply1_Fin.
  rewrite (np_sum_Fin (fun x => x)). now rewrite map_id.
Qed.

Lemma log_gene_onehot (p o : list R) (k : nat) :
  length p = length o -> onehot_at k o -> Forall (fun x => 0 < x) p ->
  Num.log (np.sum (np_multiply1 (map Fin p) (map Fin o)))
  = Fin (ln (nth k p 0)).
Proof.
  intros Hlen [Hk Ho] Hpos.
  rewrite gene_dot_Fin.
  rewrite (map2_as_seq Rmult p o (length o) Hlen eq_refl).
  rewrite (dot_onehot (fun a => nth a p 0) (fun a => nth a o 0) k)
    by assumption.
  apply Num_log_pos, Forall_nth_in; [exact Hpos | lia].
Qed.

Lemma log_p_z_Fin (z : list R) :
  np.sum (map (fun x => stats_norm.logpdf x 0 1) z) = Fin (spec_log_p_z z).
Proof.
  unfold spec_log_p_z.
  rewrite <- (map_nth_seq 0 z) at 1. rewrite map_map.
  rewrite <- np_sum_Fin. f_equal. apply map_ext. intros k.
  apply logpdf_is_log_density. lra.
Qed.

Lemma log_q_z_given_x_Fin (z z_mean z_sd : list R) :
  length z_mean = length z -> length z_sd = length z ->
  Forall (fun s => 0 < s) z_sd ->
  np.sum (map (fun t => stats_norm.logpdf (fst (fst t)) (snd (fst t)) (snd t))
              (combine (combine z z_mean) z_sd))
  = Fin (spec_log_q_z_given_x z z_mean z_sd).
Proof.
  intros Hm Hs Hpos. unfold spec_log_q_z_given_x.
  rewrite <- np_sum_Fin. f_equal.
  apply nth_ext with (d := NaN) (d' := NaN).
  - rewrite !length_map, !length_combine, length_seq. lia.
  - intros k Hk. rewrite length_map, !length_combine in Hk.
    rewrite nth_map_seq by lia.
    rewrite (nth_map_in _ _ k (0, 0, 0) NaN)
      by (rewrite !length_combine; lia).
    rewrite combine_nth by (rewrite length_combine; lia).
    rewrite combine_nth by lia. cbn [fst snd].
    apply logpdf_is_log_density, Forall_nth_in; [exact Hpos | lia].
Qed.

(** ** Logs of zero *)

Lemma below_inf_add (a b : num) :
  below_inf a -> below_inf b -> below_inf (a + b)%num.
Proof.
  intros [-> | [x ->]] [-> | [y ->]]; simpl; unfold below_inf; eauto.
Qed.

Lemma add_NInf (a b : num) :
  below_inf a -> below_inf b -> a = NInf \/ b = NInf -> (a + b)%num = NInf.
Proof.
  intros [-> | [x ->]] [-> | [y ->]] [H | H]; simpl;
    congruence || reflexivity.
Qed.

Lemma below_inf_log (s : R) : 0 <= s -> below_inf (Num.log (Fin s)).
Proof.
  intros Hs. simpl. unfold below_inf.
  destruct (Rlt_dec 0 s); [eauto|].
  destruct (Rlt_dec s 0); [lra | auto].
Qed.

Lemma np_sum_below_inf (l : list num) :
  Forall below_inf l -> below_inf (np.sum l).
Proof.
  induction 1 as [|a l Ha _ IH]; simpl.
  - right. eauto.
  - now apply below_inf_add.
Qed.

Lemma np_sum_NInf (l : list num) :
  Forall below_inf l -> In NInf l -> np.sum l = NInf.
Proof.
  induction 1 as [|a l Ha Hl IH]; intros Hin; [contradiction|].
  cbn [np.sum fold_right]. fold (np.sum l).
  apply add_NInf; [exact Ha | now apply np_sum_below_inf|].
  destruct Hin as [-> | Hin]; [now left | right; now apply IH].
Qed.

Lemma Rsum_nonneg_seq (f : nat -> R) (n : nat) :
  (forall a, (a < n)%nat -> 0 <= f a) -> 0 <= Rsum (map f (seq 0 n)).
Proof.
  intros H.
  assert (G : forall l, (forall a, In a l -> 0 <= f a) -> 0 <= Rsum (map f l)).
  { induction l as [|a l IH]; intros Hl; simpl; [lra|].
    pose proof (Hl a (or_introl eq_refl)).
    assert (0 <= Rsum (map f l)) by (apply IH; intros; apply Hl; now right).
    lra. }
  apply G. intros a Ha. apply in_seq in Ha. apply H. lia.
Qed.

Lemma Rsum_zero_seq (f : nat -> R) (n : nat) :
  (forall a, (a < n)%nat -> f a = 0) -> Rsum (map f (seq 0 n)) = 0.
Proof.
  intros H. rewrite (Rsum_map_ext_seq f (fun _ => 0) n H).
  induction (seq 0 n) as [|a l IH]; simpl; [reflexivity | lra].
Qed.

Lemma logprob_of_obs_vect_below_inf (P O : ndarray2 R) :
  same_shape P O ->
  (forall l a, (a < ncols P)%nat -> 0 < item P l a) ->
  (forall l a, (l < nrows O)%nat -> (a < ncols O)%nat -> 0 <= item O l a) ->
  below_inf (logprob_of_obs_vect (fin_array P) (fin_array O))
  /\ ((exists l, (l < nrows O)%nat
         /\ forall a, (a < ncols O)%nat -> item O l a = 0) ->
      logprob_of_obs_vect (fin_array P) (fin_array O) = NInf).
Proof.
  intros [Hr Hc] Hp Ho. rewrite logprob_of_obs_vect_Fin.
  assert (Hall : Forall below_inf
            (map (fun l =>
                    Num.log (Fin (Rsum (map (fun a => item P l a * item O l a)
                                            (seq 0 (ncols P))))))
                 (seq 0 (nrows P)))).
  { apply Forall_forall. intros v Hv. apply in_map_iff in Hv.
    destruct Hv as [l [<- Hl]]. apply in_seq in Hl.
    apply below_inf_log, Rsum_nonneg_seq. intros a Ha.
    apply Rmult_le_pos; [left; now apply Hp | apply Ho; lia]. }
  split; [now apply np_sum_below_inf|].
  intros [l [Hl Hz]]. apply np_sum_NInf; [exact Hall|].
  apply in_map_iff. exists l. split; [|apply in_seq; lia].
  rewrite Rsum_zero_seq; [apply Num_log_zero|].
  intros a Ha. rewrite Hz by lia. ring.
Qed.

Lemma log_gene_below_inf (p o : list R) :
  length p = length o ->
  Forall (fun x => 0 < x) p -> Forall (fun v => 0 <= v) o ->
  below_inf (Num.log (np.sum (np_multiply1 (map Fin p) (map Fin o))))
  /\ (Forall (fun v => v = 0) o ->
      Num.log (np.sum (np_multiply1 (map Fin p) (map Fin o))) = NInf).
Proof.
  intros Hlen Hp Ho. rewrite gene_dot_Fin.
  rewrite (map2_as_seq Rmult p o (length o) Hlen eq_refl).
  split.
  - apply below_inf_log, Rsum_nonneg_seq. intros a Ha.
    apply Rmult_le_pos.
    + left. apply Forall_nth_in; [exact Hp | lia].
    + apply Forall_nth_in; [exact Ho | lia].
  - intros Hz. rewrite Rsum_zero_seq; [apply Num_log_zero|].
    intros a Ha.
    rewrite (Forall_nth_in (fun v => v = 0) o a 0 Hz Ha). ring.
Qed.

(** ** Stacking the columns and encoding *)

Lemma records_of_cols_of_df (df : list onehot) :
  records_of_cols (map onehot_CDR3 df) (map onehot_Vgene df)
                  (map onehot_Jgene df) = df.
Proof.
  unfold records_of_cols.
  induction df as [|[a v j] df IH]; [reflexivity|].
  simpl. now rewrite IH.
Qed.

Lemma input_shape_same (params : Params) (x y : onehot) :
  input_shape_ok params x = true -> input_shape_ok params y = true ->
  same_record_shape x y = true.
Proof.
  unfold input_shape_ok, same_record_shape.
  rewrite !andb_true_iff, !Nat.eqb_eq.
  intros [[[H1 H2] H3] H4] [[[K1 K2] K3] K4].
  repeat split; congruence.
Qed.

Lemma cols_of_df_ok (params : Params) (df : list onehot) :
  df <> [] ->
  forallb (input_shape_ok params) df = true ->
  cols_of_df df
  = Ok (map onehot_CDR3 df, map onehot_Vgene df, map onehot_Jgene df).
Proof.
  intros Hne Hs. destruct df as [|x t]; [contradiction|].
  assert (H : forallb (same_record_shape x) (x :: t) = true).
  { apply forallb_forall. intros y Hy. rewrite forallb_forall in Hs.
    apply (input_shape_same params); apply Hs; [now left | exact Hy]. }
  unfold cols_of_df. now rewrite H.
Qed.

Lemma encode_value (params : Params) (weights : Weights)
  (x_df : list onehot) :
  x_df <> [] ->
  forallb (input_shape_ok params) x_df = true ->
  encode params weights x_df
  = Ok (posterior_mean params weights x_df, posterior_sd params weights x_df).
Proof.
  intros Hne Hs. unfold encode.
  rewrite (cols_of_df_ok params) by assumption. cbn [bind].
  rewrite records_of_cols_of_df. unfold encoder. rewrite Hs. cbn [bind].
  unfold posterior_mean, posterior_sd. now rewrite map_map.
Qed.

Lemma encode_rejects (params : Params) (weights : Weights)
  (x_df : list onehot) :
  forallb (input_shape_ok params) x_df = false ->
  encode params weights x_df = Raise ValueError.
Proof.
  intros Hs. unfold encode, cols_of_df.
  destruct x_df as [|x t]; [reflexivity|].
  destruct (forallb (same_record_shape x) (x :: t)); [|reflexivity].
  cbn [bind]. rewrite records_of_cols_of_df. unfold encoder.
  now rewrite Hs.
Qed.

Lemma np_exp_float32_nonneg (x : R) : 0 <= np_exp_float32 x.
Proof.
  unfold np_exp_float32.
  destruct (Rle_dec (Rtrigo_def.exp x) (/ 2 ^ 150)); [lra|].
  left. apply exp_pos.
Qed.

Lemma posterior_sd_nonneg (params : Params) (weights : Weights)
  (x_df : list onehot) :
  Forall (Forall (fun s => 0 <= s)) (posterior_sd params weights x_df).
Proof.
  apply Forall_forall. intros r Hr. apply Forall_forall. intros s Hs.
  unfold posterior_sd in Hr. apply in_map_iff in Hr.
  destruct Hr as [x [<- _]].
  apply in_map_iff in Hs. destruct Hs as [lv [<- _]]. apply sqrt_pos.
Qed.

(** ** What [stats.norm.rvs] returns *)

Lemma squeeze_left_batch (a : list (list R)) :
  (2 <= length a)%nat -> stats_norm.squeeze_left a = Array2 a.
Proof.
  destruct a as [|r [|r' a]]; simpl; intros H; try lia; reflexivity.
Qed.

Lemma rvs_value (loc scale : list (list R)) (g : rng) (n c : nat) :
  (2 <= n)%nat -> (1 <= c)%nat ->
  length loc = n -> length (hd [] loc) = c ->
  length scale = n -> length (hd [] scale) = c ->
  Forall (Forall (fun s => 0 < s)) scale ->
  stats_norm.rvs loc scale g
  = Ok (Array2 (map2 (map2 Rplus)
                  (map2 (map2 Rmult) (fst (standard_normal n c g)) scale)
                  loc),
        snd (standard_normal n c g)).
Proof.
  intros Hn Hc Hl Hlc Hs Hsc Hpos. unfold stats_norm.rvs.
  assert (Hdom : forallb (forallb (fun s => if Rle_dec 0 s then true
                                            else false)) scale = true).
  { apply forallb_forall. intros r Hr. apply forallb_forall. intros s Hin.
    rewrite Forall_forall in Hpos. specialize (Hpos r Hr).
    rewrite Forall_forall in Hpos. specialize (Hpos s Hin).
    destruct (Rle_dec 0 s); [reflexivity | lra]. }
  rewrite Hdom.
  assert (Hnz : forallb (forallb (fun s => if Req_dec_T s 0 then true
                                           else false)) scale = false).
  { destruct scale as [|[|s r] t]; simpl in *; try lia.
    inversion Hpos as [|? ? Hr _]; subst.
    inversion Hr as [|? ? Hs0 _]; subst.
    destruct (Req_dec_T s 0); [lra | reflexivity]. }
  rewrite Hnz, Hl, Hlc.
  destruct (standard_normal_shape n c g) as [Hv _].
  destruct (standard_normal n c g) as [vals g'].
  cbn [fst snd] in *.
  rewrite squeeze_left_batch; [reflexivity|].
  rewrite !length_map2. lia.
Qed.

(** A record that comes alone is squeezed out of its batch, and the
    decoder refuses what is left. *)
Lemma decoder_squeezed_row (params : Params) (weights : Weights)
  (r : list R) :
  length r = latent_dim params ->
  decoder params weights (stats_norm.squeeze_left [r]) = Raise ValueError.
Proof.
  intros Hr. unfold decoder.
  destruct r as [|x [|y r]];
    cbn [stats_norm.squeeze_left standardize_input_data bind map].
  - reflexivity.
  - reflexivity.
  - rewrite <- Hr. reflexivity.
Qed.

Lemma one_record_raises (params : Params) (weights : Weights) (x : onehot)
  (out_ps : list num) (g : rng) :
  input_shape_ok params x = true ->
  length out_ps = 1%nat ->
  log_p_of_x_importance_sample params weights [x] out_ps g
  = Raise ValueError.
Proof.
  intros Hs Hlen. unfold log_p_of_x_importance_sample.
  rewrite Hlen. cbn [length Nat.eqb].
  rewrite encode_value;
    [| discriminate | cbn [forallb]; now rewrite Hs].
  cbn [bind]. unfold posterior_mean, posterior_sd. cbn [map].
  destruct (encoder_row_lengths params weights x) as [Hm Hv].
  set (m := fst (encoder_row params weights x)) in *.
  set (s := map (fun lv => sqrt (np_exp_float32 lv))
                (snd (encoder_row params weights x))).
  assert (Hsl : length s = latent_dim params)
    by (unfold s; now rewrite length_map).
  unfold stats_norm.rvs.
  destruct (forallb _ [s]); [|reflexivity].
  destruct (forallb _ [s]).
  - cbn [bind]. unfold decode. rewrite decoder_squeezed_row by exact Hm.
    reflexivity.
  - cbn [length hd]. unfold standard_normal.
    cbn [seq map]. unfold map2 at 1 2 3. cbn [combine map fst snd].
    cbn [bind]. unfold decode. rewrite decoder_squeezed_row; [reflexivity|].
    rewrite length_map, length_combine, length_map2, length_map, length_seq.
    rewrite Hm, Hsl. lia.
Qed.

Section ImportanceSample.

Variable params : Params.
Variable weights : Weights.
Variable x_df : list onehot.
Variable g : rng.

Hypothesis shapes_ok : forallb (input_shape_ok params) x_df = true.
Hypothesis two_records : (2 <= length x_df)%nat.
Hypothesis latent_pos : (1 <= latent_dim params)%nat.
Hypothesis sd_positive : positive_sd params weights x_df.

Local Abbreviation z_mean := (posterior_mean params weights x_df).

Local Abbreviation z_sd := (posterior_sd params weights x_df).

Local Abbreviation vals := (posterior_noise params x_df g).

Local Abbreviation z_sample := (posterior_sample params weights x_df g).

Local Abbreviation g' := (rng_after_sample params x_df g).

Lemma frame_nonempty : x_df <> [].
Proof. intros E. rewrite E in two_records. simpl in two_records. lia. Qed.

Lemma encode_ok : encode params weights x_df = Ok (z_mean, z_sd).
Proof. apply encode_value; [apply frame_nonempty | exact shapes_ok]. Qed.

Lemma z_mean_row (i : nat) :
  (i < length x_df)%nat -> length (nth i z_mean []) = latent_dim params.
Proof.
  intros Hi. unfold posterior_mean.
  rewrite (nth_map_in _ x_df i (mk_onehot empty_array [] []) [] Hi).
  apply encoder_row_lengths.
Qed.

Lemma z_sd_row (i : nat) :
  (i < length x_df)%nat ->
  length (nth i z_sd []) = latent_dim params
  /\ Forall (fun s => 0 < s) (nth i z_sd []).
Proof.
  intros Hi. split.
  - unfold posterior_sd.
    rewrite (nth_map_in _ x_df i (mk_onehot empty_array [] []) [] Hi).
    rewrite length_map. apply encoder_row_lengths.
  - apply Forall_nth_in; [exact sd_positive|].
    unfold posterior_sd. now rewrite length_map.
Qed.

Lemma vals_row (i : nat) :
  (i < length x_df)%nat -> length (nth i vals []) = latent_dim params.
Proof.
  intros Hi. unfold posterior_noise, standard_normal. cbn [fst].
  rewrite nth_map_seq by exact Hi. now rewrite length_map, length_seq.
Qed.

Lemma z_sample_length : length z_sample = length x_df.
Proof.
  unfold posterior_sample, posterior_mean, posterior_sd, posterior_noise,
    standard_normal.
  cbn [fst].
  rewrite !length_map2, !length_map, length_seq. lia.
Qed.

(** Component [k] of the sample of record [i]: the variate times the
    standard deviation, plus the mean. *)
Lemma z_sample_row (i : nat) :
  (i < length x_df)%nat ->
  nth i z_sample []
  = map2 Rplus (map2 Rmult (nth i vals []) (nth i z_sd [])) (nth i z_mean []).
Proof.
  intros Hi. unfold posterior_sample.
  assert (Hv : length vals = length x_df).
  { unfold posterior_noise, standard_normal. cbn [fst].
    now rewrite length_map, length_seq. }
  assert (Hs : length z_sd = length x_df)
    by (unfold posterior_sd; apply length_map).
  assert (Hm : length z_mean = length x_df)
    by (unfold posterior_mean; apply length_map).
  rewrite (nth_map2 _ _ _ i [] []) by (rewrite ?length_map2; lia).
  rewrite (nth_map2 _ _ _ i [] []) by lia.
  reflexivity.
Qed.

Lemma z_sample_row_length (i : nat) :
  (i < length x_df)%nat -> length (nth i z_sample []) = latent_dim params.
Proof.
  intros Hi. rewrite (z_sample_row i Hi), !length_map2.
  rewrite (vals_row i Hi), (z_mean_row i Hi).
  destruct (z_sd_row i Hi) as [-> _]. lia.
Qed.

Lemma rvs_ok : stats_norm.rvs z_mean z_sd g = Ok (Array2 z_sample, g').
Proof.
  pose proof frame_nonempty as Hne.
  apply rvs_value.
  - exact two_records.
  - exact latent_pos.
  - unfold posterior_mean. apply length_map.
  - unfold posterior_mean.
    destruct x_df as [|x t]; [contradiction|]. simpl.
    apply encoder_row_lengths.
  - unfold posterior_sd. apply length_map.
  - unfold posterior_sd.
    destruct x_df as [|x t]; [contradiction|]. simpl.
    rewrite length_map. apply encoder_row_lengths.
  - exact sd_positive.
Qed.

Lemma decode_sample_ok :
  decode params weights (Array2 z_sample)
  = Ok (map (decoder_generator_CDR3 params weights) z_sample,
        map (decoder_generator_Vgene params weights) z_sample,
        map (decoder_generator_Jgene params weights) z_sample).
Proof.
  unfold decode. apply decoder_batch.
  - intros E. pose proof z_sample_length as H. rewrite E in H.
    simpl in H. lia.
  - apply forallb_rows_nth.
    intros i Hi. rewrite z_sample_length in Hi.
    now apply z_sample_row_length.
Qed.

(** The array the call leaves in [out_ps]: slot [i] holds the value of the
    loop body at [i]. *)
Lemma log_p_of_x_importance_sample_ok (out_ps : list num) :
  length x_df = length out_ps ->
  log_p_of_x_importance_sample params weights x_df out_ps g
  = Ok (map (importance_sample_at z_mean z_sd z_sample
               (map (decoder_generator_CDR3 params weights) z_sample)
               (map (decoder_generator_Vgene params weights) z_sample)
               (map (decoder_generator_Jgene params weights) z_sample)
               (map onehot_CDR3 x_df) (map onehot_Vgene x_df)
               (map onehot_Jgene x_df))
            (seq 0 (length x_df)),
        g').
Proof.
  intros Hlen. unfold log_p_of_x_importance_sample.
  rewrite Hlen, Nat.eqb_refl, <- Hlen.
  rewrite encode_ok. cbn [bind]. rewrite rvs_ok. cbn [bind].
  rewrite decode_sample_ok. cbn [bind].
  rewrite (cols_of_df_ok params) by (apply frame_nonempty || exact shapes_ok).
  cbn [bind ndarray_rows].
  rewrite Hlen, fold_update_all. reflexivity.
Qed.

Lemma input_shape_ok_nth (i : nat) (d : onehot) :
  (i < length x_df)%nat ->
  nrows (onehot_CDR3 (nth i x_df d)) = max_cdr3_len params
  /\ ncols (onehot_CDR3 (nth i x_df d)) = n_aas params
  /\ length (onehot_Vgene (nth i x_df d)) = n_v_genes params
  /\ length (onehot_Jgene (nth i x_df d)) = n_j_genes params.
Proof.
  intros Hi. pose proof shapes_ok as H. rewrite forallb_forall in H.
  specialize (H (nth i x_df d) (nth_In x_df d Hi)).
  unfold input_shape_ok in H.
  repeat (apply andb_prop in H; destruct H as [H ?]).
  repeat split; now apply Nat.eqb_eq.
Qed.

(** The value the loop stores for record [i] when the record is one-hot. *)
Lemma importance_sample_at_onehot (aa : nat -> nat) (vg jg i : nat) :
  (i < length x_df)%nat ->
  encodes (nth i x_df (mk_onehot empty_array [] [])) aa vg jg ->
  let z := nth i z_sample [] in
  importance_sample_at z_mean z_sd z_sample
    (map (decoder_generator_CDR3 params weights) z_sample)
    (map (decoder_generator_Vgene params weights) z_sample)
    (map (decoder_generator_Jgene params weights) z_sample)
    (map onehot_CDR3 x_df) (map onehot_Vgene x_df) (map onehot_Jgene x_df) i
  = Fin (spec_estimate
           (decoder_generator_CDR3 params weights z)
           (decoder_generator_Vgene params weights z)
           (decoder_generator_Jgene params weights z)
           aa vg jg z (nth i z_mean []) (nth i z_sd [])).
Proof.
  intros Hi [Haa [Hvg Hjg]] z.
  set (d := mk_onehot empty_array [] []) in *.
  unfold importance_sample_at.
  assert (Hiz : (i < length z_sample)%nat) by now rewrite z_sample_length.
  rewrite (nth_map_in _ z_sample i [] empty_array Hiz).
  rewrite !(nth_map_in _ z_sample i [] [] Hiz).
  rewrite (nth_map_in _ x_df i d empty_array Hi).
  rewrite !(nth_map_in _ x_df i d [] Hi).
  fold z.
  destruct (input_shape_ok_nth i d Hi) as [Hr [Hc [Hv Hj]]].
  destruct (z_sd_row i Hi) as [Hsdl Hsdp].
  rewrite (logprob_of_obs_vect_onehot _ _ aa).
  - rewrite (log_gene_onehot _ _ vg);
      [| unfold decoder_generator_Vgene, decoder_out_Vgene;
         rewrite Dense_length; now rewrite Hv
       | exact Hvg | apply Dense_softmax_pos].
    rewrite (log_gene_onehot _ _ jg);
      [| unfold decoder_generator_Jgene, decoder_out_Jgene;
         rewrite Dense_length; now rewrite Hj
       | exact Hjg | apply Dense_softmax_pos].
    rewrite log_p_z_Fin.
    rewrite log_q_z_given_x_Fin;
      [| unfold z; now rewrite z_mean_row, z_sample_row_length
       | unfold z; now rewrite Hsdl, z_sample_row_length
       | exact Hsdp].
    unfold spec_estimate, spec_log_p_x_given_z. simpl. f_equal. ring.
  - split; simpl; congruence.
  - intros l a _ Ha. apply Activation_softmax_pos. exact Ha.
  - exact Haa.
Qed.

(** The value the loop stores for a record one of whose observed vectors
    is all zeros. *)
Lemma importance_sample_at_zero (i : nat) :
  (i < length x_df)%nat ->
  nonneg_record (nth i x_df (mk_onehot empty_array [] [])) ->
  has_zero_vector (nth i x_df (mk_onehot empty_array [] [])) ->
  importance_sample_at z_mean z_sd z_sample
    (map (decoder_generator_CDR3 params weights) z_sample)
    (map (decoder_generator_Vgene params weights) z_sample)
    (map (decoder_generator_Jgene params weights) z_sample)
    (map onehot_CDR3 x_df) (map onehot_Vgene x_df) (map onehot_Jgene x_df) i
  = NInf.
Proof.
  intros Hi [Hnaa [Hnv Hnj]] Hzero.
  set (d := mk_onehot empty_array [] []) in *.
  unfold importance_sample_at.
  assert (Hiz : (i < length z_sample)%nat) by now rewrite z_sample_length.
  rewrite (nth_map_in _ z_sample i [] empty_array Hiz).
  rewrite !(nth_map_in _ z_sample i [] [] Hiz).
  rewrite (nth_map_in _ x_df i d empty_array Hi).
  rewrite !(nth_map_in _ x_df i d [] Hi).
  destruct (input_shape_ok_nth i d Hi) as [Hr [Hc [Hv Hj]]].
  destruct (z_sd_row i Hi) as [Hsdl Hsdp].
  set (z := nth i z_sample []).
  destruct (logprob_of_obs_vect_below_inf
              (decoder_generator_CDR3 params weights z)
              (onehot_CDR3 (nth i x_df d)))
    as [Ba Za].
  { split; simpl; congruence. }
  { intros l a Ha. apply Activation_softmax_pos. exact Ha. }
  { exact Hnaa. }
  destruct (log_gene_below_inf
              (decoder_generator_Vgene params weights z)
              (onehot_Vgene (nth i x_df d)))
    as [Bv Zv].
  { unfold decoder_generator_Vgene, decoder_out_Vgene.
    rewrite Dense_length. now rewrite Hv. }
  { apply Dense_softmax_pos. }
  { exact Hnv. }
  destruct (log_gene_below_inf
              (decoder_generator_Jgene params weights z)
              (onehot_Jgene (nth i x_df d)))
    as [Bj Zj].
  { unfold decoder_generator_Jgene, decoder_out_Jgene.
    rewrite Dense_length. now rewrite Hj. }
  { apply Dense_softmax_pos. }
  { exact Hnj. }
  rewrite log_p_z_Fin.
  rewrite log_q_z_given_x_Fin;
    [| unfold z; now rewrite z_mean_row, z_sample_row_length
     | unfold z; now rewrite Hsdl, z_sample_row_length
     | exact Hsdp].
  apply add_NInf.
  - apply below_inf_add; [apply below_inf_add|]; assumption.
  - right. simpl. eauto.
  - left. apply add_NInf; [apply below_inf_add; assumption | assumption |].
    destruct Hzero as [Hz | [Hz | Hz]].
    + left. apply add_NInf; [assumption | assumption | left; now apply Za].
    + left. apply add_NInf; [assumption | assumption | right; now apply Zv].
    + right. now apply Zj.
Qed.

End ImportanceSample.

Lemma one_record_frame_raises (params : Params) (weights : Weights)
  (x_df : list onehot) (out_ps : list num) (g : rng) :
  forallb (input_shape_ok params) x_df = true ->
  length x_df = length out_ps ->
  length x_df = 1%nat ->
  log_p_of_x_importance_sample params weights x_df out_ps g
  = Raise ValueError.
Proof.
  intros Hs Hlen H1. destruct x_df as [|x [|y t]]; try discriminate.
  apply one_record_raises.
  - cbn [forallb] in Hs. now rewrite andb_true_r in Hs.
  - now rewrite <- Hlen.
Qed.

Section ImportanceSampleClaims.

Variable params : Params.
Variable weights : Weights.
Variable x_df : list onehot.
Variable g : rng.

Local Abbreviation z_mean := (posterior_mean params weights x_df).

Local Abbreviation z_sd := (posterior_sd params weights x_df).

Local Abbreviation z_sample := (posterior_sample params weights x_df g).

Local Abbreviation g' := (rng_after_sample params x_df g).

(** C1: on a one-hot batch of at least two records whose standard
    deviations have not underflowed, [log_p_of_x_importance_sample] stores
    for every sequence [log p(x|z) + log p(z) - log q(z|x)], where [z] is
    the draw [z_mean + z_sd * noise] from the encoder's posterior,
    [log p(x|z)] adds the logs of the decoded probabilities of the observed
    amino acid at each position, of the observed V gene and of the observed
    J gene, [log p(z)] adds the standard normal log-densities of the
    components of [z] and [log q(z|x)] their [Normal(z_mean, z_sd)]
    log-densities.  On a batch of one record it stores nothing:
    [stats.norm.rvs] drops the batch axis, [decode] refuses the sample and
    the call ends in a [ValueError]. *)
Theorem importance_sample_is_estimate (out_ps : list num)
  (aa : nat -> nat -> nat) (vg jg : nat -> nat) :
  forallb (input_shape_ok params) x_df = true ->
  length x_df = length out_ps ->
  (forall i, (i < length x_df)%nat ->
     encodes (nth i x_df (mk_onehot empty_array [] []))
             (aa i) (vg i) (jg i)) ->
  (length x_df = 1%nat ->
   log_p_of_x_importance_sample params weights x_df out_ps g
   = Raise ValueError)
  /\ ((2 <= length x_df)%nat -> (1 <= latent_dim params)%nat ->
      positive_sd params weights x_df ->
      exists out,
        log_p_of_x_importance_sample params weights x_df out_ps g
        = Ok (out, g')
        /\ encode params weights x_df = Ok (z_mean, z_sd)
        /\ stats_norm.rvs z_mean z_sd g = Ok (Array2 z_sample, g')
        /\ length out = length x_df
        /\ forall i, (i < length x_df)%nat ->
             let z := nth i z_sample [] in
             nth i out NaN
             = Fin (spec_estimate
                      (decoder_generator_CDR3 params weights z)
                      (decoder_generator_Vgene params weights z)
                      (decoder_generator_Jgene params weights z)
                      (aa i) (vg i) (jg i)
                      z (nth i z_mean []) (nth i z_sd []))).
Proof.
  intros Hs Hlen Hhot. split.
  { intros H1. now apply one_record_frame_raises. }
  intros H2 Hd Hsd.
  eexists. split; [now apply log_p_of_x_importance_sample_ok|].
  split; [now apply encode_ok|]. split; [now apply rvs_ok|].
  split; [now rewrite length_map, length_seq|].
  intros i Hi z. rewrite nth_map_seq by exact Hi.
  apply importance_sample_at_onehot; try assumption. now apply Hhot.
Qed.

(** C8: in a batch of at least two records whose standard deviations have
    not underflowed, a sequence one of whose observed vectors is all zeros
    makes the call raise nothing, and the estimate stored for it is
    [-inf].  When the sequence comes alone the call ends in a [ValueError],
    as for every batch of one record. *)
Theorem zero_observation_gives_NInf (out_ps : list num) (i : nat) :
  forallb (input_shape_ok params) x_df = true ->
  length x_df = length out_ps ->
  (i < length x_df)%nat ->
  nonneg_record (nth i x_df (mk_onehot empty_array [] [])) ->
  has_zero_vector (nth i x_df (mk_onehot empty_array [] [])) ->
  (length x_df = 1%nat ->
   log_p_of_x_importance_sample params weights x_df out_ps g
   = Raise ValueError)
  /\ ((2 <= length x_df)%nat -> (1 <= latent_dim params)%nat ->
      positive_sd params weights x_df ->
      exists out,
        log_p_of_x_importance_sample params weights x_df out_ps g
        = Ok (out, g')
        /\ length out = length x_df
        /\ nth i out NaN = NInf).
Proof.
  intros Hs Hlen Hi Hn Hzero. split.
  { intros H1. now apply one_record_frame_raises. }
  intros H2 Hd Hsd.
  eexists. split; [now apply log_p_of_x_importance_sample_ok|].
  split; [now rewrite length_map, length_seq|].
  rewrite nth_map_seq by exact Hi.
  now apply importance_sample_at_zero.
Qed.

End ImportanceSampleClaims.

(** ** The [importance] command *)

Lemma update_length {A : Type} (l : list A) (i : nat) (v : A) :
  length (update l i v) = length l.
Proof.
  revert i. induction l as [|x l IH]; intros [|i]; simpl; auto.
Qed.

Lemma importance_samples_length (params : Params) (weights : Weights)
  (df_x : list onehot) (nsamples : nat) (g : rng)
  (log_p_x : list (list num)) (g' : rng) :
  importance_samples params weights df_x nsamples g = Ok (log_p_x, g') ->
  length log_p_x = nsamples.
Proof.
  unfold importance_samples.
  set (step := fun (acc : result (list (list num) * rng)) (i : nat) => _).
  assert (G : forall l acc,
            (forall m h, acc = Ok (m, h) -> length m = nsamples) ->
            forall m h, fold_left step l acc = Ok (m, h) ->
                        length m = nsamples).
  { induction l as [|i l IH]; intros acc Hacc m h H; simpl in H.
    - now apply (Hacc m h).
    - apply (IH (step acc i)) with (h := h); [|exact H].
      intros m2 h2 E. unfold step in E.
      destruct acc as [[m1 h1]|e]; [|discriminate]. cbn [bind] in E.
      destruct (log_p_of_x_importance_sample params weights df_x
                  (nth i m1 []) h1) as [[out h3]|e]; [|discriminate].
      cbn [bind] in E. injection E as <- <-.
      rewrite update_length. now apply (Hacc m1 h1). }
  apply G. intros m h E. injection E as <- <-. apply repeat_length.
Qed.

Lemma fold_max_Fin (t : list R) (x : R) :
  exists m, fold_left Num.max (map Fin t) (Fin x) = Fin m.
Proof.
  revert x. induction t as [|y t IH]; intros x; simpl.
  - now exists x.
  - apply IH.
Qed.

Lemma Rsum_exp_shift (m : R) (l : list R) :
  Rsum (map (fun x => Rtrigo_def.exp (x + - m)) l)
  = Rsum (map Rtrigo_def.exp l) * Rtrigo_def.exp (- m).
Proof.
  induction l as [|x l IH]; simpl.
  - ring.
  - rewrite IH, exp_plus. ring.
Qed.

Lemma logsumexp_Fin (l : list R) :
  l <> [] -> logsumexp (map Fin l) = Fin (ln (Rsum (map Rtrigo_def.exp l))).
Proof.
  intros Hl.
  pose proof (Rsum_exp_pos (fun x => x) l Hl) as Hpos.
  assert (Hmax : exists m, np_amax (map Fin l) = Fin m)
    by (destruct l; [congruence | apply fold_max_Fin]).
  destruct Hmax as [m Hmax].
  unfold logsumexp. rewrite Hmax. cbn [Num.isfinite].
  rewrite map_map.
  rewrite (map_ext _ (fun y => Fin (Rtrigo_def.exp (y + - m))))
    by reflexivity.
  rewrite np_sum_Fin, Rsum_exp_shift.
  pose proof (exp_pos (- m)) as Hm.
  rewrite Num_log_pos by (apply Rmult_lt_0_compat; assumption).
  simpl. f_equal.
  rewrite ln_mult by assumption. rewrite ln_exp. ring.
Qed.

Lemma log_mean_exp_value (log_p_x : list (list num)) (n nsamples : nat) :
  log_p_x <> [] ->
  exists avg,
    log_mean_exp log_p_x n nsamples = Ok avg
    /\ length avg = n
    /\ forall j, (j < n)%nat ->
         nth j avg NaN
         = (logsumexp (map (fun r => nth j r NaN) log_p_x)
            - Num.log (Fin (INR nsamples)))%num.
Proof.
  intros Hne. unfold log_mean_exp, logsumexp_axis0.
  destruct log_p_x as [|r m] eqn:E; [contradiction|].
  rewrite <- E in *. cbn [bind].
  eexists. split; [reflexivity|].
  split; [now rewrite !length_map, length_seq|].
  intros j Hj. rewrite map_map. now rewrite nth_map_seq.
Qed.

Lemma column_of_samples (log_p_x : list (list num)) (j : nat)
  (v : nat -> num) :
  (forall i, (i < length log_p_x)%nat -> nth j (nth i log_p_x []) NaN = v i) ->
  map (fun r => nth j r NaN) log_p_x = map v (seq 0 (length log_p_x)).
Proof.
  intros H. rewrite <- (map_nth_seq [] log_p_x) at 1.
  rewrite map_map. apply map_ext_in. intros i Hi.
  apply in_seq in Hi. apply H. lia.
Qed.

Lemma ln_mean (s : R) (n : nat) :
  0 < s -> (1 <= n)%nat -> ln s - ln (INR n) = ln (s / INR n).
Proof.
  intros Hs Hn.
  assert (Hpos : 0 < INR n) by (apply lt_0_INR; lia).
  unfold Rdiv. rewrite ln_mult; [| exact Hs | now apply Rinv_0_lt_compat].
  rewrite ln_Rinv by exact Hpos. ring.
Qed.

(** C2: [importance] reports, for every sequence, the log-sum-exp of its
    [N] per-sample estimates minus [log N]; on finite estimates this is
    the logarithm of their arithmetic mean taken in probability space, and
    when the [N >= 1] estimates of a sequence all equal [L], it is [L]. *)
Theorem importance_of_equal_samples (params : Params) (weights : Weights)
  (unpadded_tcrbs_to_onehot : list tcrb -> nat -> result (list onehot))
  (limit_input_to : option Z) (nsamples : nat) (test_csv : list tcrb)
  (g : rng) (df : list onehot) (log_p_x : list (list num)) (g' : rng) :
  (1 <= nsamples)%nat ->
  get_data params unpadded_tcrbs_to_onehot test_csv 0 = Ok df ->
  importance_samples params weights (limited limit_input_to df) nsamples g
  = Ok (log_p_x, g') ->
  exists avg,
    importance params weights unpadded_tcrbs_to_onehot limit_input_to
               nsamples test_csv g = Ok (avg, g')
    /\ length avg = length (limited limit_input_to df)
    /\ (forall j, (j < length (limited limit_input_to df))%nat ->
          nth j avg NaN
          = (logsumexp (map (fun r => nth j r NaN) log_p_x)
             - Num.log (Fin (INR nsamples)))%num)
    /\ (forall j (v : nat -> R),
          (j < length (limited limit_input_to df))%nat ->
          (forall i, (i < nsamples)%nat ->
             nth j (nth i log_p_x []) NaN = Fin (v i)) ->
          nth j avg NaN
          = Fin (ln (Rsum (map (fun i => Rtrigo_def.exp (v i))
                               (seq 0 nsamples))
                     / INR nsamples)))
    /\ (forall j (L : num),
          (j < length (limited limit_input_to df))%nat ->
          (forall i, (i < nsamples)%nat ->
             nth j (nth i log_p_x []) NaN = L) ->
          nth j avg NaN = L).
Proof.
  intros HN Hdata Hsamples.
  pose proof (importance_samples_length _ _ _ _ _ _ _ Hsamples) as Hlen.
  destruct (log_mean_exp_value log_p_x
              (length (limited limit_input_to df)) nsamples)
    as [avg [Havg [Hl Hcol]]].
  { intros E. rewrite E in Hlen. simpl in Hlen. lia. }
  exists avg. split.
  { unfold importance. rewrite Hdata. cbn [bind].
    fold (limited limit_input_to df). rewrite Hsamples. cbn [bind].
    rewrite Havg. reflexivity. }
  split; [exact Hl|]. split; [exact Hcol|]. split.
  - intros j v Hj Hv. rewrite (Hcol j Hj).
    rewrite (column_of_samples log_p_x j (fun i => Fin (v i)))
      by (rewrite Hlen; exact Hv).
    rewrite Hlen, <- (map_map v Fin).
    rewrite logsumexp_Fin
      by (intros E; apply (f_equal (@length R)) in E;
          rewrite length_map, length_seq in E; simpl in E; lia).
    rewrite map_map, Num_log_INR by exact HN.
    simpl. f_equal.
    replace (ln _ + - ln (INR nsamples))
      with (ln (Rsum (map (fun i => Rtrigo_def.exp (v i)) (seq 0 nsamples)))
            - ln (INR nsamples)) by ring.
    apply ln_mean; [|exact HN].
    apply (Rsum_exp_pos v).
    intros E. apply (f_equal (@length nat)) in E.
    rewrite length_seq in E. simpl in E. lia.
  - intros j L Hj HL. rewrite (Hcol j Hj).
    rewrite (column_of_equal_samples log_p_x j L)
      by (rewrite Hlen; exact HL).
    rewrite Hlen. now apply logsumexp_repeat.
Qed.

(** ** The training graph *)

Lemma random_normal_advance (rows cols : nat) (mean stddev : R) (g : rng) :
  snd (K.random_normal rows cols mean stddev g) = advance g (rows * cols)
  /\ length (fst (K.random_normal rows cols mean stddev g)) = rows.
Proof.
  unfold K.random_normal, standard_normal, advance. simpl.
  now rewrite !length_map, length_seq.
Qed.

Lemma sampling_full_batch (params : Params) (z_mean z_log_var : list (list R))
  (g : rng) :
  length z_mean = batch_size params ->
  length z_log_var = batch_size params ->
  sampling params z_mean z_log_var g
  = Ok (reparameterize z_mean z_log_var (noise_at params g),
        advance g (batch_size params * latent_dim params)).
Proof.
  intros Hm Hlv. unfold sampling, noise_at.
  destruct (random_normal_advance (batch_size params) (latent_dim params)
              0 1 g) as [Hadv Hlen].
  destruct (K.random_normal (batch_size params) (latent_dim params) 0 1 g)
    as [epsilon g1].
  cbn [fst snd] in *. subst g1.
  unfold reparameterize, broadcast2 at 1. unfold K.exp.
  rewrite !length_map, Hlv, Hlen, Nat.eqb_refl. cbn [bind].
  unfold broadcast2. rewrite length_map2, !length_map, Hm, Hlv, Hlen.
  rewrite Nat.min_id, Nat.eqb_refl. reflexivity.
Qed.

(** What one forward pass of [vae] computes on a full batch: the CDR3,
    V-gene and J-gene outputs decode three latent samples, each made from
    noise of its own, drawn one after the other. *)
Lemma vae_draws_noise_per_output (params : Params) (weights : Weights)
  (x : list onehot) (g : rng) :
  (2 <= batch_size params)%nat ->
  forallb (input_shape_ok params) x = true ->
  length x = batch_size params ->
  let z_mean := posterior_mean params weights x in
  let z_log_var := posterior_log_var params weights x in
  let n := (batch_size params * latent_dim params)%nat in
  vae params weights x g
  = Ok (map (decoder_generator_CDR3 params weights)
            (reparameterize z_mean z_log_var (noise_at params g)),
        map (decoder_generator_Vgene params weights)
            (reparameterize z_mean z_log_var
               (noise_at params (advance g n))),
        map (decoder_generator_Jgene params weights)
            (reparameterize z_mean z_log_var
               (noise_at params (advance (advance g n) n))),
        advance (advance (advance g n) n) n).
Proof.
  intros Hb Hs Hl z_mean z_log_var n.
  unfold vae, encoder.
  destruct (Nat.ltb_spec (batch_size params) 2) as [E|_]; [lia|].
  rewrite Hs. cbn [bind].
  fold (posterior_mean params weights x).
  fold (posterior_log_var params weights x). fold z_mean. fold z_log_var.
  assert (Hm : length z_mean = batch_size params)
    by (unfold z_mean, posterior_mean; now rewrite length_map).
  assert (Hv : length z_log_var = batch_size params)
    by (unfold z_log_var, posterior_log_var; now rewrite length_map).
  rewrite !(sampling_full_batch params z_mean z_log_var) by assumption.
  cbn [bind]. rewrite !(sampling_full_batch params z_mean z_log_var)
    by assumption.
  cbn [bind]. rewrite !(sampling_full_batch params z_mean z_log_var)
    by assumption.
  reflexivity.
Qed.

(** *** One forward pass, evaluated *)

Lemma Relu_exp_pos (x : R) : 0 < x -> Relu_exp x = x.
Proof.
  intros Hx. unfold Relu_exp. destruct (Rlt_dec 0 x); [reflexivity|lra].
Qed.

Lemma posterior_graph :
  posterior_mean params_graph weights_graph x_graph = [[0]; [0]]
  /\ posterior_log_var params_graph weights_graph x_graph = [[0]; [0]].
Proof.
  unfold posterior_mean, posterior_log_var, encoder_row, Dense.
  simpl. split; repeat (f_equal; try ring).
Qed.

Lemma latent_graph (g : rng) :
  reparameterize [[0]; [0]] [[0]; [0]] (noise_at params_graph g)
  = [[tape g (pos g)]; [tape g (pos g + 1)]].
Proof.
  unfold reparameterize, noise_at, K.random_normal, standard_normal, K.exp,
    map2.
  simpl. replace (0 / 2) with 0 by field. rewrite exp_0, !Nat.add_0_r.
  repeat (f_equal; try ring).
Qed.

Lemma Vgene_graph (z : R) :
  0 <= z ->
  decoder_generator_Vgene params_graph weights_graph [z]
  = tf_softmax [z + 1; 0].
Proof.
  intros Hz.
  unfold decoder_generator_Vgene, decoder_out_Vgene, dense_decoder2,
    dense_decoder1, Dense.
  simpl.
  replace (z * 1 + 0 + 1) with (z + 1) by ring.
  rewrite (Relu_exp_pos (z + 1)) by lra.
  replace ((z + 1) * 1 + 0 + 0) with (z + 1) by ring.
  rewrite (Relu_exp_pos (z + 1)) by lra.
  f_equal. f_equal; [ring | f_equal; ring].
Qed.

Lemma tf_softmax_graph_differs :
  tf_softmax [INR 2 + 1; 0] <> tf_softmax [INR 0 + 1; 0].
Proof.
  unfold tf_softmax. simpl. intros H.
  injection H as _ H.
  rewrite exp_0 in H. unfold Rdiv in H. rewrite !Rmult_1_l in H.
  apply Rinv_eq_reg in H.
  pose proof (exp_increasing (0 + 1) (1 + 1 + 1) ltac:(lra)). lra.
Qed.

(** C6 on one forward pass over a batch of two records: the pass reads six
    values of the tape, two for each output; the CDR3 output decodes the
    latent sample [z] made from the first two, and the V-gene output is not
    the decoding of that [z]. *)
Theorem vae_heads_use_separate_noise :
  let z :=
    reparameterize (posterior_mean params_graph weights_graph x_graph)
                   (posterior_log_var params_graph weights_graph x_graph)
                   (noise_at params_graph g_graph) in
  exists cdr3 v j g',
    vae params_graph weights_graph x_graph g_graph = Ok (cdr3, v, j, g')
    /\ pos g' = 6%nat
    /\ cdr3 = map (decoder_generator_CDR3 params_graph weights_graph) z
    /\ v <> map (decoder_generator_Vgene params_graph weights_graph) z.
Proof.
  intros z.
  eexists _, _, _, _.
  split.
  { apply vae_draws_noise_per_output; [simpl; lia | reflexivity..]. }
  split; [reflexivity|]. split; [reflexivity|].
  unfold z. destruct posterior_graph as [-> ->].
  rewrite !latent_graph. cbn [map advance tape pos g_graph params_graph
    batch_size latent_dim Nat.mul Nat.add].
  rewrite !Vgene_graph by apply pos_INR.
  intros H. apply tf_softmax_graph_differs.
  exact (f_equal (fun l => hd [] l) H).
Qed.

Lemma Dense_zero_weights (units : nat) (w : DenseW) (x : list R) :
  zero_weights w -> Dense units linear w x = repeat 0 units.
Proof.
  intros [Hk Hb]. unfold Dense. cbn [apply_activation].
  rewrite (map_ext _ (fun _ => 0)).
  - now rewrite map_const, length_seq.
  - intros j. rewrite Hb. rewrite Rsum_zero_seq; [ring|].
    intros i _. rewrite Hk. ring.
Qed.

Lemma np_exp_float32_0 : np_exp_float32 0 = 1.
Proof.
  unfold np_exp_float32. rewrite exp_0.
  destruct (Rle_dec 1 (/ 2 ^ 150)) as [H|_]; [|reflexivity].
  exfalso.
  assert (H1 : 1 < 2 ^ 150) by (apply Rlt_pow_R1; [lra | lia]).
  assert (H2 : / 2 ^ 150 < / 1)
    by (apply Rinv_lt_contravar; lra).
  rewrite Rinv_1 in H2. lra.
Qed.

(** With a zero [z_log_var] layer every standard deviation is one. *)
Lemma zero_log_var_sd_row (params : Params) (weights : Weights)
  (x_df : list onehot) (i : nat) :
  zero_weights (W_z_log_var weights) ->
  (i < length x_df)%nat ->
  nth i (posterior_sd params weights x_df) []
  = repeat 1 (latent_dim params).
Proof.
  intros Hz Hi. unfold posterior_sd.
  rewrite (nth_map_in _ x_df i (mk_onehot empty_array [] []) [] Hi).
  unfold encoder_row. cbn [snd].
  rewrite Dense_zero_weights by exact Hz.
  rewrite map_repeat. f_equal. rewrite np_exp_float32_0. apply sqrt_1.
Qed.

Lemma zero_log_var_positive_sd (params : Params) (weights : Weights)
  (x_df : list onehot) :
  zero_weights (W_z_log_var weights) -> positive_sd params weights x_df.
Proof.
  intros Hz. unfold positive_sd. apply Forall_forall. intros r Hr.
  apply (In_nth _ _ []) in Hr. destruct Hr as [i [Hi <-]].
  unfold posterior_sd in Hi. rewrite length_map in Hi.
  rewrite (zero_log_var_sd_row params weights x_df i Hz Hi).
  apply Forall_forall. intros s Hs. apply repeat_spec in Hs. lra.
Qed.

(** ** The samples of [importance] *)

Lemma log_p_of_x_importance_sample_row (params : Params) (weights : Weights)
  (x_df : list onehot) (out_ps : list num) (g : rng) :
  forallb (input_shape_ok params) x_df = true ->
  (2 <= length x_df)%nat -> (1 <= latent_dim params)%nat ->
  positive_sd params weights x_df ->
  length x_df = length out_ps ->
  log_p_of_x_importance_sample params weights x_df out_ps g
  = Ok (importance_sample_row params weights x_df g,
        advance g (length x_df * latent_dim params)).
Proof.
  intros Hs H2 Hd Hsd Hl.
  exact (log_p_of_x_importance_sample_ok params weights x_df g Hs H2 Hd Hsd
           out_ps Hl).
Qed.

Lemma importance_samples_from (params : Params) (weights : Weights)
  (x_df : list onehot) :
  forallb (input_shape_ok params) x_df = true ->
  (2 <= length x_df)%nat -> (1 <= latent_dim params)%nat ->
  positive_sd params weights x_df ->
  forall (k : nat) (done : list (list num)) (g : rng),
    fold_left
      (fun acc i =>
         '(log_p_x, g1) <- acc ;;
         '(out, g2) <- log_p_of_x_importance_sample params weights x_df
                         (nth i log_p_x []) g1 ;;
         Ok (update log_p_x i out, g2))
      (seq (length done) k)
      (Ok (done ++ repeat (repeat (Fin 0) (length x_df)) k, g))
    = Ok (done ++ importance_sample_rows params weights x_df k g,
          advance g (k * (length x_df * latent_dim params))).
Proof.
  intros Hs H2 Hd Hsd. induction k as [|k IH]; intros done g.
  - simpl. do 2 f_equal. destruct g as [t p]. unfold advance. simpl.
    f_equal. lia.
  - cbn [seq fold_left repeat bind importance_sample_rows].
    rewrite app_nth2 by lia. rewrite Nat.sub_diag. cbn [nth].
    rewrite (log_p_of_x_importance_sample_row params weights x_df _ g
               Hs H2 Hd Hsd)
      by now rewrite repeat_length.
    cbn [bind]. rewrite update_app_head.
    change (done ++ importance_sample_row params weights x_df g
                 :: repeat (repeat (Fin 0) (length x_df)) k)
      with (done ++ [importance_sample_row params weights x_df g]
                 ++ repeat (repeat (Fin 0) (length x_df)) k).
    rewrite app_assoc.
    replace (S (length done))
      with (length (done ++ [importance_sample_row params weights x_df g]))
      by (rewrite length_app; simpl; lia).
    rewrite IH. rewrite <- app_assoc. f_equal. f_equal.
    unfold advance. cbn [tape pos]. f_equal. lia.
Qed.

Lemma importance_samples_value (params : Params) (weights : Weights)
  (x_df : list onehot) (nsamples : nat) (g : rng) :
  forallb (input_shape_ok params) x_df = true ->
  (2 <= length x_df)%nat -> (1 <= latent_dim params)%nat ->
  positive_sd params weights x_df ->
  importance_samples params weights x_df nsamples g
  = Ok (importance_sample_rows params weights x_df nsamples g,
        advance g (nsamples * (length x_df * latent_dim params))).
Proof.
  intros Hs H2 Hd Hsd.
  exact (importance_samples_from params weights x_df Hs H2 Hd Hsd
           nsamples [] g).
Qed.

Lemma importance_sample_rows_length (params : Params) (weights : Weights)
  (x_df : list onehot) (k : nat) (g : rng) :
  length (importance_sample_rows params weights x_df k g) = k.
Proof.
  revert g. induction k as [|k IH]; intros g; simpl; [|rewrite IH];
    reflexivity.
Qed.

Lemma importance_sample_rows_nth (params : Params) (weights : Weights)
  (x_df : list onehot) (k : nat) :
  forall (g : rng) (i : nat),
    (i < k)%nat ->
    exists h,
      tape h = tape g
      /\ pos h = (pos g + i * (length x_df * latent_dim params))%nat
      /\ nth i (importance_sample_rows params weights x_df k g) []
         = importance_sample_row params weights x_df h.
Proof.
  induction k as [|k IH]; intros g i Hi; [lia|].
  destruct i as [|i].
  - exists g. simpl. split; [reflexivity|]. split; [lia | reflexivity].
  - destruct (IH (advance g (length x_df * latent_dim params)) i
                ltac:(lia)) as [h [Ht [Hp Hn]]].
    exists h. cbn [importance_sample_rows nth].
    split; [exact Ht|]. split; [|exact Hn].
    rewrite Hp. simpl. lia.
Qed.

Lemma importance_sample_row_NInf (params : Params) (weights : Weights)
  (x_df : list onehot) (g : rng) (i : nat) :
  forallb (input_shape_ok params) x_df = true ->
  (2 <= length x_df)%nat -> (1 <= latent_dim params)%nat ->
  positive_sd params weights x_df ->
  (i < length x_df)%nat ->
  nonneg_record (nth i x_df (mk_onehot empty_array [] [])) ->
  has_zero_vector (nth i x_df (mk_onehot empty_array [] [])) ->
  nth i (importance_sample_row params weights x_df g) NaN = NInf.
Proof.
  intros Hs H2 Hd Hsd Hi Hn Hz.
  unfold importance_sample_row. cbv zeta.
  rewrite nth_map_seq by exact Hi.
  now apply importance_sample_at_zero.
Qed.

(** Every sample of a sequence with an all-zero observed vector is
    [-inf]. *)
Lemma importance_sample_rows_NInf (params : Params) (weights : Weights)
  (x_df : list onehot) (nsamples : nat) (g : rng) (j i : nat) :
  forallb (input_shape_ok params) x_df = true ->
  (2 <= length x_df)%nat -> (1 <= latent_dim params)%nat ->
  positive_sd params weights x_df ->
  (j < length x_df)%nat ->
  nonneg_record (nth j x_df (mk_onehot empty_array [] [])) ->
  has_zero_vector (nth j x_df (mk_onehot empty_array [] [])) ->
  (i < nsamples)%nat ->
  nth j (nth i (importance_sample_rows params weights x_df nsamples g) [])
      NaN = NInf.
Proof.
  intros Hs H2 Hd Hsd Hj Hn Hz Hi.
  destruct (importance_sample_rows_nth params weights x_df nsamples g i Hi)
    as [h [_ [_ ->]]].
  now apply importance_sample_row_NInf.
Qed.

(** ** The theorems on concrete inputs *)

Lemma logprob_of_obs_vect_matmul_equiv_witness :
  same_shape (fin_array uniform_xent) (fin_array target_xent)
  /\ logprob_of_obs_vect (fin_array uniform_xent) (fin_array target_xent)
     = logprob_of_obs_vect_matmul (fin_array uniform_xent)
                                  (fin_array target_xent).
Proof.
  assert (H : same_shape (fin_array uniform_xent) (fin_array target_xent))
    by (split; reflexivity).
  split; [exact H|].
  exact (logprob_of_obs_vect_matmul_equiv _ _ H).
Defined.

Lemma kl_loss_closed_form_witness :
  nth 0 (kl_loss params_xent [[1]; [0]] [[0]; [0]]) 0
  = spec_kl_term params_xent [1] [0].
Proof.
  exact (proj2 (kl_loss_closed_form params_xent [[1]; [0]] [[0]; [0]] 2 0
                  eq_refl eq_refl ltac:(lia))).
Defined.

Lemma xent_loss_counts_batch_witness :
  xent_loss [target_xent; target_xent] [uniform_xent; uniform_xent]
  = INR 2 * spec_reconstruction_term params_xent
              [target_xent; target_xent] [uniform_xent; uniform_xent].
Proof.
  exact (proj2 (proj2 (xent_loss_counts_batch params_xent
                         [target_xent; target_xent]
                         [uniform_xent; uniform_xent] eq_refl eq_refl))).
Defined.

Lemma generate_returns_n_records_witness :
  exists records g',
    generate params_xent weights_graph (no_name _) (no_name _) (no_name _)
             3 g_graph = Ok (records, g')
    /\ length records = 3%nat
    /\ pos g' = 4%nat.
Proof.
  destruct (generate_returns_n_records params_xent weights_graph
              (no_name _) (no_name _) (no_name _) 3 g_graph
              ltac:(lia) ltac:(simpl; lia))
    as [n_actual [records [g' [H1 [H2 [H3 [H4 [H5 _]]]]]]]].
  exists records, g'. split; [exact H1|]. split; [exact H2|].
  assert (Hn : n_actual = 4%nat).
  { change (Z.of_nat (batch_size params_xent)) with 2%Z in H3, H4.
    pose proof (Z.mod_pos_bound (Z.of_nat n_actual) 2 ltac:(lia)).
    pose proof (Z.div_mod (Z.of_nat n_actual) 2 ltac:(lia)). lia. }
  rewrite H5, Hn. reflexivity.
Defined.

Lemma get_data_trims_witness :
  get_data params_xent convert_rowwise df_five 2
  = convert_rowwise (firstn 4 df_five) (max_cdr3_len params_xent).
Proof.
  exact (proj1 (proj2 (get_data_trims params_xent convert_rowwise df_five 2
                         ltac:(lia))
                  ltac:(simpl; lia))).
Defined.

Lemma decode_gives_distributions_witness :
  exists cdr3 v j,
    decode params_graph weights_graph (Array2 [[0]]) = Ok (cdr3, v, j)
    /\ decoded_record_valid params_graph (nth 0 cdr3 empty_array)
                            (nth 0 v []) (nth 0 j []).
Proof.
  destruct (decode_gives_distributions params_graph weights_graph [[0]]
              ltac:(simpl; lia) ltac:(simpl; lia) ltac:(simpl; lia)
              ltac:(discriminate) eq_refl)
    as [cdr3 [v [j [H1 [_ [_ [_ H2]]]]]]].
  exists cdr3, v, j. split; [exact H1|]. apply H2. simpl. lia.
Defined.

Lemma record_graph_encodes :
  encodes record_graph (fun _ => 0%nat) 0%nat 0%nat.
Proof.
  unfold encodes, onehot_at. simpl.
  repeat split; try lia.
  - intros [|a] Ha; [reflexivity | lia].
  - intros [|[|a]] Ha; try reflexivity; lia.
  - intros [|a] Ha; [reflexivity | lia].
Qed.

Lemma x_graph_encodes (i : nat) :
  (i < length x_graph)%nat ->
  encodes (nth i x_graph (mk_onehot empty_array [] [])) (fun _ => 0%nat)
          0%nat 0%nat.
Proof.
  intros Hi.
  destruct i as [|[|i]]; [apply record_graph_encodes..| simpl in Hi; lia].
Qed.

Lemma zeroW_zero : zero_weights zeroW.
Proof. split; reflexivity. Qed.

Lemma importance_sample_is_estimate_witness :
  log_p_of_x_importance_sample params_graph weights_graph [record_graph]
                               [Fin 0] g_graph
  = Raise ValueError
  /\ exists out,
       log_p_of_x_importance_sample params_graph weights_graph x_graph
                                    [Fin 0; Fin 0] g_graph
       = Ok (out, rng_after_sample params_graph x_graph g_graph)
       /\ exists r, nth 0 out NaN = Fin r.
Proof.
  split.
  - apply (proj1 (importance_sample_is_estimate params_graph weights_graph
                    [record_graph] g_graph [Fin 0] (fun _ _ => 0%nat)
                    (fun _ => 0%nat) (fun _ => 0%nat) eq_refl eq_refl
                    (fun i Hi => x_graph_encodes (S i)
                                   ltac:(simpl in *; lia)))).
    reflexivity.
  - destruct (proj2 (importance_sample_is_estimate params_graph
                       weights_graph x_graph g_graph [Fin 0; Fin 0]
                       (fun _ _ => 0%nat) (fun _ => 0%nat)
                       (fun _ => 0%nat) eq_refl eq_refl x_graph_encodes)
                ltac:(simpl; lia) ltac:(simpl; lia)
                (zero_log_var_positive_sd params_graph weights_graph
                   x_graph zeroW_zero))
      as [out [H1 [_ [_ [_ H2]]]]].
    exists out. split; [exact H1|].
    eexists. apply (H2 0%nat). simpl. lia.
Defined.

Lemma zero_observation_gives_NInf_witness :
  log_p_of_x_importance_sample params_graph weights_graph x_zero_Vgene
                               [Fin 0] g_graph
  = Raise ValueError
  /\ exists out,
       log_p_of_x_importance_sample params_graph weights_graph
         (x_zero_Vgene ++ x_zero_Vgene) [Fin 0; Fin 0] g_graph
       = Ok (out, rng_after_sample params_graph
                    (x_zero_Vgene ++ x_zero_Vgene) g_graph)
       /\ nth 1 out NaN = NInf.
Proof.
  assert (Hn : nonneg_record (hd (mk_onehot empty_array [] []) x_zero_Vgene)).
  { unfold nonneg_record. simpl. repeat split.
    - intros; lra.
    - repeat constructor; lra.
    - repeat constructor; lra. }
  assert (Hz : has_zero_vector
                 (hd (mk_onehot empty_array [] []) x_zero_Vgene)).
  { right. left. simpl. repeat constructor. }
  split.
  - apply (proj1 (zero_observation_gives_NInf params_graph weights_graph
                    x_zero_Vgene g_graph [Fin 0] 0 eq_refl eq_refl
                    ltac:(simpl; lia) Hn Hz)).
    reflexivity.
  - destruct (proj2 (zero_observation_gives_NInf params_graph weights_graph
                       (x_zero_Vgene ++ x_zero_Vgene) g_graph
                       [Fin 0; Fin 0] 1 eq_refl eq_refl
                       ltac:(simpl; lia) Hn Hz)
                ltac:(simpl; lia) ltac:(simpl; lia)
                (zero_log_var_positive_sd params_graph weights_graph
                   (x_zero_Vgene ++ x_zero_Vgene) zeroW_zero))
      as [out [H1 [_ H2]]].
    exists out. split; assumption.
Defined.

Lemma importance_of_equal_samples_witness :
  exists avg g',
    importance params_graph weights_graph convert_zero_Vgene None 3 []
               g_graph = Ok (avg, g')
    /\ nth 1 avg NaN = NInf.
Proof.
  set (x := x_zero_Vgene ++ x_zero_Vgene).
  assert (Hsd : positive_sd params_graph weights_graph x)
    by (apply zero_log_var_positive_sd, zeroW_zero).
  assert (Hn : nonneg_record (nth 1 x (mk_onehot empty_array [] []))).
  { unfold nonneg_record. simpl. repeat split.
    - intros; lra.
    - repeat constructor; lra.
    - repeat constructor; lra. }
  assert (Hz : has_zero_vector (nth 1 x (mk_onehot empty_array [] []))).
  { right. left. simpl. repeat constructor. }
  destruct (importance_of_equal_samples params_graph weights_graph
              convert_zero_Vgene None 3 [] g_graph x
              (importance_sample_rows params_graph weights_graph x 3
                 g_graph)
              (advance g_graph (3 * (length x * latent_dim params_graph)))
              ltac:(lia) eq_refl
              (importance_samples_value params_graph weights_graph x 3
                 g_graph eq_refl ltac:(simpl; lia) ltac:(simpl; lia) Hsd))
    as [avg [H1 [_ [_ [_ H2]]]]].
  exists avg, (advance g_graph (3 * (length x * latent_dim params_graph))).
  split; [exact H1|].
  apply (H2 1%nat NInf); [simpl; lia|].
  intros i Hi.
  apply importance_sample_rows_NInf;
    [reflexivity | simpl; lia | simpl; lia | exact Hsd | simpl; lia
     | exact Hn | exact Hz | exact Hi].
Defined.

(** * Further properties *)

(** ** [EmbedViaMatrix] *)

(** On a one-hot matrix the layer is a table lookup: the output has the
    shape [compute_output_shape] announces, and its row [l] is the row of
    the kernel that belongs to the category encoded at position [l]. *)
Theorem EmbedViaMatrix_looks_up_kernel_rows (embedding_dim batch : nat)
  (kern : nat -> nat -> R) (x : ndarray2 R) (aa : nat -> nat) :
  (forall l, (l < nrows x)%nat -> onehot_at (aa l) (np.row x l)) ->
  (batch, nrows (EmbedViaMatrix embedding_dim kern x),
   ncols (EmbedViaMatrix embedding_dim kern x))
  = EmbedViaMatrix_compute_output_shape embedding_dim
      (batch, nrows x, ncols x)
  /\ forall l j, (l < nrows x)%nat ->
       item (EmbedViaMatrix embedding_dim kern x) l j = kern (aa l) j.
Proof.
  intros Hhot. split; [reflexivity|].
  intros l j Hl. unfold EmbedViaMatrix. cbn [item].
  destruct (Hhot l Hl) as [Hk Ho]. unfold np.row in Hk, Ho.
  rewrite length_map, length_seq in Hk, Ho.
  rewrite (Rsum_map_ext_seq _ (fun k => kern k j * item x l k))
    by (intros; ring).
  apply dot_onehot with (p := fun k => kern k j) (o := item x l);
    [exact Hk|].
  intros a Ha. rewrite <- (Ho a Ha). now rewrite nth_map_seq.
Qed.

Lemma EmbedViaMatrix_looks_up_kernel_rows_witness :
  item (EmbedViaMatrix 3 (fun k e => INR (k + e)) target_xent) 0 2
  = INR (0 + 2).
Proof.
  assert (H : forall l, (l < nrows target_xent)%nat ->
                onehot_at 0 (np.row target_xent l)).
  { intros l _. unfold onehot_at. simpl. split; [lia|].
    intros [|[|a]] Ha; try reflexivity; lia. }
  exact (proj2 (EmbedViaMatrix_looks_up_kernel_rows 3 1
                  (fun k e => INR (k + e)) target_xent (fun _ => 0%nat) H)
           0%nat 2%nat ltac:(simpl; lia)).
Defined.

(** ** [encode] *)


(** [encode] accepts a frame exactly when it has a record and every
    record has the shape the input layers declare, and raises a
    [ValueError] otherwise; it returns, for every record, a mean and a
    standard deviation of length [latent_dim], and no standard deviation
    is negative. *)
Theorem encode_rows (params : Params) (weights : Weights)
  (x_df : list onehot) :
  (x_df = [] \/ forallb (input_shape_ok params) x_df = false ->
   encode params weights x_df = Raise ValueError)
  /\ (x_df <> [] -> forallb (input_shape_ok params) x_df = true ->
      exists z_mean z_sd,
        encode params weights x_df = Ok (z_mean, z_sd)
        /\ length z_mean = length x_df /\ length z_sd = length x_df
        /\ forall i, (i < length x_df)%nat ->
             length (nth i z_mean []) = latent_dim params
             /\ length (nth i z_sd []) = latent_dim params
             /\ Forall (fun s => 0 <= s) (nth i z_sd [])).
Proof.
  split.
  - intros [-> | Hs]; [reflexivity | now apply encode_rejects].
  - intros Hne Hs.
    eexists _, _. split; [now apply encode_value|].
    unfold posterior_mean. rewrite length_map. split; [reflexivity|].
    split; [unfold posterior_sd; now rewrite length_map|].
    intros i Hi.
    rewrite (nth_map_in _ x_df i (mk_onehot empty_array [] []) [] Hi).
    split; [apply encoder_row_lengths|]. split.
    + unfold posterior_sd.
      rewrite (nth_map_in _ x_df i (mk_onehot empty_array [] []) [] Hi).
      rewrite length_map. apply encoder_row_lengths.
    + apply Forall_nth_in; [apply posterior_sd_nonneg|].
      unfold posterior_sd. now rewrite length_map.
Qed.

Lemma encode_rows_witness :
  encode params_graph weights_graph [] = Raise ValueError
  /\ exists z_mean z_sd,
       encode params_graph weights_graph x_graph = Ok (z_mean, z_sd)
       /\ length z_mean = 2%nat.
Proof.
  split.
  - apply (proj1 (encode_rows params_graph weights_graph [])).
    left. reflexivity.
  - destruct (proj2 (encode_rows params_graph weights_graph x_graph)
                ltac:(discriminate) eq_refl)
      as [z_mean [z_sd [H1 [H2 _]]]].
    exists z_mean, z_sd. split; assumption.
Defined.







(** ** The training graph and its batch size *)

Lemma sampling_wrong_batch (params : Params) (z_mean z_log_var : list (list R))
  (g : rng) :
  length z_log_var <> batch_size params ->
  length z_log_var <> 1%nat ->
  batch_size params <> 1%nat ->
  sampling params z_mean z_log_var g = Raise ValueError.
Proof.
  intros Hb H1 Hb1. unfold sampling.
  destruct (random_normal_advance (batch_size params) (latent_dim params)
              0 1 g) as [_ Hlen].
  destruct (K.random_normal (batch_size params) (latent_dim params) 0 1 g)
    as [epsilon g1].
  cbn [fst] in Hlen. unfold broadcast2 at 1, K.exp.
  rewrite !length_map, Hlen.
  destruct (Nat.eqb_spec (length z_log_var) (batch_size params));
    [contradiction|].
  destruct (Nat.eqb_spec (length z_log_var) 1); [contradiction|].
  destruct (Nat.eqb_spec (batch_size params) 1); [contradiction|].
  reflexivity.
Qed.

(** The noise of [sampling] has [batch_size] rows: a forward pass of [vae]
    on well-shaped records fails when their number is neither [batch_size]
    nor one (and [batch_size] is not one). *)
Theorem vae_rejects_other_batch_sizes (params : Params) (weights : Weights)
  (x : list onehot) (g : rng) :
  forallb (input_shape_ok params) x = true ->
  length x <> batch_size params ->
  length x <> 1%nat ->
  batch_size params <> 1%nat ->
  exists e, vae params weights x g = Raise e.
Proof.
  intros Hs Hb H1 Hb1. unfold vae.
  destruct (batch_size params <? 2)%nat; [now exists TypeError|].
  exists ValueError. unfold encoder. rewrite Hs. cbn [bind].
  rewrite sampling_wrong_batch; [reflexivity | | | exact Hb1];
    now rewrite length_map.
Qed.

Lemma vae_rejects_other_batch_sizes_witness :
  exists e,
    vae params_graph weights_graph
        [record_graph; record_graph; record_graph] g_graph = Raise e.
Proof.
  apply vae_rejects_other_batch_sizes;
    [reflexivity | simpl; lia | simpl; lia | simpl; lia].
Defined.

Lemma reparameterize_length (z_mean z_log_var epsilon : list (list R))
  (n : nat) :
  length z_mean = n -> length z_log_var = n -> length epsilon = n ->
  length (reparameterize z_mean z_log_var epsilon) = n.
Proof.
  intros Hm Hv He. unfold reparameterize, K.exp.
  rewrite !length_map2, !length_map. lia.
Qed.

Lemma noise_at_length (params : Params) (g : rng) :
  length (noise_at params g) = batch_size params.
Proof.
  unfold noise_at.
  now destruct (random_normal_advance (batch_size params)
                  (latent_dim params) 0 1 g).
Qed.

(** On a full batch of at least two records a forward pass of [vae]
    succeeds, reads [3 * batch_size * latent_dim] noise values, and returns
    [batch_size] records for each output; along the vocabulary axis the
    values of every one of them are not negative and sum to one. *)
Theorem vae_full_batch_outputs (params : Params) (weights : Weights)
  (x : list onehot) (g : rng) :
  forallb (input_shape_ok params) x = true ->
  length x = batch_size params ->
  (2 <= batch_size params)%nat ->
  (1 <= n_aas params)%nat -> (1 <= n_v_genes params)%nat ->
  (1 <= n_j_genes params)%nat ->
  exists cdr3 v j g',
    vae params weights x g = Ok (cdr3, v, j, g')
    /\ pos g' = (pos g + 3 * (batch_size params * latent_dim params))%nat
    /\ length cdr3 = batch_size params
    /\ length v = batch_size params
    /\ length j = batch_size params
    /\ forall i, (i < batch_size params)%nat ->
         (nrows (nth i cdr3 empty_array) = max_cdr3_len params
          /\ ncols (nth i cdr3 empty_array) = n_aas params
          /\ forall l, (l < max_cdr3_len params)%nat ->
               is_probability_vector (np.row (nth i cdr3 empty_array) l))
         /\ (length (nth i v []) = n_v_genes params
             /\ is_probability_vector (nth i v []))
         /\ (length (nth i j []) = n_j_genes params
             /\ is_probability_vector (nth i j [])).
Proof.
  intros Hs Hl Hb Ha Hv Hj.
  eexists _, _, _, _.
  split; [now apply vae_draws_noise_per_output|].
  assert (Hlen : forall h,
            length (reparameterize (posterior_mean params weights x)
                      (posterior_log_var params weights x)
                      (noise_at params h)) = batch_size params).
  { intros h. apply reparameterize_length.
    - unfold posterior_mean. now rewrite length_map.
    - unfold posterior_log_var. now rewrite length_map.
    - apply noise_at_length. }
  split; [unfold advance; simpl; lia|].
  rewrite !length_map, !Hlen. do 3 (split; [reflexivity|]).
  intros i Hi.
  rewrite (nth_map_in _ _ i [] empty_array) by now rewrite Hlen.
  rewrite !(nth_map_in _ _ i [] []) by now rewrite Hlen.
  set (z1 := nth i _ []). set (z2 := nth i _ []). set (z3 := nth i _ []).
  destruct (decoder_generator_ok params weights z1 Ha Hv Hj)
    as [A1 [A2 [A3 _]]].
  destruct (decoder_generator_ok params weights z2 Ha Hv Hj)
    as [_ [_ [_ [B1 [B2 _]]]]].
  destruct (decoder_generator_ok params weights z3 Ha Hv Hj)
    as [_ [_ [_ [_ [_ [C1 C2]]]]]].
  split.
  { split; [exact A1|]. split; [exact A2|].
    intros l Hl'. apply is_distribution_valid, A3, Hl'. }
  split; (split; [assumption | now apply is_distribution_valid]).
Qed.

Lemma vae_full_batch_outputs_witness :
  exists cdr3 v j g',
    vae params_graph weights_graph x_graph g_graph = Ok (cdr3, v, j, g')
    /\ pos g' = 6%nat /\ length v = 2%nat.
Proof.
  destruct (vae_full_batch_outputs params_graph weights_graph x_graph
              g_graph eq_refl eq_refl ltac:(simpl; lia) ltac:(simpl; lia)
              ltac:(simpl; lia) ltac:(simpl; lia))
    as [cdr3 [v [j [g' [H1 [H2 [_ [H3 _]]]]]]]].
  exists cdr3, v, j, g'. split; [exact H1|]. split; [exact H2 | exact H3].
Defined.

(** ** The loss is non-negative *)

Lemma kl_loss_entry (params : Params) (z_mean z_log_var : list (list R))
  (n i : nat) :
  has_shape n (latent_dim params) z_mean = true ->
  has_shape n (latent_dim params) z_log_var = true ->
  (i < n)%nat ->
  nth i (kl_loss params z_mean z_log_var) 0
  = spec_kl_term params (nth i z_mean []) (nth i z_log_var []).
Proof.
  intros Hm Hlv Hi.
  pose proof (has_shape_length _ _ _ Hm) as Lm.
  pose proof (has_shape_length _ _ _ Hlv) as Llv.
  pose proof (has_shape_row _ _ _ i Hm Hi) as Rm.
  pose proof (has_shape_row _ _ _ i Hlv Hi) as Rlv.
  unfold kl_loss, K.sum_last, K.sub, K.add_scalar, K.square, K.exp.
  rewrite (nth_map_in _ _ i 0 0)
    by (rewrite !length_map, !length_map2, !length_map; lia).
  rewrite (nth_map_in _ _ i 0 0)
    by (rewrite !length_map, !length_map2, !length_map; lia).
  rewrite (nth_map_in _ _ i [] 0)
    by (rewrite !length_map2, !length_map; lia).
  rewrite (nth_map2 _ _ _ i [] [])
    by (rewrite ?length_map2, ?length_map; lia).
  rewrite (nth_map2 _ _ _ i [] []) by (rewrite ?length_map; lia).
  rewrite (nth_map_in _ z_log_var i [] []) by lia.
  rewrite (nth_map_in _ z_mean i [] []) by lia.
  rewrite (nth_map_in _ z_log_var i [] []) by lia.
  rewrite (kl_row _ _ (latent_dim params) Rm Rlv).
  unfold spec_kl_term. ring.
Qed.

Lemma Rsum_nonneg_in {A : Type} (f : A -> R) (l : list A) :
  (forall a, In a l -> 0 <= f a) ->
  0 <= Rsum (map f l)
  /\ (Rsum (map f l) = 0 -> forall a, In a l -> f a = 0).
Proof.
  induction l as [|x l IH]; intros H; simpl.
  - split; [lra | contradiction].
  - pose proof (H x (or_introl eq_refl)) as Hx.
    destruct IH as [Hs Hz]; [intros a Ha; apply H; now right|].
    split; [lra|].
    intros E a [<- | Ha]; [lra | apply Hz; [lra | exact Ha]].
Qed.

Lemma Rsum_map_opp {A : Type} (f : A -> R) (l : list A) :
  Rsum (map (fun a => - f a) l) = - Rsum (map f l).
Proof. induction l as [|x l IH]; simpl; [ring | rewrite IH; ring]. Qed.

(** One term of the divergence, [exp(v) - 1 - v + m^2], is never negative,
    and is zero only at [m = 0], [v = 0]. *)
Lemma kl_term_nonneg (m v : R) :
  0 <= Rtrigo_def.exp v - 1 - v + m ^ 2
  /\ (Rtrigo_def.exp v - 1 - v + m ^ 2 = 0 -> m = 0 /\ v = 0).
Proof.
  pose proof (exp_ineq1_le v) as Hv.
  assert (Hm : 0 <= m ^ 2) by (simpl; nra).
  split; [lra|].
  intros E. split; [simpl in *; nra|].
  destruct (Req_dec v 0) as [Hz|Hz]; [exact Hz|].
  pose proof (exp_ineq1 v Hz). lra.
Qed.

Lemma spec_kl_term_as_sum (params : Params) (m lv : list R) :
  spec_kl_term params m lv
  = INR (batch_size params) / 6
    * Rsum (map (fun j => Rtrigo_def.exp (nth j lv 0) - 1 - nth j lv 0
                          + (nth j m 0) ^ 2)
                (seq 0 (latent_dim params))).
Proof.
  unfold spec_kl_term.
  replace (map (fun j => 1 + nth j lv 0 - nth j m 0 ^ 2
                         - Rtrigo_def.exp (nth j lv 0))
               (seq 0 (latent_dim params)))
    with (map (fun j => - (Rtrigo_def.exp (nth j lv 0) - 1 - nth j lv 0
                           + (nth j m 0) ^ 2))
              (seq 0 (latent_dim params)))
    by (apply map_ext; intros; ring).
  rewrite Rsum_map_opp. replace (-0.5) with (- (1 / 2)) by lra. field.
Qed.

(** The KL term of every record is non-negative, and for a positive batch
    size it is zero exactly when the posterior of the record is the prior:
    [z_mean = 0] and [z_log_var = 0] in every latent dimension. *)
Theorem kl_loss_nonneg (params : Params) (z_mean z_log_var : list (list R))
  (n i : nat) :
  has_shape n (latent_dim params) z_mean = true ->
  has_shape n (latent_dim params) z_log_var = true ->
  (i < n)%nat ->
  0 <= nth i (kl_loss params z_mean z_log_var) 0
  /\ ((1 <= batch_size params)%nat ->
      (nth i (kl_loss params z_mean z_log_var) 0 = 0
       <-> forall j, (j < latent_dim params)%nat ->
             nth j (nth i z_mean []) 0 = 0
             /\ nth j (nth i z_log_var []) 0 = 0)).
Proof.
  intros Hm Hlv Hi.
  rewrite (kl_loss_entry params z_mean z_log_var n i Hm Hlv Hi).
  rewrite spec_kl_term_as_sum.
  set (m := nth i z_mean []). set (lv := nth i z_log_var []).
  set (u := fun j => Rtrigo_def.exp (nth j lv 0) - 1 - nth j lv 0
                     + (nth j m 0) ^ 2).
  destruct (Rsum_nonneg_in u (seq 0 (latent_dim params))) as [Hs Hz].
  { intros j _. apply kl_term_nonneg. }
  pose proof (pos_INR (batch_size params)) as Hb.
  split; [apply Rmult_le_pos; lra|].
  intros HB. assert (0 < INR (batch_size params))
    by (apply lt_0_INR; lia).
  split.
  - intros E j Hj.
    assert (Hsum : Rsum (map u (seq 0 (latent_dim params))) = 0) by nra.
    apply (kl_term_nonneg (nth j m 0) (nth j lv 0)).
    apply (Hz Hsum j). apply in_seq. lia.
  - intros Hall.
    rewrite (Rsum_zero_seq u); [ring|].
    intros j Hj. unfold u. destruct (Hall j Hj) as [-> ->].
    rewrite exp_0. simpl. ring.
Qed.

Lemma kl_loss_nonneg_witness :
  0 <= nth 0 (kl_loss params_xent [[1]; [0]] [[0]; [0]]) 0.
Proof.
  exact (proj1 (kl_loss_nonneg params_xent [[1]; [0]] [[0]; [0]] 2 0
                  eq_refl eq_refl ltac:(lia))).
Defined.

Lemma ln_monotone (x y : R) : 0 < x -> x <= y -> ln x <= ln y.
Proof.
  intros Hx [Hlt | ->]; [left; now apply ln_increasing | right; reflexivity].
Qed.

Lemma epsilon_small : 0 < K.epsilon /\ K.epsilon < / 2.
Proof. unfold K.epsilon. simpl. lra. Qed.

Lemma clip_bounds (x : R) :
  K.epsilon <= K.clip x K.epsilon (1 - K.epsilon) <= 1 - K.epsilon.
Proof.
  pose proof epsilon_small as [H0 H1].
  unfold K.clip, Rmin, Rmax.
  destruct (Rle_dec x K.epsilon); destruct (Rle_dec _ (1 - K.epsilon)); lra.
Qed.

Lemma ln_epsilon : ln K.epsilon = - ln (10 ^ 7).
Proof. unfold K.epsilon. apply ln_Rinv. simpl. lra. Qed.

Lemma Rsum_nonneg_list (l : list R) :
  Forall (fun v => 0 <= v) l -> 0 <= Rsum l.
Proof. induction 1; simpl; lra. Qed.

Lemma weighted_logs_bounds (target cs : list R) :
  Forall (fun v => 0 <= v) target ->
  Forall (fun c => K.epsilon <= c <= 1 - K.epsilon) cs ->
  ln K.epsilon * Rsum target
  <= Rsum (map2 (fun t o => t * ln o) target cs) <= 0.
Proof.
  pose proof epsilon_small as [H0 H1].
  assert (He : ln K.epsilon < 0)
    by (rewrite <- ln_1; apply ln_increasing; lra).
  unfold map2. intros Ht. revert cs.
  induction Ht as [|t target Hpos Ht IH]; intros cs Hc; simpl.
  - lra.
  - pose proof (Rsum_nonneg_list target Ht) as Hs.
    destruct Hc as [|c cs [Hc1 Hc2] Hc]; simpl.
    + nra.
    + specialize (IH cs Hc).
      assert (ln K.epsilon <= ln c) by (apply ln_monotone; lra).
      assert (ln c < 0) by (rewrite <- ln_1; apply ln_increasing; lra).
      nra.
Qed.

Lemma crossentropy_bounds (target output : list R) :
  Forall (fun v => 0 <= v) target ->
  0 <= K.categorical_crossentropy target output
  <= ln (10 ^ 7) * Rsum target.
Proof.
  intros Ht. unfold K.categorical_crossentropy.
  set (cs := map _ (map _ output)).
  assert (Hc : Forall (fun c => K.epsilon <= c <= 1 - K.epsilon) cs).
  { unfold cs. rewrite map_map. apply Forall_forall. intros c Hin.
    apply in_map_iff in Hin. destruct Hin as [o [<- _]]. apply clip_bounds. }
  pose proof (weighted_logs_bounds target cs Ht Hc) as H.
  rewrite ln_epsilon in H. lra.
Qed.

Lemma mean_bounds (M : R) (l : list R) :
  0 <= M -> Forall (fun v => 0 <= v <= M) l -> 0 <= K.mean l <= M.
Proof.
  intros HM Hl. unfold K.mean.
  assert (H : 0 <= Rsum l <= INR (length l) * M).
  { induction Hl as [|v l Hv Hl IH]; [simpl; lra|].
    change (length (v :: l)) with (S (length l)). rewrite S_INR.
    simpl. lra. }
  destruct l as [|v l].
  - simpl. unfold Rdiv. rewrite Rmult_0_l. lra.
  - assert (Hn : 0 < INR (length (v :: l))) by (apply lt_0_INR; simpl; lia).
    split.
    + apply Rmult_le_pos; [lra | left; now apply Rinv_0_lt_compat].
    + apply Rmult_le_reg_r with (r := INR (length (v :: l))); [exact Hn|].
      unfold Rdiv. rewrite Rmult_assoc, Rinv_l by lra. lra.
Qed.

(** A target tensor whose vocabulary rows are non-negative and sum to at
    most one, as one-hot rows do. *)
Lemma crossentropy_tensor_bounds (io_encoder io_decoder : list (ndarray2 R)) :
  Forall (fun t => forall l, Forall (fun v => 0 <= v) (np.row t l)
                             /\ Rsum (np.row t l) <= 1) io_encoder ->
  Forall (fun v => 0 <= v <= ln (10 ^ 7))
         (categorical_crossentropy io_encoder io_decoder).
Proof.
  intros Ht. unfold categorical_crossentropy.
  assert (Hln : 0 <= ln (10 ^ 7)).
  { rewrite <- ln_1. apply ln_monotone; simpl; lra. }
  apply Forall_forall. intros v Hv. apply in_flat_map in Hv.
  destruct Hv as [[t o] [Hin Hv]]. cbn [fst snd] in Hv.
  apply in_map_iff in Hv. destruct Hv as [l [<- _]].
  apply in_combine_l in Hin. rewrite Forall_forall in Ht.
  destruct (Ht t Hin l) as [Hpos Hsum].
  pose proof (crossentropy_bounds (np.row t l) (np.row o l) Hpos). nra.
Qed.

(** The reconstruction term lies between zero and [log(1e7)] per element
    of the decoded tensor, whatever the decoder predicts: Keras clips the
    predicted probabilities into [[1e-7, 1 - 1e-7]] before taking logs. *)
Theorem xent_loss_bounds (io_encoder io_decoder : list (ndarray2 R)) :
  Forall (fun t => forall l, Forall (fun v => 0 <= v) (np.row t l)
                             /\ Rsum (np.row t l) <= 1) io_encoder ->
  0 <= xent_loss io_encoder io_decoder
  <= INR (num_elements io_decoder) * ln (10 ^ 7).
Proof.
  intros Ht. unfold xent_loss.
  assert (Hln : 0 <= ln (10 ^ 7)).
  { rewrite <- ln_1. apply ln_monotone; simpl; lra. }
  pose proof (mean_bounds _ _ Hln
                (crossentropy_tensor_bounds io_encoder io_decoder Ht)) as H.
  pose proof (pos_INR (num_elements io_decoder)). nra.
Qed.

Lemma xent_loss_bounds_witness :
  0 <= xent_loss [target_xent; target_xent] [uniform_xent; uniform_xent]
  <= INR 4 * ln (10 ^ 7).
Proof.
  apply (xent_loss_bounds [target_xent; target_xent]
                          [uniform_xent; uniform_xent]).
  repeat constructor; simpl; lra.
Defined.

Lemma spec_kl_term_nonneg (params : Params) (m lv : list R) :
  0 <= spec_kl_term params m lv.
Proof.
  rewrite spec_kl_term_as_sum.
  destruct (Rsum_nonneg_in
              (fun j => Rtrigo_def.exp (nth j lv 0) - 1 - nth j lv 0
                        + (nth j m 0) ^ 2)
              (seq 0 (latent_dim params))) as [Hs _].
  { intros j _. apply kl_term_nonneg. }
  pose proof (pos_INR (batch_size params)).
  apply Rmult_le_pos; lra.
Qed.

(** [vae_loss] returns one loss per record of the batch, and none of them
    is negative. *)
Theorem vae_loss_nonneg (params : Params) (z_mean z_log_var : list (list R))
  (io_encoder io_decoder : list (ndarray2 R)) (n i : nat) :
  Forall (fun t => forall l, Forall (fun v => 0 <= v) (np.row t l)
                             /\ Rsum (np.row t l) <= 1) io_encoder ->
  has_shape n (latent_dim params) z_mean = true ->
  has_shape n (latent_dim params) z_log_var = true ->
  (i < n)%nat ->
  length (vae_loss params z_mean z_log_var io_encoder io_decoder) = n
  /\ 0 <= nth i (vae_loss params z_mean z_log_var io_encoder io_decoder) 0.
Proof.
  intros Ht Hm Hlv Hi.
  assert (Hlen : length (kl_loss params z_mean z_log_var) = n).
  { pose proof (has_shape_length _ _ _ Hm).
    pose proof (has_shape_length _ _ _ Hlv).
    unfold kl_loss, K.sum_last, K.sub, K.add_scalar, K.square, K.exp.
    rewrite !length_map, !length_map2, !length_map. lia. }
  unfold vae_loss. rewrite length_map. split; [exact Hlen|].
  rewrite (nth_map_in _ _ i 0 0) by lia.
  rewrite (kl_loss_entry params z_mean z_log_var n i Hm Hlv Hi).
  pose proof (spec_kl_term_nonneg params (nth i z_mean [])
                (nth i z_log_var [])) as Hkl.
  assert (Hln : 0 <= ln (10 ^ 7)).
  { rewrite <- ln_1. apply ln_monotone; simpl; lra. }
  pose proof (mean_bounds _ _ Hln
                (crossentropy_tensor_bounds io_encoder io_decoder Ht)) as Hx.
  pose proof (pos_INR (num_elements io_decoder)).
  unfold xent_loss. nra.
Qed.

Lemma vae_loss_nonneg_witness :
  0 <= nth 0 (vae_loss params_xent [[1]; [0]] [[0]; [0]]
                [target_xent; target_xent] [uniform_xent; uniform_xent]) 0.
Proof.
  refine (proj2 (vae_loss_nonneg params_xent [[1]; [0]] [[0]; [0]]
                   [target_xent; target_xent] [uniform_xent; uniform_xent]
                   2 0 _ eq_refl eq_refl ltac:(lia))).
  repeat constructor; simpl; lra.
Defined.

(** ** [logprob_of_obs_vect] is a log-probability *)





(** ** [get_data] leaves a well-sized frame whole *)

(** A frame whose length is a multiple of a positive [data_chunk_size] (and
    at least one chunk long) is converted whole; so is any frame when
    [data_chunk_size] is negative, for then the assertion cannot fail and
    the slice reaches past the end. *)
Theorem get_data_keeps_whole_frame (params : Params)
  (unpadded_tcrbs_to_onehot : list tcrb -> nat -> result (list onehot))
  (df : list tcrb) (data_chunk_size : Z) :
  (data_chunk_size < 0
   \/ (0 < data_chunk_size <= Z.of_nat (length df)
       /\ Z.of_nat (length df) mod data_chunk_size = 0))%Z ->
  get_data params unpadded_tcrbs_to_onehot df data_chunk_size
  = unpadded_tcrbs_to_onehot df (max_cdr3_len params).
Proof.
  intros H. unfold get_data.
  pose proof (Zle_0_nat (length df)) as Hlen.
  assert (Hc : (data_chunk_size <> 0
                /\ data_chunk_size <= Z.of_nat (length df))%Z)
    by (destruct H as [Hneg | [Hpos _]]; lia).
  assert (Hn : (Z.of_nat (length df)
                <= Z.of_nat (length df)
                   - Z.of_nat (length df) mod data_chunk_size)%Z).
  { destruct H as [Hneg | [_ ->]]; [|lia].
    pose proof (Z.mod_neg_bound (Z.of_nat (length df)) data_chunk_size Hneg).
    lia. }
  destruct (Z.eqb_spec data_chunk_size 0) as [E|_]; [lia|].
  destruct (Z.geb_spec (Z.of_nat (length df)) data_chunk_size) as [_|E];
    [|lia].
  rewrite py_slice_to_nonneg by lia.
  rewrite firstn_all2 by lia.
  reflexivity.
Qed.

Lemma get_data_keeps_whole_frame_witness :
  get_data params_xent convert_rowwise df_five 5
  = convert_rowwise df_five (max_cdr3_len params_xent).
Proof.
  apply get_data_keeps_whole_frame. right. simpl. split; [lia | reflexivity].
Defined.

(** ** [generate]: failures and prefixes *)

(** [generate] divides by the batch size before anything else, and asks
    numpy for a negative number of rows when [n_seqs <= - batch_size]. *)
Theorem generate_rejects (params : Params) (weights : Weights)
  (onehot_to_padded_seq : ndarray2 R -> string)
  (onehot_to_vgene onehot_to_jgene : list R -> string) (n : Z) (g : rng) :
  (batch_size params = 0%nat ->
   generate params weights onehot_to_padded_seq onehot_to_vgene
            onehot_to_jgene n g = Raise ZeroDivisionError)
  /\ ((1 <= batch_size params)%nat ->
      (n <= - Z.of_nat (batch_size params))%Z ->
      generate params weights onehot_to_padded_seq onehot_to_vgene
               onehot_to_jgene n g = Raise ValueError).
Proof.
  unfold generate. split.
  - intros ->. reflexivity.
  - intros Hb Hn.
    set (b := Z.of_nat (batch_size params)) in *.
    assert (Hbpos : (0 < b)%Z) by (unfold b; lia).
    destruct (Z.eqb_spec b 0) as [E|_]; [lia|].
    assert (Hk : (b * ceil_div n b < 0)%Z).
    { unfold ceil_div.
      assert (1 <= (- n) / b)%Z by (apply Z.div_le_lower_bound; lia).
      nia. }
    destruct (Z.ltb_spec (b * ceil_div n b) 0) as [_|E]; [reflexivity | lia].
Qed.

Lemma onehot_to_tcrbs_firstn (f : ndarray2 R -> string)
  (fv fj : list R -> string) (n : nat) (a : list (ndarray2 R))
  (v j : list (list R)) :
  onehot_to_tcrbs f fv fj (firstn n a) (firstn n v) (firstn n j)
  = firstn n (onehot_to_tcrbs f fv fj a v j).
Proof.
  unfold onehot_to_tcrbs. now rewrite firstn_map, !combine_firstn.
Qed.

Lemma generate_value (params : Params) (weights : Weights)
  (onehot_to_padded_seq : ndarray2 R -> string)
  (onehot_to_vgene onehot_to_jgene : list R -> string) (n : Z) (g : rng) :
  (1 <= n)%Z -> (1 <= batch_size params)%nat ->
  let b := Z.of_nat (batch_size params) in
  let z_sample :=
    fst (standard_normal (Z.to_nat (b * ceil_div n b)) (latent_dim params)
                         g) in
  exists g',
    generate params weights onehot_to_padded_seq onehot_to_vgene
             onehot_to_jgene n g
    = Ok (firstn (Z.to_nat n)
            (onehot_to_tcrbs onehot_to_padded_seq onehot_to_vgene
               onehot_to_jgene
               (map (fun z => decoder_generator_CDR3 params weights
                                (map (fun x => 0 + 1 * x) z)) z_sample)
               (map (fun z => decoder_generator_Vgene params weights
                                (map (fun x => 0 + 1 * x) z)) z_sample)
               (map (fun z => decoder_generator_Jgene params weights
                                (map (fun x => 0 + 1 * x) z)) z_sample)),
          g').
Proof.
  intros Hn Hb b z_sample.
  assert (Hbpos : (0 < b)%Z) by (unfold b; lia).
  destruct (ceil_div_spec n b Hbpos) as [Hrange _].
  unfold generate. fold b.
  destruct (Z.eqb_spec b 0) as [E|_]; [lia|].
  destruct (Z.ltb_spec (b * ceil_div n b) 0) as [E|_]; [lia|].
  destruct (np_random_normal_shape 0 1 (Z.to_nat (b * ceil_div n b))
              (latent_dim params) g) as [Hlen [Hshape _]].
  unfold np_random_normal in *. fold z_sample in Hshape |- *.
  destruct (standard_normal (Z.to_nat (b * ceil_div n b))
              (latent_dim params) g) as [e g0] eqn:E.
  subst z_sample. cbn [fst snd] in *.
  unfold decode. rewrite decoder_batch;
    [| intros E0; rewrite E0 in Hlen; simpl in Hlen; lia | exact Hshape].
  cbn [bind].
  rewrite !py_slice_to_nonneg by lia.
  exists g0. f_equal. f_equal.
  rewrite onehot_to_tcrbs_firstn, !map_map. reflexivity.
Qed.

Lemma firstn_seq_le (k1 k2 start : nat) :
  (k1 <= k2)%nat -> firstn k1 (seq start k2) = seq start k1.
Proof.
  revert k2 start. induction k1 as [|k1 IH]; intros [|k2] start H;
    simpl; try reflexivity; try lia.
  f_equal. apply IH. lia.
Qed.

Lemma standard_normal_prefix (k1 k2 cols : nat) (g : rng) :
  (k1 <= k2)%nat ->
  fst (standard_normal k1 cols g)
  = firstn k1 (fst (standard_normal k2 cols g)).
Proof.
  intros H. unfold standard_normal. cbn [fst].
  now rewrite firstn_map, firstn_seq_le.
Qed.

Lemma ceil_div_monotone (n m b : Z) :
  (0 < b)%Z -> (n <= m)%Z -> (b * ceil_div n b <= b * ceil_div m b)%Z.
Proof.
  intros Hb Hnm. unfold ceil_div.
  assert ((- m) / b <= (- n) / b)%Z by (apply Z.div_le_mono; lia).
  nia.
Qed.

(** From one state of the generator, a shorter request returns a prefix
    of a longer one: the records of [generate(n)] are the first [n] records
    of [generate(m)] for [1 <= n <= m]. *)
Theorem generate_prefix (params : Params) (weights : Weights)
  (onehot_to_padded_seq : ndarray2 R -> string)
  (onehot_to_vgene onehot_to_jgene : list R -> string) (n m : Z) (g : rng) :
  (1 <= n <= m)%Z -> (1 <= batch_size params)%nat ->
  exists records_n records_m g_n g_m,
    generate params weights onehot_to_padded_seq onehot_to_vgene
             onehot_to_jgene n g = Ok (records_n, g_n)
    /\ generate params weights onehot_to_padded_seq onehot_to_vgene
                onehot_to_jgene m g = Ok (records_m, g_m)
    /\ records_n = firstn (Z.to_nat n) records_m.
Proof.
  intros [Hn Hnm] Hb.
  destruct (generate_value params weights onehot_to_padded_seq
              onehot_to_vgene onehot_to_jgene n g Hn Hb) as [g_n En].
  destruct (generate_value params weights onehot_to_padded_seq
              onehot_to_vgene onehot_to_jgene m g ltac:(lia) Hb)
    as [g_m Em].
  cbv zeta in En, Em.
  set (b := Z.of_nat (batch_size params)) in *.
  assert (Hbpos : (0 < b)%Z) by (unfold b; lia).
  destruct (ceil_div_spec n b Hbpos) as [Hrn _].
  destruct (ceil_div_spec m b Hbpos) as [Hrm _].
  pose proof (ceil_div_monotone n m b Hbpos Hnm) as Hmono.
  eexists _, _, g_n, g_m. split; [exact En|]. split; [exact Em|].
  rewrite firstn_firstn, Nat.min_l by lia.
  rewrite (standard_normal_prefix (Z.to_nat (b * ceil_div n b))
             (Z.to_nat (b * ceil_div m b))) by lia.
  rewrite <- !onehot_to_tcrbs_firstn, <- !firstn_map, !firstn_firstn.
  replace (Nat.min (Z.to_nat n) (Z.to_nat (b * ceil_div n b)))
    with (Z.to_nat n) by lia.
  reflexivity.
Qed.

Lemma generate_rejects_witness :
  generate (mk_Params 1 1 1 1 1 1 2 1 1 0 1 1) weights_graph (no_name _)
           (no_name _) (no_name _) 5 g_graph = Raise ZeroDivisionError
  /\ generate params_xent weights_graph (no_name _) (no_name _) (no_name _)
              (-2) g_graph = Raise ValueError.
Proof.
  split.
  - apply (proj1 (generate_rejects (mk_Params 1 1 1 1 1 1 2 1 1 0 1 1)
                    weights_graph (no_name _) (no_name _) (no_name _) 5
                    g_graph)).
    reflexivity.
  - apply (proj2 (generate_rejects params_xent weights_graph (no_name _)
                    (no_name _) (no_name _) (-2) g_graph));
      simpl; lia.
Defined.

Lemma generate_prefix_witness :
  exists records_n records_m g_n g_m,
    generate params_xent weights_graph (no_name _) (no_name _) (no_name _)
             1 g_graph = Ok (records_n, g_n)
    /\ generate params_xent weights_graph (no_name _) (no_name _)
                (no_name _) 3 g_graph = Ok (records_m, g_m)
    /\ records_n = firstn 1 records_m.
Proof.
  apply (generate_prefix params_xent weights_graph (no_name _) (no_name _)
           (no_name _) 1 3 g_graph); simpl; lia.
Defined.

(** ** [log_p_of_x_importance_sample]: failures, output array and noise *)

(** The assertion on the length of [out_ps] comes first: it fails whatever
    the records look like; with the right length, a record of another
    shape than the input layers declare makes the encoder refuse the
    frame. *)
Theorem log_p_of_x_importance_sample_rejects (params : Params)
  (weights : Weights) (x_df : list onehot) (out_ps : list num) (g : rng) :
  (length x_df <> length out_ps ->
   log_p_of_x_importance_sample params weights x_df out_ps g
   = Raise AssertionError)
  /\ (length x_df = length out_ps ->
      forallb (input_shape_ok params) x_df = false ->
      log_p_of_x_importance_sample params weights x_df out_ps g
      = Raise ValueError).
Proof.
  unfold log_p_of_x_importance_sample. split.
  - intros H. destruct (Nat.eqb_spec (length x_df) (length out_ps));
      [contradiction | reflexivity].
  - intros -> Hs. rewrite Nat.eqb_refl.
    now rewrite (encode_rejects params weights x_df Hs).
Qed.

Lemma log_p_of_x_importance_sample_rejects_witness :
  log_p_of_x_importance_sample params_graph weights_graph x_graph [Fin 0]
                               g_graph
  = Raise AssertionError
  /\ log_p_of_x_importance_sample params_graph weights_graph
       [onehot_example] [Fin 0] g_graph
     = Raise ValueError.
Proof.
  split.
  - apply (proj1 (log_p_of_x_importance_sample_rejects params_graph
                    weights_graph x_graph [Fin 0] g_graph)).
    simpl. lia.
  - apply (proj2 (log_p_of_x_importance_sample_rejects params_graph
                    weights_graph [onehot_example] [Fin 0] g_graph));
      reflexivity.
Defined.

(** On a well-shaped frame of at least two records whose standard
    deviations have not underflowed, the call overwrites every slot of
    [out_ps]: what it returns does not depend on what the array held, it
    has one entry per record, and the generator has moved on by
    [len(x_df) * latent_dim] values. *)
Theorem log_p_of_x_importance_sample_overwrites (params : Params)
  (weights : Weights) (x_df : list onehot) (out_ps out_ps' : list num)
  (g : rng) :
  forallb (input_shape_ok params) x_df = true ->
  (2 <= length x_df)%nat -> (1 <= latent_dim params)%nat ->
  positive_sd params weights x_df ->
  length x_df = length out_ps ->
  length x_df = length out_ps' ->
  exists out,
    log_p_of_x_importance_sample params weights x_df out_ps g
    = Ok (out, advance g (length x_df * latent_dim params))
    /\ log_p_of_x_importance_sample params weights x_df out_ps' g
       = Ok (out, advance g (length x_df * latent_dim params))
    /\ length out = length x_df.
Proof.
  intros Hs Hn Hd Hsd H1 H2.
  eexists. split; [|split].
  - exact (log_p_of_x_importance_sample_ok params weights x_df g Hs Hn Hd
             Hsd out_ps H1).
  - exact (log_p_of_x_importance_sample_ok params weights x_df g Hs Hn Hd
             Hsd out_ps' H2).
  - now rewrite length_map, length_seq.
Qed.

Lemma log_p_of_x_importance_sample_overwrites_witness :
  exists out g',
    log_p_of_x_importance_sample params_graph weights_graph x_graph
                                 [Fin 0; Fin 0] g_graph = Ok (out, g')
    /\ log_p_of_x_importance_sample params_graph weights_graph x_graph
                                    [NaN; PInf] g_graph = Ok (out, g').
Proof.
  destruct (log_p_of_x_importance_sample_overwrites params_graph
              weights_graph x_graph [Fin 0; Fin 0] [NaN; PInf] g_graph
              eq_refl ltac:(simpl; lia) ltac:(simpl; lia)
              (zero_log_var_positive_sd params_graph weights_graph
                 x_graph zeroW_zero)
              eq_refl eq_refl)
    as [out [H1 [H2 _]]].
  eexists out, _. split; [exact H1 | exact H2].
Defined.

(** ** A posterior that equals the prior *)

Lemma combine_prior (z : list R) :
  combine (combine z (repeat 0 (length z))) (repeat 1 (length z))
  = map (fun x => (x, 0, 1)) z.
Proof. induction z as [|x z IH]; simpl; [reflexivity | now rewrite IH]. Qed.

Section PriorPosterior.

Variable params : Params.
Variable weights : Weights.
Variable x_df : list onehot.
Variable g : rng.

Hypothesis shapes_ok : forallb (input_shape_ok params) x_df = true.
Hypothesis two_records : (2 <= length x_df)%nat.
Hypothesis latent_pos : (1 <= latent_dim params)%nat.
Hypothesis mean_zero : zero_weights (W_z_mean weights).
Hypothesis log_var_zero : zero_weights (W_z_log_var weights).

Lemma prior_mean_row (i : nat) :
  (i < length x_df)%nat ->
  nth i (posterior_mean params weights x_df) []
  = repeat 0 (latent_dim params).
Proof.
  intros Hi. unfold posterior_mean.
  rewrite (nth_map_in _ x_df i (mk_onehot empty_array [] []) [] Hi).
  unfold encoder_row. cbn [fst]. now apply Dense_zero_weights.
Qed.

(** When the encoder's [z_mean] and [z_log_var] layers are zero, so that
    the posterior of every sequence is the standard normal prior, the
    importance weight [log p(z) - log q(z|x)] vanishes and the estimate
    stored for a one-hot sequence of a batch of at least two is
    [log p(x|z)] alone. *)
Theorem importance_weight_vanishes_at_prior (out_ps : list num)
  (aa : nat -> nat -> nat) (vg jg : nat -> nat) :
  length x_df = length out_ps ->
  (forall i, (i < length x_df)%nat ->
     encodes (nth i x_df (mk_onehot empty_array [] []))
             (aa i) (vg i) (jg i)) ->
  exists out g',
    log_p_of_x_importance_sample params weights x_df out_ps g = Ok (out, g')
    /\ forall i, (i < length x_df)%nat ->
         let z := nth i (posterior_sample params weights x_df g) [] in
         nth i out NaN
         = Fin (spec_log_p_x_given_z
                  (decoder_generator_CDR3 params weights z)
                  (decoder_generator_Vgene params weights z)
                  (decoder_generator_Jgene params weights z)
                  (aa i) (vg i) (jg i)).
Proof.
  intros Hlen Hhot.
  assert (Hsd : positive_sd params weights x_df)
    by now apply zero_log_var_positive_sd.
  eexists _, _.
  split; [now apply log_p_of_x_importance_sample_ok|].
  intros i Hi z.
  set (d := mk_onehot empty_array [] []) in *.
  rewrite nth_map_seq by exact Hi.
  unfold importance_sample_at.
  assert (Hiz : (i < length (posterior_sample params weights x_df g))%nat)
    by now rewrite z_sample_length.
  rewrite (nth_map_in _ _ i [] empty_array Hiz).
  rewrite !(nth_map_in _ _ i [] [] Hiz).
  rewrite (nth_map_in _ x_df i d empty_array Hi).
  rewrite !(nth_map_in _ x_df i d [] Hi).
  fold z.
  destruct (input_shape_ok_nth params x_df shapes_ok i d Hi)
    as [Hr [Hc [Hv Hj]]].
  destruct (Hhot i Hi) as [Haa [Hvg Hjg]].
  assert (Hz : length z = latent_dim params)
    by (unfold z; now apply z_sample_row_length).
  rewrite (prior_mean_row i Hi).
  rewrite (zero_log_var_sd_row params weights x_df i log_var_zero Hi).
  rewrite <- Hz.
  rewrite combine_prior, map_map. cbn [fst snd].
  rewrite (logprob_of_obs_vect_onehot _ _ (aa i)).
  - rewrite (log_gene_onehot _ _ (vg i));
      [| unfold decoder_generator_Vgene, decoder_out_Vgene;
         rewrite Dense_length; now rewrite Hv
       | exact Hvg | apply Dense_softmax_pos].
    rewrite (log_gene_onehot _ _ (jg i));
      [| unfold decoder_generator_Jgene, decoder_out_Jgene;
         rewrite Dense_length; now rewrite Hj
       | exact Hjg | apply Dense_softmax_pos].
    rewrite log_p_z_Fin.
    unfold spec_log_p_x_given_z. simpl. f_equal. ring.
  - split; simpl; congruence.
  - intros l a _ Ha. apply Activation_softmax_pos. exact Ha.
  - exact Haa.
Qed.

End PriorPosterior.

Lemma importance_weight_vanishes_at_prior_witness :
  exists out g' r,
    log_p_of_x_importance_sample params_graph weights_graph x_graph
                                 [Fin 0; Fin 0] g_graph = Ok (out, g')
    /\ nth 0 out NaN = Fin r.
Proof.
  destruct (importance_weight_vanishes_at_prior params_graph weights_graph
              x_graph g_graph eq_refl ltac:(simpl; lia) ltac:(simpl; lia)
              zeroW_zero zeroW_zero [Fin 0; Fin 0]
              (fun _ _ => 0%nat) (fun _ => 0%nat) (fun _ => 0%nat)
              eq_refl x_graph_encodes)
    as [out [g' [H1 H2]]].
  eexists out, g', _. split; [exact H1|].
  apply (H2 0%nat). simpl. lia.
Defined.

(** On a frame of at least two records whose standard deviations have not
    underflowed, the [nsamples] calls of [importance] read disjoint
    stretches of the noise: sample [i] is the array one call returns from
    the generator advanced by [i * len(x_df) * latent_dim] values, and the
    loop leaves the generator advanced by
    [nsamples * len(x_df) * latent_dim]. *)
Theorem importance_samples_use_fresh_noise (params : Params)
  (weights : Weights) (x_df : list onehot) (nsamples : nat) (g : rng) :
  forallb (input_shape_ok params) x_df = true ->
  (2 <= length x_df)%nat -> (1 <= latent_dim params)%nat ->
  positive_sd params weights x_df ->
  exists log_p_x g',
    importance_samples params weights x_df nsamples g = Ok (log_p_x, g')
    /\ length log_p_x = nsamples
    /\ tape g' = tape g
    /\ pos g'
       = (pos g + nsamples * (length x_df * latent_dim params))%nat
    /\ forall i, (i < nsamples)%nat ->
         exists h,
           tape h = tape g
           /\ pos h = (pos g + i * (length x_df * latent_dim params))%nat
           /\ log_p_of_x_importance_sample params weights x_df
                (repeat (Fin 0) (length x_df)) h
              = Ok (nth i log_p_x [],
                    advance h (length x_df * latent_dim params)).
Proof.
  intros Hs H2 Hd Hsd.
  eexists _, _.
  split; [now apply importance_samples_value|].
  split; [apply importance_sample_rows_length|].
  split; [reflexivity|]. split; [reflexivity|].
  intros i Hi.
  destruct (importance_sample_rows_nth params weights x_df nsamples g i Hi)
    as [h [Ht [Hp Hn]]].
  exists h. split; [exact Ht|]. split; [exact Hp|].
  rewrite Hn. apply log_p_of_x_importance_sample_row; try assumption.
  now rewrite repeat_length.
Qed.

Lemma importance_samples_use_fresh_noise_witness :
  exists log_p_x g',
    importance_samples params_graph weights_graph x_graph 3 g_graph
    = Ok (log_p_x, g')
    /\ length log_p_x = 3%nat /\ pos g' = 6%nat.
Proof.
  destruct (importance_samples_use_fresh_noise params_graph weights_graph
              x_graph 3 g_graph eq_refl ltac:(simpl; lia)
              ltac:(simpl; lia)
              (zero_log_var_positive_sd params_graph weights_graph
                 x_graph zeroW_zero))
    as [m [g' [H1 [H2 [_ [H3 _]]]]]].
  exists m, g'. split; [exact H1|]. split; [exact H2 | exact H3].
Defined.

(** On a frame of at least two records that the conversion accepts, whose
    records have the declared shape and whose standard deviations have not
    underflowed, [importance] with at least one sample raises nothing and
    returns one estimate per sequence, the log-sum-exp of the samples of
    the sequence minus [log nsamples]; it reads
    [nsamples * len(df_x) * latent_dim] noise values. *)
Theorem importance_returns_estimates (params : Params) (weights : Weights)
  (unpadded_tcrbs_to_onehot : list tcrb -> nat -> result (list onehot))
  (limit_input_to : option Z) (nsamples : nat) (test_csv : list tcrb)
  (g : rng) (df : list onehot) :
  (1 <= nsamples)%nat ->
  get_data params unpadded_tcrbs_to_onehot test_csv 0 = Ok df ->
  forallb (input_shape_ok params) (limited limit_input_to df) = true ->
  (2 <= length (limited limit_input_to df))%nat ->
  (1 <= latent_dim params)%nat ->
  positive_sd params weights (limited limit_input_to df) ->
  exists avg,
    importance params weights unpadded_tcrbs_to_onehot limit_input_to
               nsamples test_csv g
    = Ok (avg,
          advance g (nsamples * (length (limited limit_input_to df)
                                 * latent_dim params)))
    /\ length avg = length (limited limit_input_to df)
    /\ forall j, (j < length (limited limit_input_to df))%nat ->
         nth j avg NaN
         = (logsumexp
              (map (fun r => nth j r NaN)
                   (importance_sample_rows params weights
                      (limited limit_input_to df) nsamples g))
            - Num.log (Fin (INR nsamples)))%num.
Proof.
  intros HN Hdata Hs H2 Hd Hsd.
  unfold importance. rewrite Hdata. cbn [bind].
  fold (limited limit_input_to df).
  rewrite (importance_samples_value params weights _ nsamples g Hs H2 Hd
             Hsd).
  cbn [bind].
  destruct (log_mean_exp_value
              (importance_sample_rows params weights
                 (limited limit_input_to df) nsamples g)
              (length (limited limit_input_to df)) nsamples)
    as [avg [Havg [Hlen Hcol]]].
  { intros E. apply (f_equal (@length _)) in E.
    rewrite importance_sample_rows_length in E. simpl in E. lia. }
  rewrite Havg. cbn [bind]. exists avg.
  split; [reflexivity|]. split; [exact Hlen | exact Hcol].
Qed.

Lemma importance_returns_estimates_witness :
  exists avg g',
    importance params_graph weights_graph convert_graph (Some 2%Z) 2 []
               g_graph = Ok (avg, g')
    /\ length avg = 2%nat /\ pos g' = 4%nat.
Proof.
  destruct (importance_returns_estimates params_graph weights_graph
              convert_graph (Some 2%Z) 2 [] g_graph x_graph
              ltac:(lia) eq_refl eq_refl ltac:(simpl; lia)
              ltac:(simpl; lia)
              (zero_log_var_positive_sd params_graph weights_graph
                 (limited (Some 2%Z) x_graph) zeroW_zero))
    as [avg [H1 [H2 _]]].
  eexists avg, _. split; [exact H1|]. split; [exact H2 | reflexivity].
Defined.

(** With [--nsamples 0] there is nothing to take a maximum of: on a
    non-empty frame [special.logsumexp] raises, and [importance] writes no
    estimates. *)
Theorem importance_needs_a_sample (params : Params) (weights : Weights)
  (unpadded_tcrbs_to_onehot : list tcrb -> nat -> result (list onehot))
  (limit_input_to : option Z) (test_csv : list tcrb) (g : rng)
  (df : list onehot) :
  get_data params unpadded_tcrbs_to_onehot test_csv 0 = Ok df ->
  limited limit_input_to df <> [] ->
  importance params weights unpadded_tcrbs_to_onehot limit_input_to 0
             test_csv g
  = Raise ValueError.
Proof.
  intros Hdata _. unfold importance. rewrite Hdata. reflexivity.
Qed.

Lemma importance_needs_a_sample_witness :
  importance params_graph weights_graph convert_graph None 0 [] g_graph
  = Raise ValueError.
Proof.
  apply (importance_needs_a_sample params_graph weights_graph convert_graph
           None [] g_graph x_graph eq_refl).
  discriminate.
Defined.



(** [special.logsumexp(log_p_x, axis=0) - np.log(nsamples)] on finite
    values is, as the comment in [importance] says, the logarithm of the
    mean of the numbers given in log space: taking the maximum out of the
    sum changes nothing. *)
Theorem log_mean_exp_is_log_of_mean (vals : list (list R))
  (n nsamples j : nat) :
  (1 <= nsamples)%nat ->
  length vals = nsamples ->
  Forall (fun r => length r = n) vals ->
  (j < n)%nat ->
  exists avg,
    log_mean_exp (map (map Fin) vals) n nsamples = Ok avg
    /\ length avg = n
    /\ nth j avg NaN
       = Fin (ln (Rsum (map (fun r => Rtrigo_def.exp (nth j r 0)) vals)
                  / INR nsamples)).
Proof.
  intros HN Hlen Hrows Hj.
  assert (Hne : vals <> []) by (intros ->; simpl in Hlen; lia).
  assert (HposN : 0 < INR nsamples) by (apply lt_0_INR; lia).
  unfold log_mean_exp, logsumexp_axis0.
  destruct (map (map Fin) vals) eqn:E2;
    [apply map_eq_nil in E2; contradiction|].
  rewrite <- E2. cbn [bind].
  eexists. split; [reflexivity|].
  split; [now rewrite !length_map, length_seq|].
  rewrite map_map, nth_map_seq by exact Hj.
  rewrite map_map.
  rewrite (map_ext_in _ (fun r => Fin (nth j r 0))).
  2:{ intros r Hr. rewrite Forall_forall in Hrows.
      specialize (Hrows r Hr).
      rewrite (nth_map_in Fin r j 0 NaN) by lia. reflexivity. }
  rewrite <- (map_map (fun r => nth j r 0) Fin).
  rewrite logsumexp_Fin.
  2:{ intros H. apply map_eq_nil in H. contradiction. }
  rewrite map_map.
  rewrite Num_log_pos by exact HposN.
  simpl. f_equal.
  pose proof (Rsum_exp_pos (fun r => nth j r 0) vals Hne) as Hpos.
  unfold Rdiv. rewrite ln_mult;
    [| exact Hpos | now apply Rinv_0_lt_compat].
  rewrite ln_Rinv by exact HposN. ring.
Qed.

Lemma log_mean_exp_is_log_of_mean_witness :
  exists avg,
    log_mean_exp (map (map Fin) [[0; 1]; [2; 3]]) 2 2 = Ok avg
    /\ length avg = 2%nat
    /\ nth 1 avg NaN
       = Fin (ln (Rsum (map (fun r => Rtrigo_def.exp (nth 1 r 0))
                            [[0; 1]; [2; 3]]) / INR 2)).
Proof.
  apply (log_mean_exp_is_log_of_mean [[0; 1]; [2; 3]] 2 2 1).
  - lia.
  - reflexivity.
  - repeat constructor.
  - lia.
Defined.

(** ** A standard deviation that has underflowed *)

Lemma add_NaN_r (a : num) : (a + NaN)%num = NaN.
Proof. destruct a; reflexivity. Qed.

Lemma np_sum_NaN (l : list num) : In NaN l -> np.sum l = NaN.
Proof.
  induction l as [|a l IH]; intros H; [contradiction|].
  change (np.sum (a :: l)) with (a + np.sum l)%num.
  destruct H as [-> | H]; [reflexivity|].
  rewrite (IH H). apply add_NaN_r.
Qed.

Lemma logpdf_zero_scale (x loc : R) : stats_norm.logpdf x loc 0 = NaN.
Proof.
  unfold stats_norm.logpdf. destruct (Rlt_dec 0 0); [lra | reflexivity].
Qed.

(** With a zero standard deviation in its row, [log q(z|x)] is [nan], and
    so is the value the loop stores. *)
Lemma importance_sample_at_nan (z_mean z_sd z_sample : list (list R))
  (aa_probs : list (ndarray2 R)) (v_gene_probs j_gene_probs : list (list R))
  (aa_obs : list (ndarray2 R)) (v_gene_obs j_gene_obs : list (list R))
  (i k : nat) :
  length (nth i z_sample []) = length (nth i z_mean []) ->
  length (nth i z_mean []) = length (nth i z_sd []) ->
  (k < length (nth i z_sd []))%nat ->
  nth k (nth i z_sd []) 0 = 0 ->
  importance_sample_at z_mean z_sd z_sample aa_probs v_gene_probs
    j_gene_probs aa_obs v_gene_obs j_gene_obs i
  = NaN.
Proof.
  intros H1 H2 Hk H0. unfold importance_sample_at. cbv zeta.
  set (z := nth i z_sample []) in *. set (m := nth i z_mean []) in *.
  set (sd := nth i z_sd []) in *.
  assert (Hq : np.sum
                 (map (fun t => stats_norm.logpdf (fst (fst t))
                                  (snd (fst t)) (snd t))
                      (combine (combine z m) sd)) = NaN).
  { apply np_sum_NaN. apply in_map_iff.
    exists (nth k (combine (combine z m) sd) (0, 0, 0)). split.
    - rewrite combine_nth by (rewrite length_combine; lia).
      rewrite combine_nth by lia. cbn [fst snd].
      rewrite H0. apply logpdf_zero_scale.
    - apply nth_In. rewrite !length_combine. lia. }
  rewrite Hq. unfold Num.sub. cbn [Num.opp].
  now rewrite !add_NaN_r.
Qed.

(** When a standard deviation of a record has underflowed to zero, the
    call still raises nothing, but [stats.norm.logpdf] has no density for
    a zero scale and the value stored for the record is [nan], whatever
    the record holds. *)
Theorem underflow_gives_nan (params : Params) (weights : Weights)
  (x_df : list onehot) (out_ps : list num) (g : rng) (i k : nat) :
  forallb (input_shape_ok params) x_df = true ->
  (2 <= length x_df)%nat ->
  length x_df = length out_ps ->
  (i < length x_df)%nat -> (k < latent_dim params)%nat ->
  nth k (nth i (posterior_sd params weights x_df) []) 0 = 0 ->
  exists out g',
    log_p_of_x_importance_sample params weights x_df out_ps g
    = Ok (out, g')
    /\ length out = length x_df
    /\ nth i out NaN = NaN.
Proof.
  intros Hs Hn Hlen Hi Hk H0.
  assert (Hne : x_df <> []) by (intros E; rewrite E in Hn; simpl in Hn; lia).
  set (z_mean := posterior_mean params weights x_df) in *.
  set (z_sd := posterior_sd params weights x_df) in *.
  assert (Hm : length z_mean = length x_df)
    by (unfold z_mean, posterior_mean; apply length_map).
  assert (Hsdlen : length z_sd = length x_df)
    by (unfold z_sd, posterior_sd; apply length_map).
  assert (Hmrow : forall a, (a < length x_df)%nat ->
            length (nth a z_mean []) = latent_dim params).
  { intros a Ha. unfold z_mean, posterior_mean.
    rewrite (nth_map_in _ x_df a (mk_onehot empty_array [] []) [] Ha).
    apply encoder_row_lengths. }
  assert (Hsrow : forall a, (a < length x_df)%nat ->
            length (nth a z_sd []) = latent_dim params).
  { intros a Ha. unfold z_sd, posterior_sd.
    rewrite (nth_map_in _ x_df a (mk_onehot empty_array [] []) [] Ha).
    rewrite length_map. apply encoder_row_lengths. }
  assert (Hstore : forall z_sample g',
            length z_sample = length x_df ->
            (forall a, (a < length x_df)%nat ->
               length (nth a z_sample []) = latent_dim params) ->
            stats_norm.rvs z_mean z_sd g = Ok (Array2 z_sample, g') ->
            exists out,
              log_p_of_x_importance_sample params weights x_df out_ps g
              = Ok (out, g')
              /\ length out = length x_df
              /\ nth i out NaN = NaN).
  { intros z_sample g' Hzl Hzrow Hrvs.
    eexists. split; [|split].
    - unfold log_p_of_x_importance_sample.
      rewrite Hlen, Nat.eqb_refl, <- Hlen.
      rewrite encode_value by assumption. cbn [bind].
      fold z_mean. fold z_sd. rewrite Hrvs. cbn [bind].
      unfold decode. rewrite decoder_batch;
        [| intros E; rewrite E in Hzl; simpl in Hzl; lia
         | apply forallb_rows_nth; intros a Ha; apply Hzrow; lia].
      cbn [bind]. rewrite (cols_of_df_ok params) by assumption.
      cbn [bind ndarray_rows]. rewrite Hlen, fold_update_all.
      reflexivity.
    - now rewrite length_map, length_seq.
    - rewrite nth_map_seq by (rewrite <- Hlen; exact Hi).
      apply (importance_sample_at_nan _ _ _ _ _ _ _ _ _ i k).
      + now rewrite Hzrow, Hmrow.
      + now rewrite Hmrow, Hsrow.
      + now rewrite Hsrow.
      + exact H0. }
  unfold stats_norm.rvs in Hstore.
  assert (Hdom : forallb (forallb (fun s => if Rle_dec 0 s then true
                                            else false)) z_sd = true).
  { apply forallb_forall. intros r Hr. apply forallb_forall. intros s Hin.
    pose proof (posterior_sd_nonneg params weights x_df) as Hnn.
    rewrite Forall_forall in Hnn. specialize (Hnn r Hr).
    rewrite Forall_forall in Hnn. specialize (Hnn s Hin).
    destruct (Rle_dec 0 s); [reflexivity | contradiction]. }
  rewrite Hdom in Hstore.
  destruct (forallb (forallb (fun s => if Req_dec_T s 0 then true
                                       else false)) z_sd).
  - destruct (Hstore z_mean g Hm Hmrow) as [out Hout].
    { now rewrite squeeze_left_batch by lia. }
    exists out, g. exact Hout.
  - destruct (standard_normal_shape (length z_mean)
                (length (hd [] z_mean)) g) as [Hv [Hvs _]].
    destruct (standard_normal (length z_mean) (length (hd [] z_mean)) g)
      as [vals g'] eqn:E.
    cbn [fst snd] in *.
    assert (Hc : length (hd [] z_mean) = latent_dim params).
    { rewrite <- (Hmrow 0%nat) by lia.
      destruct z_mean; [simpl in Hm; lia | reflexivity]. }
    set (z := map2 (map2 Rplus) (map2 (map2 Rmult) vals z_sd) z_mean)
      in *.
    assert (Hzl : length z = length x_df)
      by (unfold z; rewrite !length_map2; lia).
    destruct (Hstore z g' Hzl) as [out Hout].
    + intros a Ha. unfold z.
      rewrite (nth_map2 _ _ _ a [] []) by (rewrite ?length_map2; lia).
      rewrite (nth_map2 _ _ _ a [] []) by lia.
      rewrite !length_map2, (Hmrow a Ha), (Hsrow a Ha).
      rewrite forallb_forall in Hvs.
      assert (Hin : In (nth a vals []) vals) by (apply nth_In; lia).
      specialize (Hvs _ Hin). apply Nat.eqb_eq in Hvs.
      rewrite Hvs, Hc. lia.
    + now rewrite squeeze_left_batch by lia.
    + exists out, g'. exact Hout.
Qed.

Lemma exp_ge_pow2 (n : nat) : 2 ^ n <= Rtrigo_def.exp (INR n).
Proof.
  induction n as [|n IH].
  - simpl. rewrite exp_0. lra.
  - rewrite S_INR, exp_plus. simpl.
    pose proof (exp_ineq1 1 ltac:(lra)) as H1.
    pose proof (exp_pos (INR n)) as H2.
    assert (H3 : 0 < 2 ^ n) by (apply pow_lt; lra).
    nra.
Qed.

Lemma np_exp_float32_underflow : np_exp_float32 (-200) = 0.
Proof.
  unfold np_exp_float32.
  destruct (Rle_dec (Rtrigo_def.exp (-200)) (/ 2 ^ 150)) as [_|H];
    [reflexivity|].
  exfalso. apply H.
  replace (-200) with (Ropp (INR 200)) by (simpl; lra).
  rewrite exp_Ropp.
  apply Rinv_le_contravar; [apply pow_lt; lra|].
  apply Rle_trans with (2 ^ 200).
  - apply Rle_pow; [lra | lia].
  - apply exp_ge_pow2.
Qed.

Lemma underflow_gives_nan_witness :
  exists out g',
    log_p_of_x_importance_sample params_graph weights_underflow x_graph
                                 [Fin 0; Fin 0] g_graph
    = Ok (out, g')
    /\ nth 0 out NaN = NaN.
Proof.
  destruct (underflow_gives_nan params_graph weights_underflow x_graph
              [Fin 0; Fin 0] g_graph 0 0 eq_refl ltac:(simpl; lia) eq_refl
              ltac:(simpl; lia) ltac:(simpl; lia))
    as [out [g' [H1 [_ H2]]]].
  { unfold posterior_sd, encoder_row, Dense. simpl.
    replace (_ + -200) with (-200) by ring.
    rewrite np_exp_float32_underflow. apply sqrt_0. }
  exists out, g'. split; assumption.
Defined.

(** ** A frame of one sequence *)

Lemma importance_loop_raises (params : Params) (weights : Weights)
  (x_df : list onehot) (e : exn) (l : list nat) :
  fold_left
    (fun acc i =>
       '(log_p_x, g1) <- acc ;;
       '(out, g2) <- log_p_of_x_importance_sample params weights x_df
                       (nth i log_p_x []) g1 ;;
       Ok (update log_p_x i out, g2))
    l (Raise e)
  = Raise e.
Proof. induction l as [|i l IH]; [reflexivity | exact IH]. Qed.

(** [importance] cannot score a single sequence: when the frame, after
    [--limit-input-to], holds one record, the first sample already ends in
    the [ValueError] of [log_p_of_x_importance_sample] and nothing is
    written. *)
Theorem importance_rejects_single_sequence (params : Params)
  (weights : Weights)
  (unpadded_tcrbs_to_onehot : list tcrb -> nat -> result (list onehot))
  (limit_input_to : option Z) (nsamples : nat) (test_csv : list tcrb)
  (g : rng) (df : list onehot) :
  (1 <= nsamples)%nat ->
  get_data params unpadded_tcrbs_to_onehot test_csv 0 = Ok df ->
  forallb (input_shape_ok params) (limited limit_input_to df) = true ->
  length (limited limit_input_to df) = 1%nat ->
  importance params weights unpadded_tcrbs_to_onehot limit_input_to
             nsamples test_csv g
  = Raise ValueError.
Proof.
  intros HN Hdata Hs H1.
  unfold importance. rewrite Hdata. cbn [bind].
  fold (limited limit_input_to df).
  set (x := limited limit_input_to df) in *.
  unfold importance_samples.
  destruct nsamples as [|n]; [lia|].
  cbn [seq fold_left repeat nth bind].
  rewrite (one_record_frame_raises params weights x _ g Hs)
    by (rewrite ?repeat_length; auto).
  cbn [bind]. now rewrite importance_loop_raises.
Qed.

Lemma importance_rejects_single_sequence_witness :
  importance params_graph weights_graph convert_graph (Some 1%Z) 2 []
             g_graph
  = Raise ValueError.
Proof.
  apply (importance_rejects_single_sequence params_graph weights_graph
           convert_graph (Some 1%Z) 2 [] g_graph x_graph);
    [lia | reflexivity..].
Defined.
